(** * Pearl: a shallow embedding of the policy learners, network helpers,
      replay buffer and environment adapters, with their verified properties.

    Python objects become records, mutation becomes explicit state passing,
    and a raised exception becomes the [Raise] branch of [result].  The
    operations of the tensor framework that the repository only calls
    (network layers, loss, optimiser, float arithmetic) are taken as
    parameters of the sections that use them; the tensor plumbing the
    repository itself performs (permute, view, cat, index_select, broadcast)
    is written out on lists. *)

From Stdlib Require Import ZArith List Lia Bool String Reals Lra.
From Stdlib Require QArith.
From stdpp Require Import gmap strings list fin_maps.
Import ListNotations.

Local Open Scope Z_scope.

#[local] Set Warnings "-register-all".

(** ** Python results *)

Inductive PyExc : Type :=
  | AssertionError
  | TypeError
  | KeyError
  | ValueError
  | RuntimeError
  | IndexError
  | OverflowError
  | NotImplementedError.

Inductive result (A : Type) : Type :=
  | Ok (a : A)
  | Raise (e : PyExc).

Arguments Ok {A} a.
Arguments Raise {A} e.

#[global] Instance result_ret : MRet result := fun A a => Ok a.

#[global] Instance result_bind : MBind result := fun A B k r =>
  match r with
  | Ok a => k a
  | Raise e => Raise e
  end.

(** [assert cond] *)
Definition py_assert (cond : bool) : result unit :=
  if cond then Ok tt else Raise AssertionError.

Definition raises {A : Type} (r : result A) : Prop :=
  match r with Ok _ => False | Raise _ => True end.

(** ** pearl/utils/environments.py *)

Module Environments.

(** [ActionResult]: the dataclass returned by [Environment.step]. *)
Record ActionResult (O R I : Type) : Type := mkActionResult {
  observation : O;
  reward : R;
  terminated : bool;
  truncated : bool;
  info : I
}.
Arguments mkActionResult {O R I}.
Arguments observation {O R I}.
Arguments reward {O R I}.
Arguments terminated {O R I}.
Arguments truncated {O R I}.
Arguments info {O R I}.

(** [DiscreteActionSpace(actions)] *)
Record DiscreteActionSpace (A : Type) : Type := mkDiscreteActionSpace {
  actions : list A
}.
Arguments mkDiscreteActionSpace {A}.
Arguments actions {A}.

(** *** FixedNumberOfStepsEnvironment *)

Module FixedNumberOfStepsEnvironment.

(** [number_of_steps] holds whatever the caller configured. *)
Record FixedNumberOfStepsEnvironment (N : Type) : Type := mkFixed {
  number_of_steps_so_far : Z;
  number_of_steps : N;
  _action_space : DiscreteActionSpace bool
}.
Arguments mkFixed {N}.
Arguments number_of_steps_so_far {N}.
Arguments number_of_steps {N}.
Arguments _action_space {N}.

Section FixedNumberOfSteps.
(** The values of the [info] dictionary are arbitrary objects. *)
Context {PyObj : Type}.

Definition init {N : Type} (number_of_steps : N) : FixedNumberOfStepsEnvironment N :=
  {| number_of_steps_so_far := 0;
     number_of_steps := number_of_steps;
     _action_space := mkDiscreteActionSpace [true; false] |}.

(** [self.number_of_steps_so_far += 1] *)
Definition incr_steps_so_far {N : Type} (self : FixedNumberOfStepsEnvironment N)
  : FixedNumberOfStepsEnvironment N :=
  {| number_of_steps_so_far := number_of_steps_so_far self + 1;
     number_of_steps := number_of_steps self;
     _action_space := _action_space self |}.

Definition step {N A : Type} (self : FixedNumberOfStepsEnvironment N) (action : A)
  : FixedNumberOfStepsEnvironment N * ActionResult Z Z (gmap string PyObj) :=
  let self := incr_steps_so_far self in
  (self,
   {| observation := number_of_steps_so_far self;
      reward := number_of_steps_so_far self;
      terminated := true;
      truncated := true;
      info := ∅ |}).

(** [render] prints the counter; standard output is the list of the
    integers printed so far. *)
Definition render {N : Type} (self : FixedNumberOfStepsEnvironment N)
    (stdout : list Z) : list Z :=
  stdout ++ [number_of_steps_so_far self].

Definition action_space {N : Type} (self : FixedNumberOfStepsEnvironment N)
  : DiscreteActionSpace bool :=
  _action_space self.

Definition reset {N : Type} (self : FixedNumberOfStepsEnvironment N)
  : Z * DiscreteActionSpace bool :=
  (number_of_steps_so_far self, action_space self).

(** Running [step] [k] times in a row. *)
Fixpoint steps {N A : Type} (k : nat) (self : FixedNumberOfStepsEnvironment N)
    (action : A) : FixedNumberOfStepsEnvironment N :=
  match k with
  | O => self
  | S k' => steps k' (step self action).1 action
  end.

(** The same environment object with another configured [number_of_steps]
    (of any type): used to state that a method does not read the field. *)
Definition configured_with {N N' : Type} (n : N')
    (self : FixedNumberOfStepsEnvironment N) : FixedNumberOfStepsEnvironment N' :=
  {| number_of_steps_so_far := number_of_steps_so_far self;
     number_of_steps := n;
     _action_space := _action_space self |}.

End FixedNumberOfSteps.
End FixedNumberOfStepsEnvironment.

(** *** BoxObservationsEnvironmentBase and its two subclasses *)

(** What a base environment with a [Discrete] observation space hands out:
    a Python integer, or a zero-dimensional integer tensor. *)
Inductive Observation : Type :=
  | ObsInt (z : Z)
  | ObsTensor (z : Z).

Definition obs_value (o : Observation) : Z :=
  match o with ObsInt z | ObsTensor z => z end.

(** The [Environment] interface, as far as the adapters use it.  [E] is the
    state of the environment object, [env_observation_space_n] reads
    [observation_space.n]. *)
Class Environment (E Act R I AS : Type) : Type := {
  env_step : E → Act → result (E * ActionResult Observation R I);
  env_reset : E → result (E * (Observation * AS));
  env_action_space : E → AS;
  env_observation_space_n : E → Z
}.

Module BoxObservationsEnvironmentBase.
Section BoxObservations.
(** [F] is the float32 element type of the observation tensors and
    [float_of_Z] the conversion performed by [dtype=torch.float32] and by
    [.float()]. *)
Context {F : Type} (float_of_Z : Z → F).
Context {E Act R I AS : Type} `{!Environment E Act R I AS}.

(** [F.one_hot(tensor, num_classes)] on a zero-dimensional tensor:
    class values must be non-negative and below [num_classes]; a
    [num_classes] of -1 asks for one more than the largest class value. *)
Definition one_hot (value num_classes : Z) : result (list Z) :=
  if value <? 0 then Raise RuntimeError
  else if num_classes =? -1 then
    Ok (map (fun i => if Z.of_nat i =? value then 1 else 0)
            (seq 0 (Z.to_nat (value + 1))))
  else if num_classes <=? 0 then Raise RuntimeError
  else if num_classes <=? value then Raise RuntimeError
  else Ok (map (fun i => if Z.of_nat i =? value then 1 else 0)
               (seq 0 (Z.to_nat num_classes))).

Inductive AdapterClass : Type :=
  | BoxObservationsFromDiscrete
  | OneHotObservationsFromDiscrete.

Record BoxObservationsEnvironmentBase : Type := mkAdapter {
  adapter_class : AdapterClass;
  base_environment : E
}.

(** The abstract method, as overridden by the two subclasses. *)
Definition compute_tensor_observation (self : BoxObservationsEnvironmentBase)
    (observation : Observation) : result (list F) :=
  match adapter_class self with
  | BoxObservationsFromDiscrete =>
      (* torch.tensor([observation], dtype=torch.float32) *)
      Ok [float_of_Z (obs_value observation)]
  | OneHotObservationsFromDiscrete =>
      let observation_tensor :=
        match observation with
        | ObsTensor z => z
        | ObsInt z => z (* torch.tensor(observation) *)
        end in
      hot ← one_hot observation_tensor
               (env_observation_space_n (base_environment self));
      Ok (map float_of_Z hot)
  end.

Definition action_space (self : BoxObservationsEnvironmentBase) : AS :=
  env_action_space (base_environment self).

(** [action_result.observation = v], assigned on the object the base
    environment returned. *)
Definition set_observation {O O' : Type}
    (ar : ActionResult O R I) (v : O') : ActionResult O' R I :=
  {| observation := v;
     reward := reward ar;
     terminated := terminated ar;
     truncated := truncated ar;
     info := info ar |}.

Definition step (self : BoxObservationsEnvironmentBase) (action : Act)
  : result (BoxObservationsEnvironmentBase * ActionResult (list F) R I) :=
  '(base, action_result) ← env_step (base_environment self) action;
  let self := mkAdapter (adapter_class self) base in
  tensor ← compute_tensor_observation self (observation action_result);
  Ok (self, set_observation action_result tensor).

Definition reset (self : BoxObservationsEnvironmentBase)
  : result (BoxObservationsEnvironmentBase * (list F * AS)) :=
  '(base, (observation, action_space)) ← env_reset (base_environment self);
  let self := mkAdapter (adapter_class self) base in
  tensor ← compute_tensor_observation self observation;
  Ok (self, (tensor, action_space)).

(** An observation the adapter can convert: any for the box adapter, a
    member of the base environment's [Discrete(n)] space for the one-hot
    adapter. *)
Definition convertible (self : BoxObservationsEnvironmentBase)
    (o : Observation) : Prop :=
  match adapter_class self with
  | BoxObservationsFromDiscrete => True
  | OneHotObservationsFromDiscrete =>
      0 <= obs_value o < env_observation_space_n (base_environment self)
  end.

(** [gym.spaces.Box(low=low, high=high, shape=shape)], with integer
    bounds. *)
Record Box : Type := mkBox {
  low : list Z;
  high : list Z;
  shape : list Z
}.

(** [np.full((n,), value)] *)
Definition np_full (n value : Z) : result (list Z) :=
  if n <? 0 then Raise ValueError else Ok (replicate (Z.to_nat n) value).

(** The static method, as overridden by the two subclasses; [__init__]
    stores its result in [self.observation_space]. *)
Definition make_observation_space (cls : AdapterClass) (base_environment : E)
  : result Box :=
  match cls with
  | BoxObservationsFromDiscrete =>
      let low_action := [0] in
      let high_action := [env_observation_space_n base_environment - 1] in
      Ok (mkBox low_action high_action [1])
  | OneHotObservationsFromDiscrete =>
      let n := env_observation_space_n base_environment in
      low ← np_full n 0;
      high ← np_full n 1;
      Ok (mkBox low high [n])
  end.

End BoxObservations.
End BoxObservationsEnvironmentBase.

End Environments.

(** ** replay_buffers/replay_buffer.py *)

Module ReplayBuffers.

(** The Python values the methods of this file hand back. *)
Inductive PyValue : Type :=
  | PyNone
  | PyBool (b : bool)
  | PyInt (z : Z).

(** [sys.maxsize] of a 64-bit CPython. *)
Definition maxsize : Z := 2 ^ 63 - 1.

(** The abstract class: [B] is the state of a concrete buffer, [__len__] its
    (abstract) length method, declared to return an [int]. *)
Class ReplayBuffer (B : Type) : Type := {
  __len__ : B → Z
}.

(** The builtin [len(obj)]: calls [__len__] and insists on a value that is
    a length, that is non-negative and at most [sys.maxsize]. *)
Definition len {B : Type} `{!ReplayBuffer B} (self : B) : result Z :=
  let n := __len__ self in
  if n <? 0 then Raise ValueError
  else if maxsize <? n then Raise OverflowError
  else Ok n.

(** [def empty(self) -> None: return len(self) == 0] *)
Definition empty {B : Type} `{!ReplayBuffer B} (self : B) : result PyValue :=
  n ← len self;
  Ok (PyBool (n =? 0)).

(** What [__len__] must return for [len] to accept it. *)
Definition is_length (n : Z) : Prop := 0 <= n <= maxsize.

End ReplayBuffers.

(** ** The constructors of [torch.nn] *)

Module NN.

(** The constructors of [torch.nn] check their arguments and raise on those
    they reject: a size with which the parameters of the module cannot be
    allocated (a negative one, for instance) is a [RuntimeError].  The checks
    are the framework's own, so each is taken as an operation: it returns
    [Ok tt] when the constructor, called with these arguments, builds its
    module, and raises what the constructor raises otherwise. *)
Class Constructors : Type := {
  Linear_args : Z → Z → result unit;
  LayerNorm_args : Z → result unit;
  BatchNorm1d_args : Z → result unit;
  Conv2d_args : Z → Z → Z → Z → Z → result unit;
  BatchNorm2d_args : Z → result unit
}.

End NN.

(** ** neural_networks/common/utils.py *)

Module Utils.
Import NN.

(** *** mlp_block *)

Inductive Activation : Type :=
  | Tanh | ReLU | LeakyReLU | Identity | Sigmoid | Softplus | Softmax.

Definition ACTIVATION_MAP : gmap string Activation :=
  list_to_map
    [("tanh", Tanh); ("relu", ReLU); ("leaky_relu", LeakyReLU);
     ("linear", Identity); ("sigmoid", Sigmoid); ("softplus", Softplus);
     ("softmax", Softmax)]%string.

(** [ACTIVATION_MAP[name]] *)
Definition activation_of (name : string) : result Activation :=
  match ACTIVATION_MAP !! name with
  | Some a => Ok a
  | None => Raise KeyError
  end.

(** The last activation names an entry of [ACTIVATION_MAP], when given. *)
Definition valid_last_activation (last_activation : option string) : Prop :=
  match last_activation with
  | Some name => is_Some (ACTIVATION_MAP !! name)
  | None => True
  end.

Section MlpBlock.
(** [Float] is the type of [dropout_ratio]; [float_pos x] decides [x > 0],
    and [Dropout_args] is the check of [nn.Dropout(p)], which raises a
    [ValueError] for a probability outside [0, 1]. *)
Context {Float : Type} (float_pos : Float → bool).
Context {torch : Constructors} (Dropout_args : Float → result unit).

(** The module tree [mlp_block] builds out of framework constructors. *)
Inductive NNModule : Type :=
  | Linear (in_features out_features : Z)
  | LayerNorm (normalized_shape : Z)
  | Dropout (p : Float)
  | Act (a : Activation)
  | BatchNorm1d (num_features : Z)
  | Sequential (children : list NNModule)
  | ResidualWrapper (inner : NNModule).

(** A record emitted through [logging.warn]: the two dimensions the message
    is formatted with. *)
Record LogRecord : Type := SkipWarning {
  warned_in_dim : Z;
  warned_out_dim : Z
}.

(** A computation that appends to the log and then returns or raises; what
    was logged before an exception stays logged. *)
Definition Logged (A : Type) : Type := list LogRecord → list LogRecord * result A.

Definition lret {A : Type} (a : A) : Logged A := fun log => (log, Ok a).

Definition lbind {A B : Type} (m : Logged A) (k : A → Logged B) : Logged B :=
  fun log =>
    match m log with
    | (log', Ok a) => k a log'
    | (log', Raise e) => (log', Raise e)
    end.

Definition lift {A : Type} (r : result A) : Logged A := fun log => (log, r).

(** [logging.warn(msg)]: appends the record and evaluates to [None]. *)
Definition logging_warn (r : LogRecord) : Logged unit :=
  fun log => (log ++ [r], Ok tt).

(** [raise None]: the operand of [raise] must derive from [BaseException]. *)
Definition raise_None {A : Type} (_ : unit) : Logged A :=
  fun log => (log, Raise TypeError).

(** [dims[i]] for [0 <= i < len(dims)]. *)
Definition dims_at (dims : list Z) (i : nat) : result Z :=
  match dims !! i with
  | Some d => Ok d
  | None => Raise IndexError
  end.

(** [dims[-k]] for [1 <= k <= len(dims)]. *)
Definition dims_from_end (dims : list Z) (k : nat) : result Z :=
  if (k <=? length dims)%nat then dims_at dims (length dims - k) else Raise IndexError.

(** The calls of the constructors: the module, when the framework accepts
    the arguments. *)
Definition nn_Linear (in_features out_features : Z) : result NNModule :=
  _ ← Linear_args in_features out_features;
  Ok (Linear in_features out_features).

Definition nn_LayerNorm (normalized_shape : Z) : result NNModule :=
  _ ← LayerNorm_args normalized_shape;
  Ok (LayerNorm normalized_shape).

Definition nn_Dropout (p : Float) : result NNModule :=
  _ ← Dropout_args p;
  Ok (Dropout p).

Definition nn_BatchNorm1d (num_features : Z) : result NNModule :=
  _ ← BatchNorm1d_args num_features;
  Ok (BatchNorm1d num_features).

Section Body.
Variables (use_batch_norm use_layer_norm : bool) (hidden_activation : string)
  (dropout_ratio : Float) (use_skip_connections : bool).

(** The list [single_layers] assembled by one iteration of the loop, in the
    order of the source: the linear layer, the layer norm and the dropout
    are built before the activation is looked up, the batch norm after. *)
Definition single_layers (input_dim_current_layer output_dim_current_layer : Z)
  : result (list NNModule) :=
  linear ← nn_Linear input_dim_current_layer output_dim_current_layer;
  let single_layers := [linear] in
  single_layers ←
    (if use_layer_norm then
       layer_norm ← nn_LayerNorm output_dim_current_layer;
       Ok (single_layers ++ [layer_norm])
     else Ok single_layers);
  single_layers ←
    (if float_pos dropout_ratio then
       dropout ← nn_Dropout dropout_ratio;
       Ok (single_layers ++ [dropout])
     else Ok single_layers);
  act ← activation_of hidden_activation;
  let single_layers := single_layers ++ [Act act] in
  if use_batch_norm then
    batch_norm ← nn_BatchNorm1d output_dim_current_layer;
    Ok (single_layers ++ [batch_norm])
  else Ok single_layers.

(** One iteration of [for i in range(len(dims) - 2)]. *)
Definition hidden_layer (dims : list Z) (layers : list NNModule) (i : nat)
  : Logged (list NNModule) :=
  lbind (lift (dims_at dims i)) (fun input_dim_current_layer =>
  lbind (lift (dims_at dims (i + 1))) (fun output_dim_current_layer =>
  lbind (lift (single_layers input_dim_current_layer output_dim_current_layer))
    (fun single_layers =>
  let single_layer_model := Sequential single_layers in
  if use_skip_connections then
    if input_dim_current_layer =? output_dim_current_layer then
      lret (layers ++ [ResidualWrapper single_layer_model])
    else
      lbind (logging_warn (SkipWarning input_dim_current_layer output_dim_current_layer))
        (fun _ => lret (layers ++ [single_layer_model]))
  else lret (layers ++ [single_layer_model])))).

Fixpoint hidden_loop (dims : list Z) (range : list nat) (layers : list NNModule)
  : Logged (list NNModule) :=
  match range with
  | [] => lret layers
  | i :: range' =>
      lbind (hidden_layer dims layers i) (fun layers' => hidden_loop dims range' layers')
  end.

Definition mlp_block (input_dim : Z) (hidden_dims : option (list Z))
    (output_dim : Z) (last_activation : option string) : Logged NNModule :=
  match hidden_dims with
  | None => lift (Raise TypeError)  (* list + None *)
  | Some hidden_dims =>
      let dims := [input_dim] ++ hidden_dims ++ [output_dim] in
      lbind (hidden_loop dims (seq 0 (length dims - 2)) []) (fun layers =>
      lbind (lift (dims_from_end dims 2)) (fun d2 =>
      lbind (lift (dims_from_end dims 1)) (fun d1 =>
      lbind (lift (linear ← nn_Linear d2 d1;
                   match last_activation with
                   | Some name => act ← activation_of name; Ok [linear; Act act]
                   | None => Ok [linear]
                   end)) (fun last_layer =>
      let last_layer_model := Sequential last_layer in
      lbind (if use_skip_connections then
               if d2 =? d1 then lret (ResidualWrapper last_layer_model)
               else lbind (logging_warn (SkipWarning d2 d1)) raise_None
             else lret last_layer_model) (fun last_layer_model =>
      lret (Sequential (layers ++ [last_layer_model])))))))
  end.

(** The modules one iteration puts into [single_layers], for an activation
    [act] of the map. *)
Definition built_layers (act : Activation) (a b : Z) : list NNModule :=
  [Linear a b]
  ++ (if use_layer_norm then [LayerNorm b] else [])
  ++ (if float_pos dropout_ratio then [Dropout dropout_ratio] else [])
  ++ [Act act]
  ++ (if use_batch_norm then [BatchNorm1d b] else []).

(** The constructors accept the arguments of the calls one iteration makes
    for the dimensions [a], [b]. *)
Definition layer_accepted (a b : Z) : Prop :=
  Linear_args a b = Ok tt ∧
  (use_layer_norm = true → LayerNorm_args b = Ok tt) ∧
  (float_pos dropout_ratio = true → Dropout_args dropout_ratio = Ok tt) ∧
  (use_batch_norm = true → BatchNorm1d_args b = Ok tt).

(** The constructors accept the arguments of every call [mlp_block] makes
    for [dims]: those of the iterations [i] in [range(len(dims) - 2)], and
    [nn.Linear(dims[-2], dims[-1])]. *)
Definition constructors_accept (dims : list Z) : Prop :=
  (∀ i a b, (i + 2 < length dims)%nat →
     dims !! i = Some a → dims !! (i + 1)%nat = Some b → layer_accepted a b) ∧
  (∀ a b, dims_from_end dims 2 = Ok a → dims_from_end dims 1 = Ok b →
     Linear_args a b = Ok tt).

End Body.
(** The layer the loop appends for the dimensions [a], [b], and what it
    logs on the way. *)
Definition appended_layer (skip : bool) (sl : list NNModule) (a b : Z)
  : NNModule :=
  if skip then
    if a =? b then ResidualWrapper (Sequential sl) else Sequential sl
  else Sequential sl.

Definition appended_warning (skip : bool) (a b : Z) : list LogRecord :=
  if skip then if a =? b then [] else [SkipWarning a b] else [].

End MlpBlock.

(** *** conv_block *)

(** The modules [conv_block] puts into its [nn.Sequential]. *)
Inductive ConvLayer : Type :=
  | Conv2d (in_channels out_channels kernel_size stride padding : Z)
  | BatchNorm2d (num_features : Z)
  | ConvReLU.

Section ConvBlock.
Context {torch : Constructors}.

(** The layers one iteration of the loop appends: the convolution is built
    first, the batch norm after it. *)
Definition conv_group (use_batch_norm : bool) (input_channels_count : Z)
    (spec : Z * Z * Z * Z) : result (list ConvLayer) :=
  let '(out_channels, kernel_size, stride, padding) := spec in
  _ ← Conv2d_args input_channels_count out_channels kernel_size stride padding;
  let layers := [Conv2d input_channels_count out_channels kernel_size stride padding] in
  layers ←
    (if use_batch_norm && (1 <? input_channels_count) then
       _ ← BatchNorm2d_args input_channels_count;
       Ok (layers ++ [BatchNorm2d input_channels_count])
     else Ok layers);
  Ok (layers ++ [ConvReLU]).

(** The loop over the zipped lists; [input_channels_count] is reassigned at
    the end of every iteration. *)
Fixpoint conv_loop (use_batch_norm : bool) (input_channels_count : Z)
    (specs : list (Z * Z * Z * Z)) (layers : list ConvLayer)
  : result (list ConvLayer) :=
  match specs with
  | [] => Ok layers
  | spec :: specs' =>
      group ← conv_group use_batch_norm input_channels_count spec;
      let layers := layers ++ group in
      let input_channels_count := spec.1.1.1 in
      conv_loop use_batch_norm input_channels_count specs' layers
  end.

(** [zip(output_channels_list, kernel_sizes, strides, paddings)] *)
Definition zip4 (output_channels_list kernel_sizes strides paddings : list Z)
  : list (Z * Z * Z * Z) :=
  zip (zip (zip output_channels_list kernel_sizes) strides) paddings.

(** The list handed to [nn.Sequential]. *)
Definition conv_block (input_channels_count : Z)
    (output_channels_list kernel_sizes strides paddings : list Z)
    (use_batch_norm : bool) : result (list ConvLayer) :=
  conv_loop use_batch_norm input_channels_count
    (zip4 output_channels_list kernel_sizes strides paddings) [].

(** The number of input channels of convolution [j]: the block's own for
    the first, the previous convolution's output channels after. *)
Definition input_channels_of (input_channels_count : Z)
    (output_channels_list : list Z) (j : nat) : Z :=
  match j with
  | O => input_channels_count
  | S j' => default 0 (output_channels_list !! j')
  end.

(** The modules of one group, for a convolution with [in_channels] input
    channels. *)
Definition built_group (use_batch_norm : bool) (in_channels : Z)
    (spec : Z * Z * Z * Z) : list ConvLayer :=
  let '(out_channels, kernel_size, stride, padding) := spec in
  [Conv2d in_channels out_channels kernel_size stride padding]
  ++ (if use_batch_norm && (1 <? in_channels)
      then [BatchNorm2d in_channels] else [])
  ++ [ConvReLU].

(** The constructors accept the arguments of the calls of one iteration. *)
Definition group_accepted (use_batch_norm : bool) (in_channels : Z)
    (spec : Z * Z * Z * Z) : Prop :=
  let '(out_channels, kernel_size, stride, padding) := spec in
  Conv2d_args in_channels out_channels kernel_size stride padding = Ok tt ∧
  (use_batch_norm && (1 <? in_channels) = true →
   BatchNorm2d_args in_channels = Ok tt).

End ConvBlock.

(** *** update_target_network, update_target_networks *)

Section TargetNetworks.
(** Parameter tensors and the scalar [tau], with the framework's arithmetic:
    [scale c t] is [c * t], [add] is [+] and [one_minus c] is [1 - c]. *)
Context {Tensor Scalar : Type}.
Context (scale : Scalar → Tensor → Tensor) (add : Tensor → Tensor → Tensor)
  (one_minus : Scalar → Scalar).

(** Networks are objects: the store maps the identity of a network to its
    state dictionary (parameter and buffer names to tensors). *)
Definition state_dict (store : gmap nat (gmap string Tensor)) (network : nat)
  : result (gmap string Tensor) :=
  match store !! network with
  | Some sd => Ok sd
  | None => Raise RuntimeError
  end.

(** [load_state_dict] is strict: the keys given must be the network's own. *)
Definition load_state_dict (store : gmap nat (gmap string Tensor)) (network : nat)
    (sd : gmap string Tensor) : result (gmap nat (gmap string Tensor)) :=
  own ← state_dict store network;
  if decide (dom sd = dom own) then Ok (<[network := sd]> store)
  else Raise RuntimeError.

(** The right-hand side [tau * source[key] + (1 - tau) * target[key]]. *)
Definition soft_update (tau : Scalar) (source_value target_value : Tensor) : Tensor :=
  add (scale tau source_value) (scale (one_minus tau) target_value).

(** One iteration of [for key in source_net_state_dict]. *)
Definition soft_update_key (tau : Scalar) (key : string) (source_value : Tensor)
    (acc : result (gmap string Tensor)) : result (gmap string Tensor) :=
  target_net_state_dict ← acc;
  match target_net_state_dict !! key with
  | Some target_value =>
      Ok (<[key := soft_update tau source_value target_value]> target_net_state_dict)
  | None => Raise KeyError
  end.

Definition update_target_network (store : gmap nat (gmap string Tensor))
    (target_network source_network : nat) (tau : Scalar)
  : result (gmap nat (gmap string Tensor)) :=
  target_net_state_dict ← state_dict store target_network;
  source_net_state_dict ← state_dict store source_network;
  target_net_state_dict ←
    map_fold (soft_update_key tau) (Ok target_net_state_dict) source_net_state_dict;
  load_state_dict store target_network target_net_state_dict.

(** [zip] stops at the shorter list. *)
Definition update_target_networks (store : gmap nat (gmap string Tensor))
    (list_of_target_networks list_of_source_networks : list nat) (tau : Scalar)
  : result (gmap nat (gmap string Tensor)) :=
  foldl (fun acc '(target_network, source_network) =>
           store ← acc; update_target_network store target_network source_network tau)
        (Ok store) (zip list_of_target_networks list_of_source_networks).

(** The spec's words: every entry of the target's dictionary becomes
    [tau * source_value + (1 - tau) * target_value]. *)
Definition soft_updated_dict (tau : Scalar) (source_sd target_sd : gmap string Tensor)
  : gmap string Tensor :=
  map_zip_with (soft_update tau) source_sd target_sd.

End TargetNetworks.

(** *** ensemble_forward *)

Section EnsembleForward.
(** [Elem] is the element type of tensors; [State] is what
    [stack_module_state] stacks: the parameters and buffers of one model. *)
Context {Elem State : Type}.

(** An [nn.Module]: its code, run on some parameters and a batch of feature
    rows, yields a tensor of which only the elements in memory order matter
    below; [state] holds the module's own parameters. *)
Record Model : Type := mkModel {
  forward : State → list (list Elem) → list Elem;
  state : State
}.

(** [model(x)] *)
Definition call (model : Model) (x : list (list Elem)) : list Elem :=
  forward model (state model) x.

(** [torch.func.functional_call(model, (params, buffers), data)] *)
Definition functional_call (model : Model) (params_and_buffers : State)
    (data : list (list Elem)) : list Elem :=
  forward model params_and_buffers data.

(** A three-dimensional tensor with its shape. *)
Record Tensor3 : Type := mkTensor3 {
  shape0 : nat;
  shape1 : nat;
  shape2 : nat;
  entries : list (list (list Elem))
}.

Definition well_shaped (t : Tensor3) : Prop :=
  length (entries t) = shape0 t ∧
  Forall (fun m => length m = shape1 t ∧ Forall (fun r => length r = shape2 t) m)
         (entries t).

(** Exchange of the first two dimensions of data with [cols] columns. *)
Fixpoint transpose {A : Type} (cols : nat) (rows : list (list A)) : list (list A) :=
  match rows with
  | [] => replicate cols []
  | r :: rows' => zip_with cons r (transpose cols rows')
  end.

(** [t.permute((1, 0, 2))] *)
Definition permute_102 (t : Tensor3) : Tensor3 :=
  {| shape0 := shape1 t;
     shape1 := shape0 t;
     shape2 := shape2 t;
     entries := transpose (shape1 t) (entries t) |}.

(** [stack_module_state(models)] needs at least one model. *)
Definition stack_module_state (models : list Model) : result (list State) :=
  match models with
  | [] => Raise RuntimeError
  | _ => Ok (map state models)
  end.

(** [torch.vmap(f)(params, buffers, data)]: the mapped dimensions must have
    one size, and the per-slice outputs are stacked, so they must have one
    size too. *)
Definition vmap (f : State → list (list Elem) → list Elem) (params : list State)
    (data : Tensor3) : result (list (list Elem)) :=
  if (length params =? shape0 data)%nat then
    let outs := zip_with f params (entries data) in
    match outs with
    | [] => Ok []
    | o :: _ =>
        if forallb (fun o' => (length o' =? length o)%nat) outs then Ok outs
        else Raise RuntimeError
    end
  else Raise ValueError.

Fixpoint chunks {A : Type} (count size : nat) (flat : list A) : list (list A) :=
  match count with
  | O => []
  | S count' => take size flat :: chunks count' size (drop size flat)
  end.

(** [t.view((-1, cols))] on the elements of [t] in memory order. *)
Definition view_rows (flat : list Elem) (cols : nat) : result (list (list Elem)) :=
  if (cols =? 0)%nat then Raise RuntimeError
  else if (length flat mod cols =? 0)%nat then
    Ok (chunks (length flat / cols) cols flat)
  else Raise RuntimeError.

Definition ensemble_forward (models : list Model) (features : Tensor3)
  : result (list (list Elem)) :=
  let batch_size := shape0 features in
  let features := permute_102 features in
  params ← stack_module_state models;
  match models with
  | [] => Raise IndexError  (* models[0] in wrapper *)
  | model0 :: _ =>
      stacked ← vmap (functional_call model0) params features;
      values ← view_rows (concat stacked) batch_size;
      Ok (transpose batch_size values)
  end.

(** The naive loop: model [i] is run on column [i] of the
    features, and its outputs fill column [i] of the result. *)
Definition column (features : Tensor3) (i : nat) : list (list Elem) :=
  omap (fun m => m !! i) (entries features).

Definition naive_ensemble (models : list Model) (features : Tensor3)
  : list (list Elem) :=
  transpose (shape0 features)
    (imap (fun i model => call model (column features i)) models).

(** All models run the code of the first one. *)
Definition structurally_identical (models : list Model) : Prop :=
  ∀ m0 m, head models = Some m0 → m ∈ models →
    ∀ st x, forward m st x = forward m0 st x.

(** A model that maps every feature row to one scalar, row by row. *)
Definition rowwise_scalar (m : Model) : Prop :=
  ∀ st x, forward m st x = flat_map (fun r => forward m st [r]) x ∧
          ∀ r, length (forward m st [r]) = 1%nat.

(** A model that yields one element per feature row. *)
Definition scalar_per_row (m : Model) : Prop :=
  ∀ st x, length (forward m st x) = length x.

(** The shape promised for every non-empty list of structurally identical
    modules and every feature tensor, whatever the modules compute. *)
Definition shape_for_all_modules : Prop :=
  ∀ (models : list Model) (features : Tensor3),
    models ≠ [] →
    structurally_identical models →
    well_shaped features →
    length models = shape1 features →
    ∃ out, ensemble_forward models features = Ok out ∧
           length out = shape0 features ∧
           Forall (fun r => length r = shape1 features) out.

End EnsembleForward.

End Utils.

(** ** The tensor operations used by the policy learners *)

Module Torch.

(** Float arithmetic of the framework, as far as the learners below combine
    tensors themselves: elementwise product, negation, logarithm, and the
    reduction [torch.sum] of a sequence of elements. *)
Class FloatOps (Elem : Type) : Type := {
  fmul : Elem → Elem → Elem;
  fneg : Elem → Elem;
  flog : Elem → Elem;
  fsum : list Elem → Elem
}.

Section Tensors.
Context {Elem : Type} `{!FloatOps Elem}.

(** Tensors of rank one and two; a matrix carries its number of columns so
    that a shape with zero rows is still a shape. *)
Inductive Tensor : Type :=
  | Tensor1 (v : list Elem)
  | Tensor2 (cols : nat) (m : list (list Elem)).

Definition shape (t : Tensor) : list nat :=
  match t with
  | Tensor1 v => [length v]
  | Tensor2 cols m => [length m; cols]
  end.

(** [t.shape[0]] *)
Definition shape0 (t : Tensor) : nat :=
  match t with
  | Tensor1 v => length v
  | Tensor2 _ m => length m
  end.

Definition well_formed (t : Tensor) : Prop :=
  match t with
  | Tensor1 _ => True
  | Tensor2 cols m => Forall (fun r => length r = cols) m
  end.

(** The elements in memory order. *)
Definition flat (t : Tensor) : list Elem :=
  match t with
  | Tensor1 v => v
  | Tensor2 _ m => concat m
  end.

(** The size two broadcast dimensions agree on. *)
Definition broadcast_dim (a b : nat) : result nat :=
  if (a =? b)%nat then Ok a
  else if (a =? 1)%nat then Ok b
  else if (b =? 1)%nat then Ok a
  else Raise RuntimeError.

(** Expansion of a dimension of size one (or of the right size) to [n]. *)
Definition expand {A : Type} (n : nat) (l : list A) : list A :=
  match l with
  | [x] => replicate n x
  | _ => l
  end.

(** A tensor read as a matrix: a vector of length [n] has shape [(1, n)]. *)
Definition as_matrix (t : Tensor) : nat * nat * list (list Elem) :=
  match t with
  | Tensor1 v => (1%nat, length v, [v])
  | Tensor2 cols m => (length m, cols, m)
  end.

(** [x * y] with broadcasting. *)
Definition mul (x y : Tensor) : result Tensor :=
  match x, y with
  | Tensor1 v, Tensor1 w =>
      n ← broadcast_dim (length v) (length w);
      Ok (Tensor1 (zip_with fmul (expand n v) (expand n w)))
  | _, _ =>
      let '(rx, cx, mx) := as_matrix x in
      let '(ry, cy, my) := as_matrix y in
      r ← broadcast_dim rx ry;
      c ← broadcast_dim cx cy;
      Ok (Tensor2 c
            (zip_with (fun u w => zip_with fmul (expand c u) (expand c w))
                      (expand r mx) (expand r my)))
  end.

(** [torch.sum(t, dim=1, keepdim=True)] *)
Definition sum_dim1_keepdim (t : Tensor) : result Tensor :=
  match t with
  | Tensor1 _ => Raise IndexError
  | Tensor2 _ m => Ok (Tensor2 1 (map (fun r => [fsum r]) m))
  end.

Definition map_tensor (f : Elem → Elem) (t : Tensor) : Tensor :=
  match t with
  | Tensor1 v => Tensor1 (map f v)
  | Tensor2 cols m => Tensor2 cols (map (map f) m)
  end.

(** [-torch.log(t)] *)
Definition neg_log (t : Tensor) : Tensor :=
  map_tensor fneg (map_tensor flog t).

(** [torch.sum(t)]: a zero-dimensional tensor, that is one element. *)
Definition sum_all (t : Tensor) : Elem := fsum (flat t).

End Tensors.
End Torch.

(** ** pearl/replay_buffer/transition.py (the fields the learners read) *)

Module Transition.

(** [TransitionBatch], with the types of its state, reward (and weight) and
    action tensors. *)
Record TransitionBatch (S R A : Type) : Type := mkBatch {
  state : S;
  action : A;
  reward : R;
  weight : option R
}.
Arguments mkBatch {S R A}.
Arguments state {S R A}.
Arguments action {S R A}.
Arguments reward {S R A}.
Arguments weight {S R A}.

End Transition.

(** ** pearl/neural_networks/value_networks.py *)

Module ValueNetworks.
Section Vanilla.
(** [Tensor] is the framework's tensor type, [LinearParams] the weight and
    bias of an [nn.Linear]; [linear] applies such a layer (it raises when the
    input does not have the layer's input width) and [relu] is [F.relu] (also
    the forward of [nn.ReLU]). *)
Context {Tensor LinearParams : Type}.
Context (linear : LinearParams → Tensor → result Tensor) (relu : Tensor → Tensor).

(** [hiddens] holds the [nn.Linear] layers of the [nn.Sequential]; each is
    followed by an [nn.ReLU]. *)
Record VanillaValueNetwork : Type := mkVanilla {
  fc1 : LinearParams;
  hiddens : list LinearParams;
  fc2 : LinearParams
}.

(** [self.hiddens(value)] *)
Fixpoint hiddens_forward (layers : list LinearParams) (value : Tensor)
  : result Tensor :=
  match layers with
  | [] => Ok value
  | layer :: layers' =>
      value ← linear layer value;
      hiddens_forward layers' (relu value)
  end.

Definition forward (self : VanillaValueNetwork) (x : Tensor) : result Tensor :=
  value ← linear (fc1 self) x;
  let value := relu value in
  value ← hiddens_forward (hiddens self) value;
  linear (fc2 self) value.

(** [__init__]: [make_linear] is the constructor [nn.Linear(in_features,
    out_features)], which raises on sizes it rejects. *)
Section Init.
Context (make_linear : Z → Z → result LinearParams).

(** [hidden_dims[i]] for [0 <= i < len(hidden_dims)]. *)
Definition hidden_dim_at (hidden_dims : list Z) (i : nat) : result Z :=
  match hidden_dims !! i with
  | Some d => Ok d
  | None => Raise IndexError
  end.

(** [for i in range(len(hidden_dims) - 1)]: a [nn.Linear] (followed by a
    [nn.ReLU]) is appended per iteration. *)
Fixpoint init_hiddens (hidden_dims : list Z) (range : list nat)
    (hiddens : list LinearParams) : result (list LinearParams) :=
  match range with
  | [] => Ok hiddens
  | i :: range' =>
      a ← hidden_dim_at hidden_dims i;
      b ← hidden_dim_at hidden_dims (i + 1);
      layer ← make_linear a b;
      init_hiddens hidden_dims range' (hiddens ++ [layer])
  end.

Definition init (input_dim : Z) (hidden_dims : list Z) (output_dim : Z)
  : result VanillaValueNetwork :=
  first ← hidden_dim_at hidden_dims 0;
  fc1 ← make_linear input_dim first;
  hiddens ← init_hiddens hidden_dims (seq 0 (length hidden_dims - 1)) [];
  (* hidden_dims[-1] *)
  last ← hidden_dim_at hidden_dims (length hidden_dims - 1);
  fc2 ← make_linear last output_dim;
  Ok (mkVanilla fc1 hiddens fc2).

End Init.

End Vanilla.
End ValueNetworks.

(** ** The shape rule of [nn.Linear] *)

Module Shapes.

(** A layer [nn.Linear(in_features, out_features)] described by its two
    sizes, and a tensor described by the size of its last dimension: the layer
    accepts inputs whose last dimension is [in_features] and gives them the
    last dimension [out_features]. *)
Definition linear_width (layer : Z * Z) (width : Z) : result Z :=
  if width =? layer.1 then Ok layer.2 else Raise RuntimeError.

(** [relu] keeps every dimension. *)
Definition relu_width (width : Z) : Z := width.

(** [nn.Linear(in_features, out_features)] as such a description, when the
    constructor accepts the two sizes. *)
Definition make_linear {torch : NN.Constructors} (in_features out_features : Z)
  : result (Z * Z) :=
  _ ← NN.Linear_args in_features out_features;
  Ok (in_features, out_features).

End Shapes.

(** ** core/contextual_bandits/policy_learners/deep_bandit.py *)

Module DeepBandit.
Import Transition.

(** The calls into the tensor framework made by [DeepBandit]. *)
Class Framework (Tensor Elem LinearParams Grads OptState : Type) : Type := {
  linear : LinearParams → Tensor → result Tensor;
  relu : Tensor → Tensor;
  (** [torch.cat([x, y], dim=1)] *)
  cat_dim1 : Tensor → Tensor → result Tensor;
  (** [x.view(y.shape)] *)
  view_as : Tensor → Tensor → result Tensor;
  squeeze : Tensor → Tensor;
  numel : Tensor → Z;
  tensor_shape0 : Tensor → Z;
  (** [torch.nn.MSELoss()(input, target)], and [.item()] of its result *)
  mse_loss : Tensor → Tensor → Elem;
  (** [optimizer.zero_grad()] *)
  zero_grad : Grads → Grads;
  (** [loss.backward()]: the gradient, at the given parameters, of the loss
      as a function of the parameters, accumulated into the gradients. *)
  backward : ∀ {P : Type}, (P → result Elem) → P → Grads → Grads;
  (** [optimizer.step()] of AdamW *)
  optimizer_step : ∀ {P : Type}, OptState → P → Grads → OptState * P
}.

Section DeepBandit.
Context {Tensor Elem LinearParams Grads OptState : Type}.
Context `{!Framework Tensor Elem LinearParams Grads OptState}.
(** The subjective state and action types, and the static action space with
    the attributes [act] reads. *)
Context {SubjectiveState Action : Type}.

Record ActionSpace : Type := mkActionSpace {
  action_dim : Z;
  n : Z;
  cat_state_tensor : SubjectiveState → Tensor
}.

(** The keyword arguments of [ExplorationModule.act]. *)
Record ActArgs (St Rep : Type) : Type := mkActArgs {
  arg_subjective_state : St;
  arg_action_space : ActionSpace;
  arg_values : Tensor;
  arg_representation : option Rep
}.
Arguments mkActArgs {St Rep}.

(** [self._deep_represent_layers], [self._optimizer] with the gradients it
    accumulates, and the [act] method of [self._exploration_module];
    [optimizer_steps] counts the calls of [optimizer.step()] made on this
    learner. *)
Record DeepBandit : Type := mkDeepBandit {
  _deep_represent_layers : @ValueNetworks.VanillaValueNetwork LinearParams;
  _optimizer : OptState;
  _grads : Grads;
  _exploration_module : ActArgs SubjectiveState unit → Action;
  optimizer_steps : nat
}.

(** [self._deep_represent_layers(x)] with the given parameters. *)
Definition value_network (params : @ValueNetworks.VanillaValueNetwork LinearParams)
    (x : Tensor) : result Tensor :=
  ValueNetworks.forward linear relu params x.

(** The forward pass and the loss, as a function of the network
    parameters. *)
Definition loss_of (batch : TransitionBatch Tensor Tensor Tensor)
    (params : @ValueNetworks.VanillaValueNetwork LinearParams) : result Elem :=
  input_features ← cat_dim1 (state batch) (action batch);
  current_values ← value_network params input_features;
  let expected_values := reward batch in
  reshaped ← view_as current_values expected_values;
  Ok (mse_loss reshaped expected_values).

Definition learn_batch (self : DeepBandit) (batch : TransitionBatch Tensor Tensor Tensor)
  : result (DeepBandit * gmap string Elem) :=
  let params := _deep_represent_layers self in
  loss ← loss_of batch params;
  let grads := zero_grad (_grads self) in
  let grads := backward (loss_of batch) params grads in
  let '(opt, params') := optimizer_step (_optimizer self) params grads in
  Ok ({| _deep_represent_layers := params';
         _optimizer := opt;
         _grads := grads;
         _exploration_module := _exploration_module self;
         optimizer_steps := S (optimizer_steps self) |},
      {[ "loss"%string := loss ]}).

Definition act (self : DeepBandit) (subjective_state : SubjectiveState)
    (action_space : ActionSpace) (exploit : bool) : result Action :=
  _ ← py_assert (0 <? action_dim action_space);
  let action_count := n action_space in
  let new_feature := cat_state_tensor action_space subjective_state in
  values ← value_network (_deep_represent_layers self) new_feature;
  let values := squeeze values in
  _ ← py_assert (numel values =? tensor_shape0 new_feature * action_count);
  Ok (_exploration_module self
        (mkActArgs subjective_state action_space values None)).

End DeepBandit.
Arguments mkActArgs {Tensor SubjectiveState St Rep}.
End DeepBandit.

(** ** core/contextual_bandits/policy_learners/disjoint_linear_bandit.py *)

Module DisjointLinearBandit.
Import Transition.

Section DisjointLinearBandit.
(** [Elem] is the tensor element type and [one] the element [1.0];
    [State] holds the coefficients of one [LinearRegression], a module of
    which [lr_learn_batch] is the [learn_batch] method. *)
Context {Elem State : Type} (one : Elem).
Context (lr_learn_batch : @Utils.Model Elem State → list (list Elem) → list Elem →
                          list Elem → @Utils.Model Elem State).
Context {SubjectiveState Action ActionSpace PyObj : Type}.

(** [DiscreteActionSpace], by the two methods the bandit calls: indexing
    ([space[action_idx]], the feature vector of an action) and
    [cat_state_tensor], which yields a tensor of shape
    (batch_size, action_count, feature_size). *)
Record DiscreteActionSpace : Type := mkDiscreteActionSpace {
  getitem : nat → result (list Elem);
  cat_state_tensor : SubjectiveState → @Utils.Tensor3 Elem
}.

(** The keyword arguments of [ExplorationModule.act]. *)
Record ActArgs : Type := mkActArgs {
  arg_subjective_state : @Utils.Tensor3 Elem;
  arg_action_space : ActionSpace;
  arg_values : list (list Elem);
  arg_representation : list (@Utils.Model Elem State)
}.

Record DisjointLinearBandit : Type := mkDisjointLinearBandit {
  _linear_regressions : list (@Utils.Model Elem State);
  _discrete_action_space : DiscreteActionSpace;
  _exploration_module : ActArgs → Action
}.

(** [torch.nonzero(mask, as_tuple=True)[0]]: the positions of the true
    entries, counted from [i]. *)
Fixpoint nonzero_from (i : nat) (mask : list bool) : list nat :=
  match mask with
  | [] => []
  | b :: mask' => (if b then [i] else []) ++ nonzero_from (S i) mask'
  end.

Definition nonzero (mask : list bool) : list nat := nonzero_from 0 mask.

(** [torch.index_select(t, dim=0, index=index)] *)
Fixpoint index_select {A : Type} (t : list A) (index : list nat) : result (list A) :=
  match index with
  | [] => Ok []
  | i :: index' =>
      match t !! i with
      | Some x => rest ← index_select t index'; Ok (x :: rest)
      | None => Raise IndexError
      end
  end.

(** The body of the loop for one [(action_idx, linear_regression)]. *)
Definition learn_action (space : DiscreteActionSpace)
    (batch : TransitionBatch (list (list Elem)) (list Elem) (list Z))
    (action_idx : nat) (linear_regression : @Utils.Model Elem State)
  : result (@Utils.Model Elem State) :=
  let index := nonzero (map (fun a => a =? Z.of_nat action_idx) (action batch)) in
  if (length index =? 0)%nat then Ok linear_regression
  else
    state ← index_select (state batch) index;
    action_vector ← getitem space action_idx;
    let expanded_action := replicate (length state) action_vector in
    let context := zip_with app state expanded_action in
    reward ← index_select (reward batch) index;
    weight ← match weight batch with
             | Some w => index_select w index
             | None => Ok (replicate (length reward) one)
             end;
    Ok (lr_learn_batch linear_regression context reward weight).

(** [for action_idx, linear_regression in enumerate(...)], from [action_idx]
    on. *)
Fixpoint learn_loop (space : DiscreteActionSpace)
    (batch : TransitionBatch (list (list Elem)) (list Elem) (list Z))
    (action_idx : nat) (regressions : list (@Utils.Model Elem State))
  : result (list (@Utils.Model Elem State)) :=
  match regressions with
  | [] => Ok []
  | linear_regression :: rest =>
      updated ← learn_action space batch action_idx linear_regression;
      rest' ← learn_loop space batch (S action_idx) rest;
      Ok (updated :: rest')
  end.

Definition learn_batch (self : DisjointLinearBandit)
    (batch : TransitionBatch (list (list Elem)) (list Elem) (list Z))
  : result (DisjointLinearBandit * gmap string PyObj) :=
  regressions ← learn_loop (_discrete_action_space self) batch 0
                  (_linear_regressions self);
  Ok ({| _linear_regressions := regressions;
         _discrete_action_space := _discrete_action_space self;
         _exploration_module := _exploration_module self |},
      ∅).

Definition act (self : DisjointLinearBandit) (subjective_state : SubjectiveState)
    (action_space : ActionSpace) (_exploit : bool) : result Action :=
  let feature := cat_state_tensor (_discrete_action_space self) subjective_state in
  values ← Utils.ensemble_forward (_linear_regressions self) feature;
  Ok (_exploration_module self
        {| arg_subjective_state := feature;
           arg_action_space := action_space;
           arg_values := values;
           arg_representation := _linear_regressions self |}).

(** The spec's words: the rows of the batch whose action index is [i]. *)
Definition rows_of_action {A : Type} (i : nat) (actions : list Z) (rows : list A)
  : list A :=
  (filter (fun p => p.1 = Z.of_nat i) (zip actions rows)).*2.

(** The spec's words: the selected states, each followed by the feature
    vector of the action. *)
Definition context_of_action (i : nat) (action_vector : list Elem)
    (batch : TransitionBatch (list (list Elem)) (list Elem) (list Z))
  : list (list Elem) :=
  map (fun s => s ++ action_vector) (rows_of_action i (action batch) (state batch)).

(** The spec's words: the selected weights, or ones in the shape of the
    selected rewards. *)
Definition weight_of_action (i : nat)
    (batch : TransitionBatch (list (list Elem)) (list Elem) (list Z))
  : list Elem :=
  match weight batch with
  | Some w => rows_of_action i (action batch) w
  | None => replicate (length (rows_of_action i (action batch) (reward batch))) one
  end.

(** What the loop leaves in place of regression [i]: the regression trained
    on the rows of action [i] when there are any, the regression itself
    otherwise. *)
Definition updated_regression (space : DiscreteActionSpace)
    (batch : TransitionBatch (list (list Elem)) (list Elem) (list Z)) (i : nat)
    (r : @Utils.Model Elem State) : @Utils.Model Elem State :=
  match getitem space i with
  | Ok action_vector =>
      if decide (Z.of_nat i ∈ action batch) then
        lr_learn_batch r
          (context_of_action i action_vector batch)
          (rows_of_action i (action batch) (reward batch))
          (weight_of_action i batch)
      else r
  | Raise _ => r
  end.

(** The action space has a feature vector for each of the first [count]
    actions. *)
Definition indexable (space : DiscreteActionSpace) (count : nat) : Prop :=
  ∀ i, (i < count)%nat → ∃ action_vector, getitem space i = Ok action_vector.

(** A batch whose tensors all have one row per transition. *)
Definition batch_rows_agree
    (batch : TransitionBatch (list (list Elem)) (list Elem) (list Z)) : Prop :=
  length (state batch) = length (action batch) ∧
  length (reward batch) = length (action batch) ∧
  match weight batch with
  | Some w => length w = length (action batch)
  | None => True
  end.

(** The rows of the transitions whose action index is that of one of
    [count] regressions. *)
Definition rows_in_range {A : Type} (count : nat) (actions : list Z) (rows : list A)
  : list A :=
  (filter (fun p => 0 ≤ p.1 < Z.of_nat count) (zip actions rows)).*2.

(** The batch without the transitions whose action index is that of no
    regression. *)
Definition restrict_batch (count : nat)
    (batch : TransitionBatch (list (list Elem)) (list Elem) (list Z))
  : TransitionBatch (list (list Elem)) (list Elem) (list Z) :=
  mkBatch (rows_in_range count (action batch) (state batch))
          (filter (fun a => 0 ≤ a < Z.of_nat count) (action batch))
          (rows_in_range count (action batch) (reward batch))
          (rows_in_range count (action batch) <$> weight batch).

End DisjointLinearBandit.
End DisjointLinearBandit.

(** ** pearl/policy_learners/policy_gradient.py *)

Module PolicyGradient.
Import Transition Torch.

Section PolicyGradient.
Context {Elem : Type} `{!FloatOps Elem}.
(** The actor network with its parameters, and the optimiser (AdamW) with
    the gradients it reads: [backward] accumulates the gradient, at the given
    parameters, of the loss as a function of the parameters. *)
Context {ActorParams Grads OptState : Type}.
Context (actor_forward : ActorParams → @Tensor Elem → result (@Tensor Elem)).
Context (zero_grad : Grads → Grads)
  (backward : (ActorParams → result Elem) → ActorParams → Grads → Grads)
  (optimizer_step : OptState → ActorParams → Grads → OptState * ActorParams).

(** [self.loss] is unset until the first call of [learn_batch]. *)
Record PolicyGradient : Type := mkPolicyGradient {
  _actor : ActorParams;
  _optimizer : OptState;
  _grads : Grads;
  loss : option Elem;
  optimizer_steps : nat
}.

(** The forward pass and the loss, as a function of the actor parameters. *)
Definition loss_of (batch : TransitionBatch (@Tensor Elem) (@Tensor Elem) (@Tensor Elem))
    (params : ActorParams) : result Elem :=
  let state_batch := state batch in
  let action_batch := action batch in
  let return_batch := reward batch in
  action_probs ← actor_forward params state_batch;
  weighted_probs ← mul action_probs action_batch;
  policy_propensities ← sum_dim1_keepdim weighted_probs;
  let negative_log_probs := neg_log policy_propensities in
  weighted ← mul negative_log_probs return_batch;
  Ok (sum_all weighted).

Definition learn_batch (self : PolicyGradient)
    (batch : TransitionBatch (@Tensor Elem) (@Tensor Elem) (@Tensor Elem))
  : result (PolicyGradient * gmap string Elem) :=
  let state_batch := state batch in
  let action_batch := action batch in
  let return_batch := reward batch in
  let batch_size := shape0 state_batch in
  _ ← py_assert (shape0 action_batch =? batch_size)%nat;
  _ ← py_assert (shape0 return_batch =? batch_size)%nat;
  loss ← loss_of batch (_actor self);
  let grads := zero_grad (_grads self) in
  let grads := backward (loss_of batch) (_actor self) grads in
  let '(opt, params') := optimizer_step (_optimizer self) (_actor self) grads in
  Ok ({| _actor := params';
         _optimizer := opt;
         _grads := grads;
         loss := Some loss;
         optimizer_steps := S (optimizer_steps self) |},
      (* the mean of a zero-dimensional tensor is its one element *)
      {[ "loss"%string := loss ]}).

(** -log(sum over actions of probability * one_hot), transition by
    transition. *)
Definition negative_log_propensities (action_probs action_one_hot : list (list Elem))
  : list Elem :=
  zip_with (fun p a => fneg (flog (fsum (zip_with fmul p a))))
           action_probs action_one_hot.

(** The spec's words: the sum over the batch of -log(sum over actions of
    actor_probability * action_one_hot) multiplied elementwise by the
    returns. *)
Definition reinforce_loss (action_probs action_one_hot : list (list Elem))
    (returns : list Elem) : Elem :=
  fsum (zip_with fmul
          (zip_with (fun p a => fneg (flog (fsum (zip_with fmul p a))))
                    action_probs action_one_hot)
          returns).

End PolicyGradient.
End PolicyGradient.

(** ** Sample objects on which the statements below are exercised *)

Module Samples.
Import Environments ReplayBuffers.

(** Constructor checks in the manner of torch: a negative size is rejected
    with a [RuntimeError] (the parameters cannot be allocated), every other
    size is accepted. *)
Definition rejects_negative (sizes : list Z) : result unit :=
  if forallb (fun n => 0 <=? n) sizes then Ok tt else Raise RuntimeError.

Definition torch_constructors : NN.Constructors :=
  {| NN.Linear_args := fun a b => rejects_negative [a; b];
     NN.LayerNorm_args := fun n => rejects_negative [n];
     NN.BatchNorm1d_args := fun n => rejects_negative [n];
     NN.Conv2d_args := fun i o k _ _ => rejects_negative [i; o; k];
     NN.BatchNorm2d_args := fun n => rejects_negative [n] |}.

(** Dropout ratios as rationals: [ratio_pos p] is [p > 0], and
    [nn.Dropout(p)] raises a [ValueError] unless [0 <= p <= 1]. *)
Definition ratio (num : Z) (den : positive) : QArith_base.Q :=
  QArith_base.Qmake num den.

Definition ratio_pos (p : QArith_base.Q) : bool :=
  negb (QArith_base.Qle_bool p (ratio 0 1)).

Definition dropout_args (p : QArith_base.Q) : result unit :=
  if QArith_base.Qle_bool (ratio 0 1) p && QArith_base.Qle_bool p (ratio 1 1)
  then Ok tt else Raise ValueError.

(** A base environment with a [Discrete(size)] observation space: the
    position advances by one, modulo [size], at every step. *)
Record Cycle : Type := mkCycle {
  position : Z;
  size : Z
}.

#[global] Instance Cycle_Environment
  : Environment Cycle unit Z (gmap string Z) (DiscreteActionSpace bool) :=
  {| env_step := fun e _ =>
       let e' := mkCycle ((position e + 1) mod size e) (size e) in
       Ok (e', {| observation := ObsInt (position e');
                  reward := 1;
                  terminated := false;
                  truncated := false;
                  info := ∅ |});
     env_reset := fun e =>
       Ok (mkCycle 0 (size e), (ObsInt 0, mkDiscreteActionSpace [true; false]));
     env_action_space := fun _ => mkDiscreteActionSpace [true; false];
     env_observation_space_n := size |}.

(** The one-hot adapter around a cycle of three positions. *)
Definition one_hot_adapter (position : Z)
  : @BoxObservationsEnvironmentBase.BoxObservationsEnvironmentBase Cycle :=
  BoxObservationsEnvironmentBase.mkAdapter
    BoxObservationsEnvironmentBase.OneHotObservationsFromDiscrete
    (mkCycle position 3).

(** The one-hot adapter around a base environment that declares an empty
    observation space and still reports a position. *)
Definition broken_adapter
  : @BoxObservationsEnvironmentBase.BoxObservationsEnvironmentBase Cycle :=
  BoxObservationsEnvironmentBase.mkAdapter
    BoxObservationsEnvironmentBase.OneHotObservationsFromDiscrete
    (mkCycle 0 0).

(** A regressor with one parameter: the score of a feature row is the
    parameter plus the sum of the row. *)
Definition sum_model (offset : Z) : @Utils.Model Z Z :=
  Utils.mkModel (fun st x => map (fun r => st + foldr Z.add 0 r) x) offset.

(** A module with two outputs per feature row. *)
Definition two_output_model (offset : Z) : @Utils.Model Z Z :=
  Utils.mkModel (fun st x => flat_map (fun r => [st + foldr Z.add 0 r; st]) x) offset.

(** A module that mixes the rows of a batch: every row is scored by its
    sum minus the sum of the first row of the batch. *)
Definition centering_model (offset : Z) : @Utils.Model Z Z :=
  Utils.mkModel
    (fun st x => map (fun r => foldr Z.add 0 r - foldr Z.add 0 (hd [] x)) x)
    offset.

(** Features of shape (2, 3, 2). *)
Definition sample_features : @Utils.Tensor3 Z :=
  Utils.mkTensor3 2 3 2
    [[[1; 2]; [3; 4]; [5; 6]]; [[7; 8]; [9; 10]; [11; 12]]].

(** A stand-in for [LinearRegression.learn_batch]: the parameter grows by
    the weighted sum of the targets and by the number of context entries. *)
Definition sample_learn (m : @Utils.Model Z Z) (x : list (list Z)) (y w : list Z)
  : @Utils.Model Z Z :=
  Utils.mkModel (Utils.forward m)
    (Utils.state m + foldr Z.add 0 (zip_with Z.mul y w)
     + Z.of_nat (length (concat x))).

(** Three actions with one-hot feature vectors. *)
Definition sample_space : @DisjointLinearBandit.DiscreteActionSpace Z unit :=
  DisjointLinearBandit.mkDiscreteActionSpace
    (fun i => match [[1; 0; 0]; [0; 1; 0]; [0; 0; 1]] !! i with
              | Some a => Ok a
              | None => Raise IndexError
              end)
    (fun _ => sample_features).

(** A disjoint linear bandit over [sample_space]; its exploration module
    answers with the values it was given. *)
Definition sample_bandit
  : @DisjointLinearBandit.DisjointLinearBandit Z Z unit (list (list Z)) unit :=
  DisjointLinearBandit.mkDisjointLinearBandit
    (map sum_model [100; 200; 300]) sample_space
    (fun args => DisjointLinearBandit.arg_values args).

(** Three transitions: actions 0, 2 and 0. *)
Definition sample_batch
  : Transition.TransitionBatch (list (list Z)) (list Z) (list Z) :=
  Transition.mkBatch [[1; 2]; [3; 4]; [5; 6]] [0; 2; 0] [10; 20; 30] None.

(** A toy tensor framework over integer matrices, for [DeepBandit]: a
    linear layer scales the sum of each row, the loss is the sum of the
    squared differences, the gradients count the backward passes and the
    optimiser counts its steps. *)
#[global] Instance Z_Framework
  : DeepBandit.Framework (list (list Z)) Z Z nat nat :=
  {| DeepBandit.linear := fun w x => Ok (map (fun r => [w * foldr Z.add 0 r]) x);
     DeepBandit.relu := map (map (Z.max 0));
     DeepBandit.cat_dim1 := fun x y =>
       if (length x =? length y)%nat then Ok (zip_with app x y)
       else Raise RuntimeError;
     DeepBandit.view_as := fun x y =>
       if (length (concat x) =? length (concat y))%nat
       then Ok (map (fun e => [e]) (concat x))
       else Raise RuntimeError;
     DeepBandit.squeeze := fun x => x;
     DeepBandit.numel := fun x => Z.of_nat (length (concat x));
     DeepBandit.tensor_shape0 := fun x => Z.of_nat (length x);
     DeepBandit.mse_loss := fun x y =>
       foldr Z.add 0 (zip_with (fun a b => (a - b) * (a - b)) (concat x) (concat y));
     DeepBandit.zero_grad := fun _ => 0%nat;
     DeepBandit.backward := fun _ _ _ g => S g;
     DeepBandit.optimizer_step := fun _ opt p _ => (S opt, p) |}.

(** A deep bandit with one hidden layer; its exploration module answers
    with the values it was given. *)
Definition sample_deep_bandit
  : @DeepBandit.DeepBandit (list (list Z)) Z nat nat unit (list (list Z)) :=
  DeepBandit.mkDeepBandit
    (ValueNetworks.mkVanilla 1 [2] 3) 0%nat 5%nat
    (fun args => DeepBandit.arg_values _ _ args) 0%nat.

(** Two transitions with two state features and one action feature. *)
Definition sample_deep_batch
  : Transition.TransitionBatch (list (list Z)) (list (list Z)) (list (list Z)) :=
  Transition.mkBatch [[1; 2]; [3; 4]] [[1]; [0]] [[20]; [40]] None.

(** One action of dimension one; the features of a batch of two states. *)
Definition sample_action_space : @DeepBandit.ActionSpace (list (list Z)) unit :=
  DeepBandit.mkActionSpace 1 1 (fun _ => [[1; 2; 1]; [3; 4; 1]]).

(** Real arithmetic standing for the float arithmetic of the framework. *)
#[global] Instance R_FloatOps : Torch.FloatOps R :=
  {| Torch.fmul := Rmult;
     Torch.fneg := Ropp;
     Torch.flog := ln;
     Torch.fsum := foldr Rplus 0%R |}.

(** An actor that gives every state the probabilities (1/e, 1 - 1/e). *)
Definition sample_actor (params : unit) (x : @Torch.Tensor R)
  : result (@Torch.Tensor R) :=
  Ok (Torch.Tensor2 2 (replicate (Torch.shape0 x) [exp (-1); 1 - exp (-1)]%R)).

Definition sample_policy_gradient : @PolicyGradient.PolicyGradient R unit nat nat :=
  PolicyGradient.mkPolicyGradient tt 0%nat 0%nat None 0%nat.

(** Two transitions, both with the first action; the returns 1 and 2 form a
    tensor of shape (2,), as [learn_batch] documents them. *)
Definition sample_return_batch
  : Transition.TransitionBatch (@Torch.Tensor R) (@Torch.Tensor R) (@Torch.Tensor R) :=
  Transition.mkBatch
    (Torch.Tensor2 1 [[0]; [0]]%R)
    (Torch.Tensor2 2 [[1; 0]; [1; 0]]%R)
    (Torch.Tensor1 [1; 2]%R)
    None.

(** Two networks with parameters [w] and [b] over the integers. *)
Definition sample_store : gmap nat (gmap string Z) :=
  {[ 0%nat := {[ "w"%string := 10; "b"%string := 2 ]};
     1%nat := {[ "w"%string := 20; "b"%string := 4 ]} ]}.

(** A replay buffer that is a list of stored transitions. *)
#[global] Instance list_ReplayBuffer {T : Type} : ReplayBuffer (list T) :=
  {| __len__ := fun self => Z.of_nat (length self) |}.

End Samples.

(** * Properties *)

(** ** pearl/utils/environments.py *)

Module EnvironmentsSpec.
Import Environments.

Section FixedNumberOfSteps.
Import FixedNumberOfStepsEnvironment.
Context {PyObj : Type}.

Lemma steps_so_far_after {N A : Type} (k : nat)
    (self : FixedNumberOfStepsEnvironment N) (action : A) :
  number_of_steps_so_far (steps (PyObj:=PyObj) k self action)
  = number_of_steps_so_far self + Z.of_nat k.
Proof.
  revert self. induction k as [|k IH]; intros self; simpl.
  - lia.
  - rewrite IH. simpl. lia.
Qed.

(** C10. [step] adds exactly one to [number_of_steps_so_far]; the result's
    observation and reward are the new counter and both [terminated] and
    [truncated] are [True], whatever [number_of_steps] was configured; and
    [step], [reset] and [render] do not read [number_of_steps]: configuring
    any other value leaves what they return, print and store the same. *)
Theorem fixed_step_counts_and_always_ends {N A : Type}
    (self : FixedNumberOfStepsEnvironment N) (action : A) :
  let self' := (step (PyObj:=PyObj) self action).1 in
  let r := (step (PyObj:=PyObj) self action).2 in
  number_of_steps_so_far self' = number_of_steps_so_far self + 1 ∧
  observation r = number_of_steps_so_far self' ∧
  reward r = number_of_steps_so_far self' ∧
  terminated r = true ∧
  truncated r = true ∧
  number_of_steps self' = number_of_steps self ∧
  (∀ (N' : Type) (n' : N'),
      step (PyObj:=PyObj) (configured_with n' self) action
      = (configured_with n' self', r) ∧
      reset (configured_with n' self) = reset self ∧
      ∀ stdout, render (configured_with n' self) stdout = render self stdout).
Proof.
  destruct self as [so_far n space].
  cbn -[Z.add].
  repeat split; reflexivity.
Qed.

End FixedNumberOfSteps.

Section BoxObservations.
Import BoxObservationsEnvironmentBase.
Context {F : Type} (float_of_Z : Z → F).
Context {E Act R I AS : Type} `{!Environment E Act R I AS}.

Lemma one_hot_in_range (value num_classes : Z) :
  0 <= value < num_classes →
  ∃ hot, one_hot value num_classes = Ok hot ∧ length hot = Z.to_nat num_classes.
Proof.
  intros [Hlo Hhi]. unfold one_hot.
  destruct (value <? 0) eqn:E1; [lia|].
  destruct (num_classes =? -1) eqn:E2; [lia|].
  destruct (num_classes <=? 0) eqn:E3; [lia|].
  destruct (num_classes <=? value) eqn:E4; [lia|].
  eexists. split; [reflexivity|].
  by rewrite length_map, length_seq.
Qed.

Lemma compute_tensor_observation_convertible
    (self : @BoxObservationsEnvironmentBase E) (o : Observation) :
  convertible self o →
  ∃ tensor, compute_tensor_observation float_of_Z self o = Ok tensor.
Proof.
  unfold convertible, compute_tensor_observation.
  destruct (adapter_class self); intros Hc.
  - eauto.
  - assert (obs_value o = match o with ObsTensor z | ObsInt z => z end) as <-
      by (by destruct o).
    destruct (one_hot_in_range _ _ Hc) as (hot & -> & _). simpl. eauto.
Qed.

(** C7. When the base environment's [step] returns, the adapter's [step]
    returns the same action result with the observation replaced by its
    tensor conversion: reward, terminated, truncated and info are the base
    environment's.  [reset] converts the observation and hands on the base
    environment's action space.  (The observation must be one the adapter
    converts: any for the box adapter, a member of the base's discrete space
    for the one-hot adapter.) *)
Theorem adapter_replaces_only_observation
    (self : @BoxObservationsEnvironmentBase E) :
  (∀ (action : Act) base ar,
      env_step (base_environment self) action = Ok (base, ar) →
      convertible (mkAdapter (adapter_class self) base) (observation ar) →
      ∃ tensor,
        compute_tensor_observation float_of_Z
          (mkAdapter (adapter_class self) base) (observation ar) = Ok tensor ∧
        step float_of_Z self action
        = Ok (mkAdapter (adapter_class self) base,
              {| observation := tensor;
                 reward := reward ar;
                 terminated := terminated ar;
                 truncated := truncated ar;
                 info := info ar |})) ∧
  (∀ base obs (action_space : AS),
      env_reset (base_environment self) = Ok (base, (obs, action_space)) →
      convertible (mkAdapter (adapter_class self) base) obs →
      ∃ tensor,
        compute_tensor_observation float_of_Z
          (mkAdapter (adapter_class self) base) obs = Ok tensor ∧
        reset float_of_Z self
        = Ok (mkAdapter (adapter_class self) base, (tensor, action_space))).
Proof.
  split.
  - intros action base ar Hstep Hconv.
    destruct (compute_tensor_observation_convertible _ _ Hconv) as [tensor Ht].
    exists tensor. split; [exact Ht|].
    unfold step. rewrite Hstep. simpl. rewrite Ht. reflexivity.
  - intros base obs action_space Hreset Hconv.
    destruct (compute_tensor_observation_convertible _ _ Hconv) as [tensor Ht].
    exists tensor. split; [exact Ht|].
    unfold reset. rewrite Hreset. simpl. rewrite Ht. reflexivity.
Qed.

End BoxObservations.

(** The one-hot adapter over a cycle of three positions: one step from
    position 0 yields the one-hot vector of position 1 and the base's
    reward and flags; [reset] yields the one-hot vector of position 0. *)
Lemma adapter_replaces_only_observation_witness :
  BoxObservationsEnvironmentBase.step (fun z => z)
    (Samples.one_hot_adapter 0) tt
  = Ok (Samples.one_hot_adapter 1,
        {| observation := [0; 1; 0]; reward := 1; terminated := false;
           truncated := false; info := (∅ : gmap string Z) |}) ∧
  BoxObservationsEnvironmentBase.reset (fun z => z)
    (Samples.one_hot_adapter 2)
  = Ok (Samples.one_hot_adapter 0,
        ([1; 0; 0], mkDiscreteActionSpace [true; false])).
Proof.
  pose proof (adapter_replaces_only_observation (fun z : Z => z)
    (Samples.one_hot_adapter 0)) as [Hs _].
  pose proof (adapter_replaces_only_observation (fun z : Z => z)
    (Samples.one_hot_adapter 2)) as [_ Hr].
  split.
  - destruct (Hs tt (Samples.mkCycle 1 3)
                {| observation := ObsInt 1; reward := 1; terminated := false;
                   truncated := false; info := (∅ : gmap string Z) |})
      as (tensor & Ht & Hstep).
    + reflexivity.
    + simpl. unfold BoxObservationsEnvironmentBase.convertible. simpl. lia.
    + rewrite Hstep. vm_compute in Ht. by inversion Ht.
  - destruct (Hr (Samples.mkCycle 0 3) (ObsInt 0) (mkDiscreteActionSpace [true; false]))
      as (tensor & Ht & Hreset).
    + reflexivity.
    + unfold BoxObservationsEnvironmentBase.convertible. simpl. lia.
    + rewrite Hreset. vm_compute in Ht. by inversion Ht.
Defined.

End EnvironmentsSpec.

(** ** replay_buffers/replay_buffer.py *)

Module ReplayBuffersSpec.
Import ReplayBuffers.

Lemma len_of_length {B : Type} `{!ReplayBuffer B} (self : B) :
  is_length (__len__ self) → len self = Ok (__len__ self).
Proof.
  intros [Hlo Hhi]. unfold len.
  destruct (__len__ self <? 0) eqn:E1; [lia|].
  destruct (maxsize <? __len__ self) eqn:E2; [lia|].
  reflexivity.
Qed.

Lemma len_raises_otherwise {B : Type} `{!ReplayBuffer B} (self : B) :
  ¬ is_length (__len__ self) → raises (empty self).
Proof.
  intros Hn. unfold empty, len, is_length in *.
  destruct (__len__ self <? 0) eqn:E1; [exact I|].
  destruct (maxsize <? __len__ self) eqn:E2; [exact I|].
  exfalso. apply Hn. lia.
Qed.

(** C9. For a buffer whose [__len__] returns a length, [empty] returns a
    boolean (not [None], whatever its annotation says), and that boolean is
    [True] exactly when [__len__] returns 0. *)
Theorem empty_returns_whether_len_is_zero {B : Type} `{!ReplayBuffer B} (self : B) :
  is_length (__len__ self) →
  ∃ b : bool, empty self = Ok (PyBool b) ∧ (b = true ↔ __len__ self = 0).
Proof.
  intros Hlen. exists (__len__ self =? 0). split.
  - unfold empty. rewrite (len_of_length self Hlen). reflexivity.
  - apply Z.eqb_eq.
Qed.

Lemma empty_returns_whether_len_is_zero_witness :
  is_length (__len__ ([] : list nat)) ∧ is_length (__len__ [7%nat; 8%nat]) ∧
  (∃ b : bool, empty ([] : list nat) = Ok (PyBool b) ∧
               (b = true ↔ __len__ ([] : list nat) = 0)) ∧
  (∃ b : bool, empty [7%nat; 8%nat] = Ok (PyBool b) ∧
               (b = true ↔ __len__ [7%nat; 8%nat] = 0)).
Proof.
  assert (is_length (__len__ ([] : list nat))) as H0 by (by vm_compute).
  assert (is_length (__len__ [7%nat; 8%nat])) as H2 by (by vm_compute).
  split; [exact H0|]. split; [exact H2|]. split.
  - exact (empty_returns_whether_len_is_zero ([] : list nat) H0).
  - exact (empty_returns_whether_len_is_zero [7%nat; 8%nat] H2).
Defined.

End ReplayBuffersSpec.

(** ** neural_networks/common/utils.py: mlp_block *)

Module MlpBlockSpec.
Import NN Utils.

Section MlpBlock.
Context {Float : Type} (float_pos : Float → bool).
Context {torch : Constructors} (Dropout_args : Float → result unit).
Variables (use_batch_norm use_layer_norm : bool) (hidden_activation : string)
  (dropout_ratio : Float).

Abbreviation hidden_loop' skip :=
  (hidden_loop float_pos Dropout_args use_batch_norm use_layer_norm
     hidden_activation dropout_ratio skip).
Abbreviation hidden_layer' skip :=
  (hidden_layer float_pos Dropout_args use_batch_norm use_layer_norm
     hidden_activation dropout_ratio skip).
Abbreviation single_layers' :=
  (single_layers float_pos Dropout_args use_batch_norm use_layer_norm
     hidden_activation dropout_ratio).
Abbreviation mlp_block' skip :=
  (mlp_block float_pos Dropout_args use_batch_norm use_layer_norm
     hidden_activation dropout_ratio skip).
Abbreviation layer_accepted' :=
  (layer_accepted float_pos Dropout_args use_batch_norm use_layer_norm
     dropout_ratio).
Abbreviation constructors_accept' :=
  (constructors_accept float_pos Dropout_args use_batch_norm use_layer_norm
     dropout_ratio).
Abbreviation built_layers' :=
  (built_layers float_pos use_batch_norm use_layer_norm dropout_ratio).

(** [dims[-2]] and [dims[-1]] of [[input_dim] + hidden_dims + [output_dim]]. *)
Lemma dims_last_two (input_dim output_dim : Z) (hidden_dims : list Z) :
  let dims := [input_dim] ++ hidden_dims ++ [output_dim] in
  dims_from_end dims 2 = Ok (List.last hidden_dims input_dim) ∧
  dims_from_end dims 1 = Ok output_dim.
Proof.
  intros dims. subst dims. unfold dims_from_end, dims_at.
  rewrite !length_app. simpl length.
  destruct (Nat.leb_spec 2 (1 + (length hidden_dims + 1))); [|lia].
  destruct (Nat.leb_spec 1 (1 + (length hidden_dims + 1))); [|lia].
  split.
  - destruct hidden_dims as [|h hs] using rev_ind.
    + reflexivity.
    + rewrite List.last_last. rewrite length_app. simpl length.
      replace (1 + (length hs + 1 + 1) - 2)%nat with (S (length hs)) by lia.
      change ([input_dim] ++ (hs ++ [h]) ++ [output_dim])
        with (input_dim :: ((hs ++ [h]) ++ [output_dim])).
      simpl lookup. rewrite <- app_assoc.
      rewrite lookup_app_r by lia. by rewrite Nat.sub_diag.
  - replace (1 + (length hidden_dims + 1) - 1)%nat with (S (length hidden_dims)) by lia.
    change ([input_dim] ++ hidden_dims ++ [output_dim])
      with (input_dim :: (hidden_dims ++ [output_dim])).
    simpl lookup. rewrite lookup_app_r by lia. by rewrite Nat.sub_diag.
Qed.


Lemma hidden_layer_run (skip : bool) (dims : list Z) (layers : list NNModule)
    (i : nat) (a b : Z) (sl : list NNModule) (log : list LogRecord) :
  dims !! i = Some a → dims !! (i + 1)%nat = Some b →
  single_layers' a b = Ok sl →
  hidden_layer' skip dims layers i log
  = (log ++ appended_warning skip a b,
     Ok (layers ++ [appended_layer skip sl a b])).
Proof.
  intros Ha Hb Hsl.
  unfold hidden_layer, lbind, lift, dims_at, appended_layer, appended_warning.
  rewrite Ha, Hb, Hsl.
  destruct skip; [destruct (a =? b)|]; unfold lret, logging_warn; simpl;
    by rewrite ?app_nil_r.
Qed.

(** With a hidden activation of the map and constructors that accept the
    arguments, an iteration assembles its modules. *)
Lemma single_layers_run (a b : Z) (act : Activation) :
  activation_of hidden_activation = Ok act →
  layer_accepted' a b →
  single_layers' a b = Ok (built_layers' act a b).
Proof.
  intros Hact (Hlinear & Hln & Hdropout & Hbn).
  unfold single_layers, built_layers, nn_Linear, nn_LayerNorm, nn_Dropout,
    nn_BatchNorm1d.
  rewrite Hlinear, Hact. cbn [mbind result_bind].
  destruct use_layer_norm; [rewrite Hln by done|];
    destruct (float_pos dropout_ratio); [rewrite Hdropout by done| |
                                         rewrite Hdropout by done|];
    destruct use_batch_norm; try rewrite Hbn by done;
    cbn [mbind result_bind]; by rewrite <- ?app_assoc.
Qed.

(** The loop over a range of valid positions, with a valid hidden
    activation and accepted constructor arguments: it returns, having
    appended one layer per position, and everything it logged is a warning
    for a position of the range whose dimensions differ. *)
Lemma hidden_loop_run (skip : bool) (act : Activation) (dims : list Z)
    (range : list nat) :
  activation_of hidden_activation = Ok act →
  (∀ i, i ∈ range → (i + 1 < length dims)%nat) →
  (∀ i a b, i ∈ range → dims !! i = Some a → dims !! (i + 1)%nat = Some b →
            layer_accepted' a b) →
  ∀ layers log, ∃ new ws,
    hidden_loop' skip dims range layers log = (log ++ ws, Ok (layers ++ new)) ∧
    length new = length range ∧
    ∀ k i a b, range !! k = Some i → dims !! i = Some a →
      dims !! (i + 1)%nat = Some b →
      single_layers' a b = Ok (built_layers' act a b) ∧
      new !! k = Some (appended_layer skip (built_layers' act a b) a b) ∧
      (skip = true → a ≠ b → SkipWarning a b ∈ ws).
Proof.
  intros Hact. induction range as [|i range IH]; intros Hrange Hacc layers log.
  - exists [], []. simpl. unfold lret. rewrite !app_nil_r.
    split; [done|]. split; [done|]. intros k i a b Hk. by rewrite lookup_nil in Hk.
  - assert (i + 1 < length dims)%nat as Hi by (apply Hrange; left).
    destruct (lookup_lt_is_Some_2 dims i) as [a Ha]; [lia|].
    destruct (lookup_lt_is_Some_2 dims (i + 1)) as [b Hb]; [lia|].
    assert (single_layers' a b = Ok (built_layers' act a b)) as Hsl.
    { apply single_layers_run; [done|]. apply (Hacc i); [left|done|done]. }
    destruct (IH (fun j Hj => Hrange j (list_elem_of_further _ _ _ Hj))
                (fun j a' b' Hj => Hacc j a' b' (list_elem_of_further _ _ _ Hj))
                (layers ++ [appended_layer skip (built_layers' act a b) a b])
                (log ++ appended_warning skip a b))
      as (new & ws & Hrun & Hlen & Hnew).
    exists (appended_layer skip (built_layers' act a b) a b :: new),
      (appended_warning skip a b ++ ws).
    split; [|split].
    + simpl. unfold lbind at 1.
      rewrite (hidden_layer_run skip dims layers i a b _ log Ha Hb Hsl).
      rewrite Hrun. by rewrite <- !app_assoc.
    + simpl. by rewrite Hlen.
    + intros [|k] j a' b' Hk Ha' Hb'; simpl in Hk.
      * injection Hk as <-. rewrite Ha in Ha'. rewrite Hb in Hb'.
        injection Ha' as <-. injection Hb' as <-.
        split; [done|]. split; [done|].
        intros -> Hne. apply elem_of_app. left.
        unfold appended_warning. destruct (Z.eqb_spec a b); [done|]. left.
      * destruct (Hnew k j a' b' Hk Ha' Hb') as (Hsl' & Hk' & Hw).
        split; [done|]. split; [done|].
        intros Hs Hne. apply elem_of_app. right. by apply Hw.
Qed.

(** The hidden layers of [mlp_block], for [dims] whose constructor calls
    are accepted. *)
Lemma hidden_layers_run (skip : bool) (act : Activation)
    (input_dim output_dim : Z) (hidden_dims : list Z) (log : list LogRecord) :
  let dims := [input_dim] ++ hidden_dims ++ [output_dim] in
  activation_of hidden_activation = Ok act →
  constructors_accept' dims →
  ∃ new ws,
    hidden_loop' skip dims (seq 0 (length dims - 2)) [] log
    = (log ++ ws, Ok new) ∧
    length new = length hidden_dims ∧
    ∀ i a b, (i < length hidden_dims)%nat → dims !! i = Some a →
      dims !! (i + 1)%nat = Some b →
      single_layers' a b = Ok (built_layers' act a b) ∧
      new !! i = Some (appended_layer skip (built_layers' act a b) a b) ∧
      (skip = true → a ≠ b → SkipWarning a b ∈ ws).
Proof.
  intros dims Hact [Hacc _].
  assert (length dims - 2 = length hidden_dims)%nat as Hlen.
  { subst dims. rewrite !length_app. simpl. lia. }
  destruct (hidden_loop_run skip act dims (seq 0 (length dims - 2)) Hact)
    with (layers := @nil (@NNModule Float)) (log := log)
    as (new & ws & Hrun & Hnewlen & Hnew).
  - intros i Hi. apply list_elem_of_In, in_seq in Hi. lia.
  - intros i a b Hi. apply list_elem_of_In, in_seq in Hi. apply Hacc. lia.
  - exists new, ws. split; [exact Hrun|]. split.
    + by rewrite Hnewlen, length_seq.
    + intros i a b Hi. apply (Hnew i i a b). rewrite Hlen. apply lookup_seq. lia.
Qed.

(** The list [last_layer], for a last activation of the map and an accepted
    last linear layer. *)
Lemma last_layer_defined (last_activation : option string) (d2 d1 : Z) :
  valid_last_activation last_activation →
  Linear_args d2 d1 = Ok tt →
  ∃ last_layer : list (@NNModule Float),
    (linear ← nn_Linear d2 d1;
     match last_activation with
     | Some name => act ← activation_of name; Ok [linear; Act act]
     | None => Ok [linear]
     end) = Ok last_layer ∧
    head last_layer = Some (Linear d2 d1) ∧
    length last_layer = match last_activation with
                        | Some _ => 2%nat
                        | None => 1%nat
                        end.
Proof.
  intros Hlast Hlinear. unfold nn_Linear. rewrite Hlinear.
  cbn [mbind result_bind].
  destruct last_activation as [name|]; simpl; [|eauto].
  destruct Hlast as [act Hact]. unfold activation_of. rewrite Hact. simpl. eauto.
Qed.

(** C8. With [use_skip_connections=True] and at least one hidden layer:
    when the last hidden dimension differs from [output_dim], [mlp_block]
    raises instead of returning a module (when the activation names are
    those of [ACTIVATION_MAP] and the constructors of the framework accept
    the arguments of their calls, so that nothing raises before, the
    exception is the [TypeError] of [raise logging.warn(...)], raised after
    the warning was logged); when the last two dimensions agree, a mismatch
    at an interior layer is only logged, and the network is returned with
    that layer left un-wrapped. *)
Theorem mlp_block_skip_connection_mismatch
    (input_dim : Z) (hidden_dims : list Z) (output_dim : Z)
    (last_activation : option string) (log : list LogRecord) :
  hidden_dims ≠ [] →
  let dims := [input_dim] ++ hidden_dims ++ [output_dim] in
  let run :=
    mlp_block' true input_dim (Some hidden_dims) output_dim last_activation log in
  (List.last hidden_dims input_dim ≠ output_dim →
   raises run.2 ∧
   (is_Some (ACTIVATION_MAP !! hidden_activation) →
    valid_last_activation last_activation →
    constructors_accept' dims →
    run.2 = Raise TypeError ∧
    ∃ earlier,
      run.1 = earlier ++ [SkipWarning (List.last hidden_dims input_dim) output_dim])) ∧
  (List.last hidden_dims input_dim = output_dim →
   is_Some (ACTIVATION_MAP !! hidden_activation) →
   valid_last_activation last_activation →
   constructors_accept' dims →
   ∃ layers,
     run.2 = Ok (Sequential layers) ∧
     ∀ i a b, (i < length hidden_dims)%nat →
       dims !! i = Some a → dims !! (i + 1)%nat = Some b → a ≠ b →
       ∃ sl, single_layers' a b = Ok sl ∧
             layers !! i = Some (Sequential sl) ∧
             SkipWarning a b ∈ run.1).
Proof.
  intros _ dims run. subst dims.
  destruct (dims_last_two input_dim output_dim hidden_dims) as [Hd2 Hd1].
  cbv zeta in Hd2, Hd1.
  split.
  - intros Hne. apply Z.eqb_neq in Hne. split.
    + subst run. unfold mlp_block. unfold lbind at 1.
      destruct (hidden_loop' true _ _ [] log) as [log' [layers|e]]; [|exact I].
      unfold lbind, lift. rewrite Hd2, Hd1.
      destruct (nn_Linear (List.last hidden_dims input_dim) output_dim)
        as [linear|e]; cbn [mbind result_bind]; [|exact I].
      destruct last_activation as [name|]; simpl.
      * destruct (activation_of name); simpl; [|exact I]. by rewrite Hne.
      * by rewrite Hne.
    + intros [act Hact] Hlast Haccept.
      assert (activation_of hidden_activation = Ok act) as Hact'
        by (unfold activation_of; by rewrite Hact).
      destruct (hidden_layers_run true act input_dim output_dim hidden_dims log
                  Hact' Haccept) as (new & ws & Hrun & _ & _).
      destruct (last_layer_defined last_activation
                  (List.last hidden_dims input_dim) output_dim Hlast)
        as (ll & Hll & _); [by apply Haccept|].
      subst run. unfold mlp_block. unfold lbind, lift.
      rewrite Hrun, Hd2, Hd1, Hll, Hne. simpl.
      split; [done|]. by exists (log ++ ws).
  - intros Heq [act Hact] Hlast Haccept.
    assert (activation_of hidden_activation = Ok act) as Hact'
      by (unfold activation_of; by rewrite Hact).
    destruct (hidden_layers_run true act input_dim output_dim hidden_dims log
                Hact' Haccept) as (new & ws & Hrun & Hnewlen & Hnew).
    destruct (last_layer_defined last_activation
                (List.last hidden_dims input_dim) output_dim Hlast)
      as (ll & Hll & _); [by apply Haccept|].
    apply Z.eqb_eq in Heq.
    subst run. unfold mlp_block. unfold lbind, lift.
    rewrite Hrun, Hd2, Hd1, Hll, Heq. simpl.
    eexists. split; [reflexivity|].
    intros i a b Hi Ha Hb Hne.
    destruct (Hnew i a b Hi Ha Hb) as (Hsl & Hlayer & Hw).
    eexists. split; [exact Hsl|]. split.
    + rewrite lookup_app_l by lia.
      rewrite Hlayer. unfold appended_layer.
      by destruct (Z.eqb_spec a b).
    + apply elem_of_app. right. by apply Hw.
Qed.

End MlpBlock.

(** [mlp_block(4, [4, 5, 5], 1, use_skip_connections=True)] raises after two
    warnings, and [mlp_block(4, [4, 5, 5], 5, use_skip_connections=True)]
    returns a network whose second layer is not wrapped. *)
Lemma mlp_block_skip_connection_mismatch_witness :
  (mlp_block (torch:=Samples.torch_constructors) Samples.ratio_pos
     Samples.dropout_args false false "relu" (Samples.ratio 0 1) true
     4 (Some [4; 5; 5]) 1 None []).2 = Raise TypeError ∧
  ∃ layers,
    (mlp_block (torch:=Samples.torch_constructors) Samples.ratio_pos
       Samples.dropout_args false false "relu" (Samples.ratio 0 1) true
       4 (Some [4; 5; 5]) 5 None []).2 = Ok (Sequential layers) ∧
    layers !! 1%nat = Some (Sequential [Linear 4 5; Act ReLU]).
Proof.
  assert (∀ output_dim, 0 <= output_dim →
            constructors_accept (torch:=Samples.torch_constructors)
              Samples.ratio_pos Samples.dropout_args false false
              (Samples.ratio 0 1) ([4] ++ [4; 5; 5] ++ [output_dim])) as Haccept.
  { intros output_dim Hout. split.
    - intros [|[|[|i]]] a b Hi Ha Hb; simpl in Hi; try lia;
        simplify_eq/=; repeat split.
    - intros a b Ha Hb. vm_compute in Ha. injection Ha as <-.
      unfold dims_from_end, dims_at in Hb. simpl in Hb. injection Hb as <-.
      apply Z.leb_le in Hout. cbn. unfold Samples.rejects_negative. cbn.
      by rewrite Hout. }
  split.
  - destruct (mlp_block_skip_connection_mismatch (torch:=Samples.torch_constructors)
                Samples.ratio_pos Samples.dropout_args
                false false "relu" (Samples.ratio 0 1) 4 [4; 5; 5] 1 None [])
      as [Hraise _]; [done|].
    destruct Hraise as [_ Htype]; [done|].
    destruct Htype as [Htype _]; [by eexists|exact I|by apply Haccept|].
    exact Htype.
  - destruct (mlp_block_skip_connection_mismatch (torch:=Samples.torch_constructors)
                Samples.ratio_pos Samples.dropout_args
                false false "relu" (Samples.ratio 0 1) 4 [4; 5; 5] 5 None [])
      as [_ Hret]; [done|].
    destruct Hret as (layers & Hrun & Hlayer);
      [done|by eexists|exact I|by apply Haccept|].
    exists layers. split; [exact Hrun|].
    destruct (Hlayer 1%nat 4 5) as (sl & Hsl & Hl & _);
      [simpl; lia|done|done|done|].
    rewrite Hl. vm_compute in Hsl. by inversion Hsl.
Defined.

End MlpBlockSpec.

(** ** neural_networks/common/utils.py: target-network soft updates *)

Module TargetNetworksSpec.
Import Utils.

Section TargetNetworks.
Context {Tensor Scalar : Type}.
Context (scale : Scalar → Tensor → Tensor) (add : Tensor → Tensor → Tensor)
  (one_minus : Scalar → Scalar).

Abbreviation soft_update' := (soft_update scale add one_minus).
Abbreviation soft_update_key' := (soft_update_key scale add one_minus).
Abbreviation soft_updated_dict' := (soft_updated_dict scale add one_minus).
Abbreviation update_target_network' := (update_target_network scale add one_minus).
Abbreviation update_target_networks' := (update_target_networks scale add one_minus).

(** The loop over the keys of the source dictionary, all of which the target
    dictionary has: every visited key holds the blend of the source value
    with the target's original value, the others hold what they held. *)
Lemma soft_update_loop (tau : Scalar) (target_sd source_sd : gmap string Tensor) :
  dom source_sd ⊆ dom target_sd →
  ∃ new, map_fold (soft_update_key' tau) (Ok target_sd) source_sd = Ok new ∧
    ∀ key, new !! key = match source_sd !! key with
                        | Some sv => soft_update' tau sv <$> target_sd !! key
                        | None => target_sd !! key
                        end.
Proof.
  revert source_sd.
  apply (map_fold_weak_ind
    (fun r (m : gmap string Tensor) => dom m ⊆ dom target_sd →
       ∃ new, r = Ok new ∧
         ∀ key, new !! key = match m !! key with
                             | Some sv => soft_update' tau sv <$> target_sd !! key
                             | None => target_sd !! key
                             end)).
  - intros _. exists target_sd. split; [done|]. intros key. by rewrite lookup_empty.
  - intros key sv m r Hfresh IH Hdom.
    rewrite dom_insert in Hdom.
    destruct IH as (new & -> & Hnew); [set_solver|].
    assert (key ∈ dom target_sd) as Hin by set_solver.
    apply elem_of_dom in Hin as [tv Htv].
    unfold soft_update_key. simpl.
    rewrite Hnew, Hfresh, Htv.
    eexists. split; [reflexivity|].
    intros key'. destruct (decide (key = key')) as [<-|Hne].
    + by rewrite !lookup_insert_eq, Htv.
    + by rewrite !lookup_insert_ne.
Qed.

(** A key of the source that the target lacks stops the loop with a
    [KeyError]. *)
Lemma soft_update_key_missing (tau : Scalar) (key : string) (sv : Tensor)
    (target_sd : gmap string Tensor) :
  target_sd !! key = None →
  soft_update_key' tau key sv (Ok target_sd) = Raise KeyError.
Proof. intros H. unfold soft_update_key. simpl. by rewrite H. Qed.

Lemma soft_update_loop_same_keys (tau : Scalar)
    (target_sd source_sd : gmap string Tensor) :
  dom target_sd = dom source_sd →
  map_fold (soft_update_key' tau) (Ok target_sd) source_sd
  = Ok (soft_updated_dict' tau source_sd target_sd).
Proof.
  intros Hdom.
  destruct (soft_update_loop tau target_sd source_sd) as (new & -> & Hnew);
    [by rewrite Hdom|].
  f_equal. apply map_eq. intros key.
  rewrite Hnew. unfold soft_updated_dict. rewrite map_lookup_zip_with.
  destruct (source_sd !! key) as [sv|] eqn:Hs; simpl.
  - by destruct (target_sd !! key).
  - apply not_elem_of_dom. rewrite Hdom. by apply not_elem_of_dom.
Qed.

Lemma soft_updated_dict_dom (tau : Scalar) (target_sd source_sd : gmap string Tensor) :
  dom target_sd = dom source_sd →
  dom (soft_updated_dict' tau source_sd target_sd) = dom target_sd.
Proof.
  intros Hdom. unfold soft_updated_dict.
  rewrite dom_map_zip_with_L, Hdom. apply intersection_idemp_L.
Qed.

(** One soft update, on the store. *)
Lemma update_target_network_run (store : gmap nat (gmap string Tensor))
    (target_network source_network : nat) (tau : Scalar)
    (target_sd source_sd : gmap string Tensor) :
  store !! target_network = Some target_sd →
  store !! source_network = Some source_sd →
  dom target_sd = dom source_sd →
  update_target_network' store target_network source_network tau
  = Ok (<[target_network := soft_updated_dict' tau source_sd target_sd]> store).
Proof.
  intros Ht Hs Hdom.
  unfold update_target_network, state_dict, load_state_dict, state_dict.
  rewrite Ht, Hs. simpl.
  rewrite (soft_update_loop_same_keys tau target_sd source_sd Hdom). simpl.
  rewrite decide_True by (by apply soft_updated_dict_dom).
  reflexivity.
Qed.

(** The pairwise updates of two lists of networks, no target occurring twice
    or as a source. *)
Lemma update_target_networks_run (tau : Scalar) (targets sources : list nat) :
  ∀ store : gmap nat (gmap string Tensor),
  NoDup targets →
  (∀ t s, t ∈ targets → s ∈ sources → t ≠ s) →
  (∀ i t s, targets !! i = Some t → sources !! i = Some s →
     ∃ target_sd source_sd,
       store !! t = Some target_sd ∧ store !! s = Some source_sd ∧
       dom target_sd = dom source_sd) →
  ∃ store',
    update_target_networks' store targets sources tau = Ok store' ∧
    (∀ i t s target_sd source_sd,
       targets !! i = Some t → sources !! i = Some s →
       store !! t = Some target_sd → store !! s = Some source_sd →
       store' !! t = Some (soft_updated_dict' tau source_sd target_sd)) ∧
    (∀ other, other ∉ targets → store' !! other = store !! other).
Proof.
  revert sources.
  induction targets as [|t targets IH]; intros sources store Hnodup Hdisj Hpairs.
  - exists store. split; [done|]. split; [|done].
    intros i t s ? ? Hi. by rewrite lookup_nil in Hi.
  - destruct sources as [|s sources].
    { exists store. split; [done|]. split.
      - intros i t' s' ? ? _ Hi. by rewrite lookup_nil in Hi.
      - done. }
    apply NoDup_cons in Hnodup as [Hfresh Hnodup].
    destruct (Hpairs 0%nat t s eq_refl eq_refl)
      as (target_sd & source_sd & Ht & Hs & Hdom).
    pose proof (update_target_network_run store t s tau _ _ Ht Hs Hdom) as Hfirst.
    set (store1 := <[t := soft_updated_dict' tau source_sd target_sd]> store) in *.
    assert (∀ o, o ≠ t → store1 !! o = store !! o) as Hframe.
    { intros o Ho. unfold store1. by rewrite lookup_insert_ne. }
    destruct (IH sources store1 Hnodup) as (store' & Hrun & Hupd & Hrest).
    { intros t' s' Ht' Hs'. apply Hdisj; by right. }
    { intros i t' s' Hi Hi'.
      destruct (Hpairs (S i) t' s' Hi Hi') as (tsd & ssd & ? & ? & ?).
      exists tsd, ssd. rewrite !Hframe; [done| |].
      - intros ->. apply (Hdisj t t); [left|right; by eapply list_elem_of_lookup_2|done].
      - intros ->. apply Hfresh. by eapply list_elem_of_lookup_2. }
    exists store'. split; [|split].
    + unfold update_target_networks in *. simpl. rewrite Hfirst. exact Hrun.
    + intros [|i] t' s' tsd ssd Hi Hi' Ht' Hs'; simpl in Hi, Hi'.
      * injection Hi as <-. injection Hi' as <-.
        rewrite Ht in Ht'. rewrite Hs in Hs'.
        injection Ht' as <-. injection Hs' as <-.
        rewrite Hrest by done. unfold store1. by rewrite lookup_insert_eq.
      * apply (Hupd i t' s'); [done|done| |].
        -- rewrite Hframe; [done|]. intros ->. apply Hfresh.
           by eapply list_elem_of_lookup_2.
        -- rewrite Hframe; [done|]. intros ->.
           apply (Hdisj t t); [left|right; by eapply list_elem_of_lookup_2|done].
    + intros other Hother. apply not_elem_of_cons in Hother as [Hne Hother].
      rewrite Hrest by done. by apply Hframe.
Qed.


End TargetNetworks.


End TargetNetworksSpec.

(** ** neural_networks/common/utils.py: ensemble_forward *)

Module EnsembleSpec.
Import Utils.

Section Transpose.
Context {A : Type}.

Lemma transpose_length (cols : nat) (rows : list (list A)) :
  Forall (fun r => length r = cols) rows →
  length (transpose cols rows) = cols.
Proof.
  induction 1 as [|r rows Hr _ IH]; simpl.
  - apply length_replicate.
  - rewrite length_zip_with, IH, Hr. lia.
Qed.

(** Row [j] of the transposed data collects entry [j] of every row. *)
Lemma transpose_lookup (cols : nat) (rows : list (list A)) (j : nat) :
  Forall (fun r => length r = cols) rows →
  (j < cols)%nat →
  transpose cols rows !! j = Some (omap (fun r => r !! j) rows) ∧
  length (omap (fun r : list A => r !! j) rows) = length rows.
Proof.
  intros Hrows Hj. induction Hrows as [|r rows Hr _ [IH1 IH2]]; simpl.
  - split; [|done]. by apply lookup_replicate_2.
  - destruct (lookup_lt_is_Some_2 r j) as [x Hx]; [lia|].
    rewrite lookup_zip_with, Hx, IH1. simpl. split; [done|].
    f_equal. exact IH2.
Qed.

Lemma omap_lookup_entry (rows : list (list A)) (i j : nat) (r : list A) (x : A) :
  Forall (fun r => (j < length r)%nat) rows →
  rows !! i = Some r → r !! j = Some x →
  omap (fun r : list A => r !! j) rows !! i = Some x.
Proof.
  intros Hrows. revert i. induction Hrows as [|r' rows Hr' _ IH]; intros i Hi Hx.
  - by rewrite lookup_nil in Hi.
  - destruct (lookup_lt_is_Some_2 r' j Hr') as [x' Hx'].
    simpl. rewrite Hx'. destruct i as [|i]; simpl in *.
    + injection Hi as ->. congruence.
    + by apply IH.
Qed.

(** Cutting the concatenation of [count] lists of length [size] into chunks
    of that length gives the lists back. *)
Lemma chunks_concat (size : nat) (ls : list (list A)) :
  Forall (fun l => length l = size) ls →
  chunks (length ls) size (concat ls) = ls ∧
  length (concat ls) = (length ls * size)%nat.
Proof.
  induction 1 as [|l ls Hl _ [IH1 IH2]]; simpl; [done|].
  rewrite take_app_length' by done. rewrite drop_app_length' by done.
  rewrite IH1, length_app, IH2, Hl. done.
Qed.

End Transpose.

Section EnsembleForward.
Context {Elem State : Type}.
Implicit Types (models : list (@Model Elem State)) (features : @Tensor3 Elem).

Lemma rowwise_scalar_per_row (m : @Model Elem State) :
  rowwise_scalar m → scalar_per_row m.
Proof.
  intros Hm st x. destruct (Hm st x) as [-> Hone].
  induction x as [|r x IH]; simpl; [done|].
  by rewrite length_app, Hone, IH.
Qed.

Lemma well_shaped_rows features :
  well_shaped features →
  Forall (fun m => length m = shape1 features) (entries features).
Proof. intros [_ H]. eapply Forall_impl; [exact H|]. by intros m [? _]. Qed.

(** Slice [i] of the permuted features is column [i] of the features. *)
Lemma permuted_slice features (i : nat) :
  well_shaped features → (i < shape1 features)%nat →
  entries (permute_102 features) !! i = Some (column features i) ∧
  length (column features i) = shape0 features.
Proof.
  intros Hw Hi. destruct (transpose_lookup (shape1 features) (entries features) i
    (well_shaped_rows _ Hw) Hi) as [H1 H2].
  split; [exact H1|]. unfold column. rewrite H2. by destruct Hw.
Qed.

Lemma permuted_length features :
  well_shaped features →
  length (entries (permute_102 features)) = shape1 features.
Proof. intros Hw. apply transpose_length, well_shaped_rows, Hw. Qed.

(** What [vmap] stacks is what the naive loop computes, model by model. *)
Lemma stacked_is_loop models features (model0 : @Model Elem State) :
  head models = Some model0 →
  structurally_identical models →
  well_shaped features →
  length models = shape1 features →
  zip_with (functional_call model0) (map state models)
           (entries (permute_102 features))
  = imap (fun i model => call model (column features i)) models.
Proof.
  intros Hhead Hsame Hw Hlen. apply list_eq. intros i.
  rewrite lookup_zip_with, list_lookup_fmap, list_lookup_imap.
  destruct (models !! i) as [m|] eqn:Hm; [|done].
  assert (i < shape1 features)%nat as Hi.
  { rewrite <- Hlen. by eapply lookup_lt_Some. }
  destruct (permuted_slice features i Hw Hi) as [-> _]. simpl.
  unfold functional_call, call. f_equal. symmetry.
  apply (Hsame model0 m Hhead). by eapply list_elem_of_lookup_2.
Qed.

Lemma loop_outputs_length models features :
  well_shaped features →
  length models = shape1 features →
  (∀ m, m ∈ models → scalar_per_row m) →
  Forall (fun o => length o = shape0 features)
         (imap (fun i model => call model (column features i)) models).
Proof.
  intros Hw Hlen Hscalar. apply Forall_lookup. intros i o.
  rewrite list_lookup_imap.
  destruct (models !! i) as [m|] eqn:Hm; simpl; [|done].
  intros [= <-]. unfold call.
  rewrite (Hscalar m (list_elem_of_lookup_2 _ _ _ Hm)).
  apply permuted_slice; [done|]. rewrite <- Hlen. by eapply lookup_lt_Some.
Qed.

Lemma vmap_stacks (f : State → list (list Elem) → list Elem)
    (params : list State) (data : @Tensor3 Elem) (size : nat) :
  length params = shape0 data →
  Forall (fun o => length o = size) (zip_with f params (entries data)) →
  vmap f params data = Ok (zip_with f params (entries data)).
Proof.
  intros Hlen Hall. unfold vmap.
  rewrite (proj2 (Nat.eqb_eq _ _) Hlen).
  destruct (zip_with f params (entries data)) as [|o outs] eqn:Houts; [done|].
  assert (forallb (fun o' => (length o' =? length o)%nat) (o :: outs) = true) as ->;
    [|done].
  apply forallb_forall. intros o' Hin.
  apply Nat.eqb_eq. apply list_elem_of_In in Hin.
  rewrite Forall_forall in Hall.
  rewrite (Hall o') by done. symmetry. apply Hall. left.
Qed.

Lemma view_rows_of_stack (size : nat) (outs : list (list Elem)) :
  (0 < size)%nat →
  Forall (fun o => length o = size) outs →
  view_rows (concat outs) size = Ok outs.
Proof.
  intros Hpos Hall. destruct (chunks_concat size outs Hall) as [Hch Hlen].
  unfold view_rows.
  destruct (Nat.eqb_spec size 0) as [->|_]; [lia|].
  rewrite Hlen, Nat.Div0.mod_mul, Nat.div_mul by lia. simpl.
  by rewrite Hch.
Qed.

Lemma ensemble_forward_head models features (model0 : @Model Elem State) :
  head models = Some model0 →
  ensemble_forward models features
  = (stacked ← vmap (functional_call model0) (map state models)
                  (permute_102 features);
     values ← view_rows (concat stacked) (shape0 features);
     Ok (transpose (shape0 features) values)).
Proof. destruct models as [|m rest]; [done|]. by intros [= ->]. Qed.

(** The batched forward is the naive loop. *)
Lemma ensemble_forward_naive models features :
  models ≠ [] →
  structurally_identical models →
  well_shaped features →
  length models = shape1 features →
  (0 < shape0 features)%nat →
  (∀ m, m ∈ models → scalar_per_row m) →
  ensemble_forward models features = Ok (naive_ensemble models features).
Proof.
  intros Hne Hsame Hw Hlen Hpos Hscalar.
  destruct (head models) as [model0|] eqn:Hhead;
    [|by destruct models].
  pose proof (stacked_is_loop models features model0 Hhead Hsame Hw Hlen) as Hstack.
  pose proof (loop_outputs_length models features Hw Hlen Hscalar) as Hall.
  rewrite (ensemble_forward_head models features model0 Hhead).
  rewrite (vmap_stacks _ _ _ (shape0 features)).
  - rewrite Hstack. simpl.
    rewrite (view_rows_of_stack _ _ Hpos Hall). reflexivity.
  - rewrite length_map. simpl. exact Hlen.
  - rewrite Hstack. exact Hall.
Qed.

Lemma naive_ensemble_shape models features :
  well_shaped features →
  length models = shape1 features →
  (∀ m, m ∈ models → scalar_per_row m) →
  length (naive_ensemble models features) = shape0 features ∧
  Forall (fun r => length r = shape1 features) (naive_ensemble models features).
Proof.
  intros Hw Hlen Hscalar.
  pose proof (loop_outputs_length models features Hw Hlen Hscalar) as Hall.
  unfold naive_ensemble. split.
  - by apply transpose_length.
  - apply Forall_lookup. intros b r Hb.
    assert (b < shape0 features)%nat as Hlt.
    { apply lookup_lt_Some in Hb. by rewrite transpose_length in Hb. }
    destruct (transpose_lookup _ _ b Hall Hlt) as [Hrow Hrowlen].
    rewrite Hrow in Hb. injection Hb as <-.
    by rewrite Hrowlen, length_imap.
Qed.

Lemma flat_map_singletons_lookup {A B : Type} (g : A → list B) (l : list A)
    (b : nat) (x : A) :
  (∀ r, length (g r) = 1%nat) →
  l !! b = Some x →
  ∃ y, g x = [y] ∧ flat_map g l !! b = Some y.
Proof.
  intros Hone. revert b. induction l as [|r l IH]; intros b Hb.
  - by rewrite lookup_nil in Hb.
  - pose proof (Hone r) as Hr. simpl.
    destruct (g r) as [|y0 [|? ?]] eqn:Hg; simplify_eq/=.
    destruct b as [|b]; simplify_eq/=.
    + eauto.
    + by apply IH.
Qed.

(** Entry [(b, i)] of the naive loop is model [i] applied to the feature
    vector [(b, i)], for models that work row by row. *)
Lemma naive_ensemble_entry models features (b i : nat) (m : @Model Elem State)
    (row : list (list Elem)) (x : list Elem) :
  well_shaped features →
  length models = shape1 features →
  (∀ m, m ∈ models → rowwise_scalar m) →
  models !! i = Some m →
  entries features !! b = Some row →
  row !! i = Some x →
  ∃ out_row y,
    naive_ensemble models features !! b = Some out_row ∧
    out_row !! i = Some y ∧
    call m [x] = [y].
Proof.
  intros Hw Hlen Hrow Hm Hb Hx.
  assert (∀ m, m ∈ models → scalar_per_row m) as Hscalar
    by (intros m' Hm'; by apply rowwise_scalar_per_row, Hrow).
  pose proof (loop_outputs_length models features Hw Hlen Hscalar) as Hall.
  assert (b < shape0 features)%nat as Hlt.
  { destruct Hw as [<- _]. by eapply lookup_lt_Some. }
  assert (i < shape1 features)%nat as Hi.
  { rewrite <- Hlen. by eapply lookup_lt_Some. }
  destruct (transpose_lookup _ _ b Hall Hlt) as [Hout _].
  (* the feature vector sits at position [b] of column [i] *)
  assert (column features i !! b = Some x) as Hcol.
  { unfold column. apply (omap_lookup_entry _ b i row x); [|done|done].
    eapply Forall_impl; [exact (well_shaped_rows _ Hw)|]. simpl. intros ? ->. done. }
  destruct (Hrow m (list_elem_of_lookup_2 _ _ _ Hm) (state m) (column features i))
    as [Hflat Hone].
  destruct (flat_map_singletons_lookup
              (fun r => forward m (state m) [r]) (column features i) b x)
    as (y & Hy & Hyb); [|done|].
  { intros r. destruct (Hrow m (list_elem_of_lookup_2 _ _ _ Hm) (state m) [r])
      as [_ H]. apply H. }
  exists (omap (fun o : list Elem => o !! b)
            (imap (fun i model => call model (column features i)) models)), y.
  split; [exact Hout|]. split; [|exact Hy].
  apply (omap_lookup_entry _ i b (call m (column features i)) y).
  - eapply Forall_impl; [exact Hall|]. simpl. intros ? ->. done.
  - by rewrite list_lookup_imap, Hm.
  - unfold call. by rewrite Hflat.
Qed.

(** C1, as amended.  For a non-empty list of [n] structurally identical
    models, each of which maps feature rows to one scalar per row, row by
    row, and features of shape (batch_size, n, d) with batch_size at least 1,
    [ensemble_forward] returns the result of the naive loop: a tensor of
    shape (batch_size, n) whose entry (b, i) is the output of model [i] on
    the feature vector (b, i). *)
Theorem ensemble_forward_of_scalar_models models features :
  models ≠ [] →
  structurally_identical models →
  well_shaped features →
  length models = shape1 features →
  (0 < shape0 features)%nat →
  (∀ m, m ∈ models → rowwise_scalar m) →
  ∃ out,
    ensemble_forward models features = Ok out ∧
    out = naive_ensemble models features ∧
    length out = shape0 features ∧
    Forall (fun r => length r = shape1 features) out ∧
    ∀ b i m row x,
      models !! i = Some m → entries features !! b = Some row → row !! i = Some x →
      ∃ out_row y, out !! b = Some out_row ∧ out_row !! i = Some y ∧ call m [x] = [y].
Proof.
  intros Hne Hsame Hw Hlen Hpos Hrow.
  assert (∀ m, m ∈ models → scalar_per_row m) as Hscalar
    by (intros m' Hm'; by apply rowwise_scalar_per_row, Hrow).
  exists (naive_ensemble models features).
  split; [by apply ensemble_forward_naive|]. split; [done|].
  destruct (naive_ensemble_shape models features Hw Hlen Hscalar) as [H1 H2].
  split; [done|]. split; [done|].
  intros b i m row x Hm Hb Hx.
  by apply (naive_ensemble_entry models features b i m row x).
Qed.

End EnsembleForward.

Lemma sum_model_rowwise (offset : Z) : rowwise_scalar (Samples.sum_model offset).
Proof.
  intros st x. split; [|done]. simpl.
  induction x as [|r x IH]; simpl; [done|]. by rewrite <- IH.
Qed.

Lemma sum_models_identical (offsets : list Z) :
  structurally_identical (map Samples.sum_model offsets).
Proof.
  intros m0 m Hhead Hm st x.
  apply list_elem_of_fmap in Hm as (o & -> & _).
  destruct offsets as [|o0 ?]; simplify_eq/=. done.
Qed.

(** Three regressors on features of shape (2, 3, 2). *)
Lemma ensemble_forward_of_scalar_models_witness :
  ensemble_forward (map Samples.sum_model [100; 200; 300]) Samples.sample_features
  = Ok [[103; 207; 311]; [115; 219; 323]].
Proof.
  destruct (ensemble_forward_of_scalar_models
              (map Samples.sum_model [100; 200; 300]) Samples.sample_features)
    as (out & Hrun & Hout & _).
  - done.
  - apply sum_models_identical.
  - repeat constructor.
  - reflexivity.
  - simpl. lia.
  - intros m Hm. apply list_elem_of_fmap in Hm as (o & -> & _).
    apply sum_model_rowwise.
  - rewrite Hrun, Hout. reflexivity.
Defined.

(** C1 does not hold for every list of modules and every batch: a module
    with two outputs per feature row gives, on features of shape (1, 1, 1), a
    result of shape (1, 2); an empty batch makes the call raise; and for a
    module that mixes the rows of its batch, entry (1, 0) of the result (here
    4) is not what the module answers on the feature vector (1, 0) alone
    (here 0). *)
Lemma ensemble_forward_shape_counterexample :
  ensemble_forward [Samples.two_output_model 7] (mkTensor3 1 1 1 [[[5]]])
  = Ok [[12; 7]] ∧
  ensemble_forward [Samples.sum_model 7] (mkTensor3 0 1 1 []) = Raise RuntimeError ∧
  (ensemble_forward [Samples.centering_model 7] (mkTensor3 2 1 1 [[[1]]; [[5]]])
   = Ok [[0]; [4]] ∧
   call (Samples.centering_model 7) [[5]] = [0]) ∧
  ¬ @shape_for_all_modules Z Z.
Proof.
  split; [reflexivity|]. split; [reflexivity|]. split; [by split|].
  intros Hshape.
  destruct (Hshape [Samples.two_output_model 7] (mkTensor3 1 1 1 [[[5]]]))
    as (out & Hrun & _ & Hcols).
  - done.
  - intros m0 m [= <-] Hm st x. by apply list_elem_of_singleton in Hm as ->.
  - repeat constructor.
  - reflexivity.
  - vm_compute in Hrun. injection Hrun as <-.
    apply Forall_cons in Hcols as [Hbad _]. simpl in Hbad. lia.
Qed.

End EnsembleSpec.

(** ** core/contextual_bandits/policy_learners/disjoint_linear_bandit.py *)

Module DisjointLinearBanditSpec.
Import Transition DisjointLinearBandit.

Section Selection.
Context {A : Type}.

(** Selecting the rows at the positions where the action is [i] keeps
    exactly the rows whose action is [i], in order. *)
Lemma index_select_nonzero (i : nat) (actions : list Z) :
  ∀ (rows prefix : list A),
  length actions = length rows →
  index_select (prefix ++ rows)
    (nonzero_from (length prefix) (map (fun a => a =? Z.of_nat i) actions))
  = Ok (rows_of_action i actions rows).
Proof.
  induction actions as [|a actions IH]; intros rows prefix Hlen.
  - done.
  - destruct rows as [|r rows]; [done|]. simpl in Hlen.
    specialize (IH rows (prefix ++ [r])).
    rewrite length_app, <- app_assoc in IH. simpl in IH.
    replace (length prefix + 1)%nat with (S (length prefix)) in IH by lia.
    unfold rows_of_action in *. simpl.
    destruct (Z.eqb_spec a (Z.of_nat i)) as [Ha|Ha]; simpl.
    + rewrite lookup_app_r, Nat.sub_diag by lia. simpl.
      rewrite IH by lia. simpl.
      by rewrite filter_cons_True.
    + rewrite IH by lia. by rewrite filter_cons_False.
Qed.

Lemma index_select_of_action (i : nat) (actions : list Z) (rows : list A) :
  length actions = length rows →
  index_select rows (nonzero (map (fun a => a =? Z.of_nat i) actions))
  = Ok (rows_of_action i actions rows).
Proof. intros Hlen. exact (index_select_nonzero i actions rows [] Hlen). Qed.

Lemma rows_of_action_length (i : nat) (actions : list Z) (rows : list A) (k : nat) :
  length actions = length rows →
  length (nonzero_from k (map (fun a => a =? Z.of_nat i) actions))
  = length (rows_of_action i actions rows).
Proof.
  revert rows k. induction actions as [|a actions IH]; intros rows k Hlen; [done|].
  destruct rows as [|r rows]; [done|]. simpl in Hlen.
  unfold rows_of_action in *. simpl.
  destruct (Z.eqb_spec a (Z.of_nat i)) as [Ha|Ha]; simpl.
  - rewrite filter_cons_True by done. simpl. f_equal. apply IH. lia.
  - rewrite filter_cons_False by done. apply IH. lia.
Qed.

End Selection.

(** No position is selected exactly when the action does not occur. *)
Lemma nonzero_none_iff (i : nat) (actions : list Z) (k : nat) :
  length (nonzero_from k (map (fun a => a =? Z.of_nat i) actions)) = 0%nat
  ↔ Z.of_nat i ∉ actions.
Proof.
  revert k. induction actions as [|a actions IH]; intros k; simpl.
  - split; [|done]. intros _. apply not_elem_of_nil.
  - rewrite not_elem_of_cons.
    destruct (Z.eqb_spec a (Z.of_nat i)) as [Ha|Ha]; simpl.
    + split; [done|]. intros [Hne _]. by destruct Hne.
    + rewrite IH. split; [intros ?; split; [congruence|done]|by intros [_ ?]].
Qed.

Lemma zip_with_app_replicate {A : Type} (rows : list (list A)) (v : list A) :
  zip_with app rows (replicate (length rows) v) = map (fun s => s ++ v) rows.
Proof. induction rows as [|r rows IH]; simpl; [done|]. by rewrite IH. Qed.


Section LearnBatch.
Context {Elem State : Type} (one : Elem).
Context (lr_learn_batch : @Utils.Model Elem State → list (list Elem) → list Elem →
                          list Elem → @Utils.Model Elem State).
Context {SubjectiveState Action ActionSpace PyObj : Type}.

Abbreviation Bandit :=
  (@DisjointLinearBandit Elem State SubjectiveState Action ActionSpace).
Abbreviation Space := (@DiscreteActionSpace Elem SubjectiveState).
Abbreviation Batch := (TransitionBatch (list (list Elem)) (list Elem) (list Z)).

Lemma learn_action_run (space : Space) (batch : Batch) (i : nat)
    (r : @Utils.Model Elem State) :
  batch_rows_agree batch →
  (∃ action_vector, getitem space i = Ok action_vector) →
  learn_action one lr_learn_batch space batch i r
  = Ok (updated_regression one lr_learn_batch space batch i r).
Proof.
  intros (Hstate & Hreward & Hweight) [av Hav].
  unfold learn_action, updated_regression. rewrite Hav.
  destruct (decide (Z.of_nat i ∈ action batch)) as [Hin|Hout].
  - destruct (Nat.eqb_spec
      (length (nonzero (map (fun a => a =? Z.of_nat i) (action batch)))) 0)
      as [Hnone|_].
    { by apply nonzero_none_iff in Hnone. }
    rewrite (index_select_of_action i (action batch) (state batch)) by done.
    simpl.
    rewrite (index_select_of_action i (action batch) (reward batch)) by done.
    simpl. rewrite zip_with_app_replicate.
    unfold weight_of_action, context_of_action.
    destruct (weight batch) as [w|]; simpl.
    + by rewrite (index_select_of_action i (action batch) w).
    + done.
  - apply nonzero_none_iff with (k := 0%nat) in Hout.
    unfold nonzero. by rewrite Hout.
Qed.

Lemma learn_loop_run (space : Space) (batch : Batch)
    (regressions : list (@Utils.Model Elem State)) :
  batch_rows_agree batch →
  ∀ start,
  indexable space (start + length regressions) →
  learn_loop one lr_learn_batch space batch start regressions
  = Ok (imap (fun k r =>
                updated_regression one lr_learn_batch space batch (start + k) r)
             regressions).
Proof.
  intros Hbatch. induction regressions as [|r rest IH]; intros start Hidx; [done|].
  simpl in *. rewrite learn_action_run by (done || (apply Hidx; lia)). simpl.
  rewrite IH by (intros i Hi; apply Hidx; lia). simpl. rewrite Nat.add_0_r. do 2 f_equal.
  apply imap_ext. intros k x _. simpl. f_equal. lia.
Qed.

(** C2. On a batch whose tensors have one row per transition (the action
    space having a feature vector for the action of every regression),
    [learn_batch] returns the empty dictionary and leaves, in place of each
    regression [i]: the regression trained on exactly the rows whose action
    is [i] (their states, each followed by the feature vector of action [i],
    their rewards, and their weights, or ones in their stead when the batch
    has no weight) when action [i] occurs in the batch, and the regression
    unchanged when it does not. *)
Theorem learn_batch_trains_each_action_on_its_rows (self : Bandit) (batch : Batch) :
  batch_rows_agree batch →
  indexable (_discrete_action_space self) (length (_linear_regressions self)) →
  ∃ regressions',
    learn_batch (PyObj:=PyObj) one lr_learn_batch self batch
    = Ok ({| _linear_regressions := regressions';
             _discrete_action_space := _discrete_action_space self;
             _exploration_module := _exploration_module self |}, ∅) ∧
    length regressions' = length (_linear_regressions self) ∧
    ∀ i r, _linear_regressions self !! i = Some r →
      (Z.of_nat i ∈ action batch →
       ∃ action_vector,
         getitem (_discrete_action_space self) i = Ok action_vector ∧
         regressions' !! i
         = Some (lr_learn_batch r
                   (map (fun s => s ++ action_vector)
                        (rows_of_action i (action batch) (state batch)))
                   (rows_of_action i (action batch) (reward batch))
                   (match weight batch with
                    | Some w => rows_of_action i (action batch) w
                    | None =>
                        replicate
                          (length (rows_of_action i (action batch) (reward batch)))
                          one
                    end))) ∧
      (Z.of_nat i ∉ action batch → regressions' !! i = Some r).
Proof.
  intros Hbatch Hidx.
  exists (imap (fun k r =>
                  updated_regression one lr_learn_batch
                    (_discrete_action_space self) batch k r)
               (_linear_regressions self)).
  split; [|split].
  - unfold learn_batch. rewrite learn_loop_run by done. done.
  - apply length_imap.
  - intros i r Hr. rewrite list_lookup_imap, Hr. simpl.
    destruct (Hidx i (lookup_lt_Some _ _ _ Hr)) as [av Hav].
    unfold updated_regression. rewrite Hav. split.
    + intros Hin. exists av. split; [done|]. by rewrite decide_True.
    + intros Hout. by rewrite decide_False.
Qed.

End LearnBatch.

(** Three regressions and a batch with the actions 0, 2, 0: regression 0 is
    trained on the first and third rows, regression 2 on the second, and
    regression 1 is left as it was. *)
Lemma learn_batch_trains_each_action_on_its_rows_witness :
  ∃ regressions',
    learn_batch (PyObj:=unit) 1 Samples.sample_learn Samples.sample_bandit
      Samples.sample_batch
    = Ok ({| _linear_regressions := regressions';
             _discrete_action_space := Samples.sample_space;
             _exploration_module := _exploration_module Samples.sample_bandit |},
          ∅) ∧
    regressions' !! 0%nat
    = Some (Samples.sample_learn (Samples.sum_model 100)
              [[1; 2; 1; 0; 0]; [5; 6; 1; 0; 0]] [10; 30] [1; 1]) ∧
    regressions' !! 1%nat = Some (Samples.sum_model 200) ∧
    regressions' !! 2%nat
    = Some (Samples.sample_learn (Samples.sum_model 300)
              [[3; 4; 0; 0; 1]] [20] [1]).
Proof.
  destruct (learn_batch_trains_each_action_on_its_rows (PyObj:=unit) 1
              Samples.sample_learn Samples.sample_bandit Samples.sample_batch)
    as (regressions' & Hrun & _ & Hentries).
  - repeat split.
  - intros [|[|[|i]]] Hi; simpl in *; eauto; lia.
  - exists regressions'. split; [exact Hrun|].
    destruct (Hentries 0%nat (Samples.sum_model 100) eq_refl) as [H0 _].
    destruct (Hentries 1%nat (Samples.sum_model 200) eq_refl) as [_ H1].
    destruct (Hentries 2%nat (Samples.sum_model 300) eq_refl) as [H2 _].
    split; [|split].
    + destruct H0 as (av & Hav & ->); [apply list_elem_of_here|].
      injection Hav as <-. reflexivity.
    + apply H1. simpl. intros H.
      repeat (apply elem_of_cons in H as [H|H]; [discriminate H|]).
      by apply elem_of_nil in H.
    + destruct H2 as (av & Hav & ->);
        [apply list_elem_of_further, list_elem_of_here|].
      injection Hav as <-. reflexivity.
Defined.

End DisjointLinearBanditSpec.

(** ** core/contextual_bandits/policy_learners/deep_bandit.py: learn_batch *)

Module DeepBanditSpec.
Import Transition DeepBandit.

Section LearnBatch.
Context {Tensor Elem LinearParams Grads OptState : Type}.
Context `{!Framework Tensor Elem LinearParams Grads OptState}.
Context {SubjectiveState Action : Type}.

Abbreviation Learner :=
  (@DeepBandit Tensor LinearParams Grads OptState SubjectiveState Action).

(** The forward pass of [VanillaValueNetwork]: [fc2] after the hidden
    layers after [relu] of [fc1]. *)
Lemma value_network_forward (params : @ValueNetworks.VanillaValueNetwork LinearParams)
    (x h1 h : Tensor) :
  linear (ValueNetworks.fc1 params) x = Ok h1 →
  ValueNetworks.hiddens_forward linear relu (ValueNetworks.hiddens params) (relu h1)
  = Ok h →
  value_network params x = linear (ValueNetworks.fc2 params) h.
Proof.
  intros H1 Hh. unfold value_network, ValueNetworks.forward.
  rewrite H1. simpl. rewrite Hh. reflexivity.
Qed.

Lemma loss_of_run (batch : TransitionBatch Tensor Tensor Tensor)
    (params : @ValueNetworks.VanillaValueNetwork LinearParams)
    (input_features current_values reshaped : Tensor) :
  cat_dim1 (state batch) (action batch) = Ok input_features →
  value_network params input_features = Ok current_values →
  view_as current_values (reward batch) = Ok reshaped →
  loss_of batch params = Ok (mse_loss reshaped (reward batch)).
Proof.
  intros Hcat Hnet Hview. unfold loss_of.
  rewrite Hcat. simpl. rewrite Hnet. simpl. rewrite Hview. reflexivity.
Qed.

(** When the forward pass raises, [learn_batch] raises the same exception
    and no optimiser step is made. *)
Lemma learn_batch_raises (self : Learner) (batch : TransitionBatch Tensor Tensor Tensor)
    (e : PyExc) :
  loss_of batch (_deep_represent_layers self) = Raise e →
  learn_batch self batch = Raise e.
Proof. intros H. unfold learn_batch. by rewrite H. Qed.

(** C4. [learn_batch] concatenates [batch.state] and [batch.action] along
    dimension 1, runs the value network on the result, takes the
    mean-squared error between the output, viewed in the shape of
    [batch.reward], and [batch.reward], makes exactly one optimiser step (on
    the gradients of that loss, accumulated from zero), and returns the
    dictionary whose only key is "loss", bound to the error computed with the
    parameters the learner had before the step. *)
Theorem learn_batch_one_step_on_mse (self : Learner)
    (batch : TransitionBatch Tensor Tensor Tensor)
    (input_features current_values reshaped : Tensor) :
  cat_dim1 (state batch) (action batch) = Ok input_features →
  ValueNetworks.forward linear relu (_deep_represent_layers self) input_features
  = Ok current_values →
  view_as current_values (reward batch) = Ok reshaped →
  ∃ self' (metrics : gmap string Elem),
    learn_batch self batch = Ok (self', metrics) ∧
    metrics = {[ "loss"%string := mse_loss reshaped (reward batch) ]} ∧
    dom metrics = {[ "loss"%string ]} ∧
    optimizer_steps self' = S (optimizer_steps self) ∧
    (_optimizer self', _deep_represent_layers self')
    = optimizer_step (_optimizer self) (_deep_represent_layers self)
        (backward (loss_of batch) (_deep_represent_layers self)
           (zero_grad (_grads self))) ∧
    _exploration_module self' = _exploration_module self.
Proof.
  intros Hcat Hnet Hview.
  pose proof (loss_of_run batch (_deep_represent_layers self) _ _ _ Hcat Hnet Hview)
    as Hloss.
  unfold learn_batch. rewrite Hloss. simpl.
  destruct (optimizer_step (_optimizer self) (_deep_represent_layers self)
              (backward (loss_of batch) (_deep_represent_layers self)
                 (zero_grad (_grads self)))) as [opt params'] eqn:Hstep.
  eexists _, _. split; [reflexivity|]. simpl.
  split; [reflexivity|]. split; [apply dom_singleton_L|]. done.
Qed.

End LearnBatch.

(** One hidden layer, two transitions: the network answers 24 and 42, the
    loss is (24 - 20)^2 + (42 - 40)^2 and the step counter goes from 0 to 1. *)
Lemma learn_batch_one_step_on_mse_witness :
  ∃ self',
    learn_batch Samples.sample_deep_bandit Samples.sample_deep_batch
    = Ok (self', {[ "loss"%string := 20 ]}) ∧
    optimizer_steps self' = 1%nat.
Proof.
  destruct (learn_batch_one_step_on_mse Samples.sample_deep_bandit
              Samples.sample_deep_batch
              [[1; 2; 1]; [3; 4; 0]] [[24]; [42]] [[24]; [42]])
    as (self' & metrics & Hrun & Hmetrics & _ & Hsteps & _).
  - reflexivity.
  - reflexivity.
  - reflexivity.
  - exists self'. split; [|exact Hsteps].
    rewrite Hrun, Hmetrics. reflexivity.
Defined.

End DeepBanditSpec.

(** ** [act] of the two contextual bandits *)

Module ActSpec.

Section Act.
Context {Tensor Elem LinearParams Grads OptState : Type}.
Context `{!DeepBandit.Framework Tensor Elem LinearParams Grads OptState}.
Context {SubjectiveState Action : Type}.
Context {Elem' State ActionSpace : Type}.

Lemma deep_act_asserts_action_dim
    (self : @DeepBandit.DeepBandit Tensor LinearParams Grads OptState
              SubjectiveState Action)
    (subjective_state : SubjectiveState)
    (action_space : @DeepBandit.ActionSpace Tensor SubjectiveState) (exploit : bool) :
  ¬ 0 < DeepBandit.action_dim action_space →
  DeepBandit.act self subjective_state action_space exploit = Raise AssertionError.
Proof.
  intros Hdim. unfold DeepBandit.act.
  destruct (Z.ltb_spec 0 (DeepBandit.action_dim action_space)); [lia|done].
Qed.

Lemma deep_act_run
    (self : @DeepBandit.DeepBandit Tensor LinearParams Grads OptState
              SubjectiveState Action)
    (subjective_state : SubjectiveState)
    (action_space : @DeepBandit.ActionSpace Tensor SubjectiveState) (exploit : bool)
    (output : Tensor) :
  0 < DeepBandit.action_dim action_space →
  DeepBandit.value_network (DeepBandit._deep_represent_layers self)
    (DeepBandit.cat_state_tensor action_space subjective_state) = Ok output →
  DeepBandit.act self subjective_state action_space exploit
  = if DeepBandit.numel (DeepBandit.squeeze output)
       =? DeepBandit.tensor_shape0
            (DeepBandit.cat_state_tensor action_space subjective_state)
          * DeepBandit.n action_space
    then Ok (DeepBandit._exploration_module self
               (DeepBandit.mkActArgs subjective_state action_space
                  (DeepBandit.squeeze output) None))
    else Raise AssertionError.
Proof.
  intros Hdim Hnet. unfold DeepBandit.act.
  destruct (Z.ltb_spec 0 (DeepBandit.action_dim action_space)); [|lia].
  simpl. rewrite Hnet. simpl.
  by destruct (_ =? _).
Qed.

(** C6. Neither bandit chooses an action itself.  [DeepBandit.act] raises
    an [AssertionError] unless [action_space.action_dim > 0] and the number
    of values the network computed is batch_size times the number of actions;
    otherwise it returns what the exploration module's [act] returns on the
    subjective state, the action space and those values.
    [DisjointLinearBandit.act] returns what the exploration module's [act]
    returns on the features, the action space, the values computed by
    [ensemble_forward] from the regressions, and the regressions. *)
Theorem act_returns_choice_of_exploration_module
    (deep : @DeepBandit.DeepBandit Tensor LinearParams Grads OptState
              SubjectiveState Action)
    (linear : @DisjointLinearBandit.DisjointLinearBandit Elem' State
                SubjectiveState Action ActionSpace)
    (subjective_state : SubjectiveState)
    (deep_space : @DeepBandit.ActionSpace Tensor SubjectiveState)
    (linear_space : ActionSpace) (exploit : bool) :
  let new_feature := DeepBandit.cat_state_tensor deep_space subjective_state in
  let feature :=
    DisjointLinearBandit.cat_state_tensor
      (DisjointLinearBandit._discrete_action_space linear) subjective_state in
  (¬ 0 < DeepBandit.action_dim deep_space →
   DeepBandit.act deep subjective_state deep_space exploit = Raise AssertionError) ∧
  (∀ output,
     0 < DeepBandit.action_dim deep_space →
     DeepBandit.value_network (DeepBandit._deep_represent_layers deep) new_feature
     = Ok output →
     let values := DeepBandit.squeeze output in
     (DeepBandit.numel values
      ≠ DeepBandit.tensor_shape0 new_feature * DeepBandit.n deep_space →
      DeepBandit.act deep subjective_state deep_space exploit = Raise AssertionError) ∧
     (DeepBandit.numel values
      = DeepBandit.tensor_shape0 new_feature * DeepBandit.n deep_space →
      DeepBandit.act deep subjective_state deep_space exploit
      = Ok (DeepBandit._exploration_module deep
              (DeepBandit.mkActArgs subjective_state deep_space values None)))) ∧
  (∀ values,
     Utils.ensemble_forward (DisjointLinearBandit._linear_regressions linear) feature
     = Ok values →
     DisjointLinearBandit.act linear subjective_state linear_space exploit
     = Ok (DisjointLinearBandit._exploration_module linear
             {| DisjointLinearBandit.arg_subjective_state := feature;
                DisjointLinearBandit.arg_action_space := linear_space;
                DisjointLinearBandit.arg_values := values;
                DisjointLinearBandit.arg_representation :=
                  DisjointLinearBandit._linear_regressions linear |})) ∧
  (∀ e,
     Utils.ensemble_forward (DisjointLinearBandit._linear_regressions linear) feature
     = Raise e →
     DisjointLinearBandit.act linear subjective_state linear_space exploit = Raise e).
Proof.
  intros new_feature feature. split; [|split; [|split]].
  - apply deep_act_asserts_action_dim.
  - intros output Hdim Hnet values.
    rewrite (deep_act_run deep subjective_state deep_space exploit output Hdim Hnet).
    fold new_feature. fold values. split; intros Hn.
    + by apply Z.eqb_neq in Hn as ->.
    + by apply Z.eqb_eq in Hn as ->.
  - intros values Hvalues. unfold DisjointLinearBandit.act.
    fold feature. rewrite Hvalues. reflexivity.
  - intros e He. unfold DisjointLinearBandit.act. fold feature. by rewrite He.
Qed.

End Act.

(** The sample bandits, whose exploration modules answer with the values
    they are given: both [act] methods return those values. *)
Lemma act_returns_choice_of_exploration_module_witness :
  DeepBandit.act Samples.sample_deep_bandit tt Samples.sample_action_space false
  = Ok [[24]; [48]] ∧
  DisjointLinearBandit.act Samples.sample_bandit tt tt false
  = Ok [[103; 207; 311]; [115; 219; 323]].
Proof.
  destruct (act_returns_choice_of_exploration_module Samples.sample_deep_bandit
              Samples.sample_bandit tt Samples.sample_action_space tt false)
    as (_ & Hdeep & Hlinear & _).
  split.
  - destruct (Hdeep [[24]; [48]]) as [_ Hact]; [done|reflexivity|].
    rewrite Hact by reflexivity. reflexivity.
  - rewrite (Hlinear [[103; 207; 311]; [115; 219; 323]]) by reflexivity.
    reflexivity.
Defined.

End ActSpec.


(** ** pearl/policy_learners/policy_gradient.py *)

Module PolicyGradientSpec.
Import Transition Torch PolicyGradient.

Section Broadcast.
Context {Elem : Type} `{!FloatOps Elem}.

Lemma expand_same {A : Type} (n : nat) (l : list A) :
  length l = n → expand n l = l.
Proof. destruct l as [|x [|y l]]; simpl; intros <-; reflexivity. Qed.

Lemma broadcast_dim_same (n : nat) : broadcast_dim n n = Ok n.
Proof. unfold broadcast_dim. by rewrite Nat.eqb_refl. Qed.

Lemma zip_with_rows_same (cols : nat) (x y : list (list Elem)) :
  Forall (fun r => length r = cols) x →
  Forall (fun r => length r = cols) y →
  zip_with (fun u w => zip_with fmul (expand cols u) (expand cols w)) x y
  = zip_with (zip_with fmul) x y.
Proof.
  intros Hx. revert y.
  induction Hx as [|u x Hu _ IH]; intros y Hy; [done|].
  destruct Hy as [|w y Hw Hy]; [done|]. simpl.
  rewrite !expand_same by done. f_equal. by apply IH.
Qed.

Lemma mul_same_shape (cols : nat) (x y : list (list Elem)) :
  length x = length y →
  Forall (fun r => length r = cols) x →
  Forall (fun r => length r = cols) y →
  mul (Tensor2 cols x) (Tensor2 cols y)
  = Ok (Tensor2 cols (zip_with (zip_with fmul) x y)).
Proof.
  intros Hlen Hx Hy. unfold mul. simpl.
  rewrite Hlen, !broadcast_dim_same. simpl.
  rewrite (expand_same (length y) x Hlen), (expand_same (length y) y eq_refl).
  by rewrite zip_with_rows_same.
Qed.

Lemma zip_with_replicate_l {A B C : Type} (f : A → B → C) (a : A) (v : list B) (n : nat) :
  (length v ≤ n)%nat →
  zip_with f (replicate n a) v = map (f a) v.
Proof.
  revert n. induction v as [|b v IH]; intros n Hn.
  - by destruct n.
  - destruct n as [|n]; simpl in *; [lia|]. f_equal. apply IH. lia.
Qed.

Lemma broadcast_dim_1_l (n : nat) : broadcast_dim 1 n = Ok n.
Proof.
  unfold broadcast_dim. destruct (Nat.eqb_spec 1 n) as [<-|_]; [done|].
  by rewrite Nat.eqb_refl.
Qed.

Lemma broadcast_dim_1_r (n : nat) : broadcast_dim n 1 = Ok n.
Proof.
  unfold broadcast_dim. destruct (Nat.eqb_spec n 1) as [->|_]; [done|].
  by rewrite Nat.eqb_refl.
Qed.

(** The rows of a column of shape (B, 1) times a row vector repeated at
    least B times. *)
Lemma column_times_rows (column v : list Elem) (k : nat) :
  (length column ≤ k)%nat →
  zip_with (fun u w => zip_with fmul (expand (length v) u) (expand (length v) w))
           (map (fun a => [a]) column) (replicate k v)
  = map (fun a => map (fmul a) v) column.
Proof.
  revert k. induction column as [|a column IH]; intros k Hk; [done|].
  destruct k as [|k]; simpl in *; [lia|]. f_equal.
  - rewrite (expand_same _ v) by done. by apply zip_with_replicate_l.
  - apply IH. lia.
Qed.

Lemma mul_column_by_vector (column : list Elem) (v : list Elem) :
  length column ≠ 1%nat →
  mul (Tensor2 1 (map (fun a => [a]) column)) (Tensor1 v)
  = Ok (Tensor2 (length v) (map (fun a => map (fmul a) v) column)).
Proof.
  intros Hne. unfold mul. cbn -[broadcast_dim expand].
  rewrite length_map, broadcast_dim_1_r, broadcast_dim_1_l.
  cbn -[expand].
  rewrite (expand_same (length column)) by (by rewrite length_map).
  assert (expand (length column) [v] = replicate (length column) v) as -> by done.
  by rewrite column_times_rows.
Qed.

(** A column of shape (B, 1) times a column of shape (B, 1). *)
Lemma mul_columns (x y : list Elem) :
  length x = length y →
  mul (Tensor2 1 (map (fun a => [a]) x)) (Tensor2 1 (map (fun a => [a]) y))
  = Ok (Tensor2 1 (map (fun a => [a]) (zip_with fmul x y))).
Proof.
  intros Hlen. rewrite mul_same_shape.
  - do 2 f_equal. clear Hlen. revert y.
    induction x as [|a x IH]; intros [|b y]; simpl; try done. by rewrite IH.
  - by rewrite !length_map.
  - apply Forall_forall. intros r Hr. by apply list_elem_of_fmap in Hr as (a & -> & _).
  - apply Forall_forall. intros r Hr. by apply list_elem_of_fmap in Hr as (a & -> & _).
Qed.

Lemma concat_singletons {A : Type} (l : list A) : concat (map (fun a => [a]) l) = l.
Proof. induction l as [|a l IH]; simpl; [done|]. by rewrite IH. Qed.

End Broadcast.

Section LearnBatch.
Context {Elem : Type} `{!FloatOps Elem}.
Context {ActorParams Grads OptState : Type}.
Context (actor_forward : ActorParams → @Tensor Elem → result (@Tensor Elem)).
Context (zero_grad : Grads → Grads)
  (backward : (ActorParams → result Elem) → ActorParams → Grads → Grads)
  (optimizer_step : OptState → ActorParams → Grads → OptState * ActorParams).

Abbreviation Batch :=
  (TransitionBatch (@Tensor Elem) (@Tensor Elem) (@Tensor Elem)).
Abbreviation Learner := (@PolicyGradient Elem ActorParams Grads OptState).

Lemma neg_log_of_row_sums (x y : list (list Elem)) :
  neg_log (Tensor2 1 (map (fun r => [fsum r]) (zip_with (zip_with fmul) x y)))
  = Tensor2 1 (map (fun a => [a]) (negative_log_propensities x y)).
Proof.
  unfold neg_log, negative_log_propensities. simpl. f_equal.
  revert y. induction x as [|p x IH]; intros [|a y]; simpl; try done.
  by rewrite IH.
Qed.

(** The forward pass up to [negative_log_probs], for probabilities and
    one-hot actions of one shape (B, A). *)
Lemma negative_log_probs_run (batch : Batch) (params : ActorParams)
    (cols : nat) (action_probs action_one_hot : list (list Elem)) :
  actor_forward params (state batch) = Ok (Tensor2 cols action_probs) →
  action batch = Tensor2 cols action_one_hot →
  length action_probs = length action_one_hot →
  Forall (fun r => length r = cols) action_probs →
  Forall (fun r => length r = cols) action_one_hot →
  loss_of actor_forward batch params
  = (weighted ← mul (Tensor2 1 (map (fun a => [a])
                        (negative_log_propensities action_probs action_one_hot)))
                   (reward batch);
     Ok (sum_all weighted)).
Proof.
  intros Hactor Haction Hlen Hp Ho. unfold loss_of.
  rewrite Hactor, Haction. cbn -[mul sum_dim1_keepdim neg_log].
  rewrite mul_same_shape by done. cbn -[mul neg_log].
  by rewrite neg_log_of_row_sums.
Qed.

(** With returns of shape (B, 1) the loss is the elementwise one. *)
Lemma loss_of_column_returns (batch : Batch) (params : ActorParams)
    (cols : nat) (action_probs action_one_hot : list (list Elem))
    (returns : list Elem) :
  actor_forward params (state batch) = Ok (Tensor2 cols action_probs) →
  action batch = Tensor2 cols action_one_hot →
  reward batch = Tensor2 1 (map (fun r => [r]) returns) →
  length action_probs = length action_one_hot →
  length returns = length action_probs →
  Forall (fun r => length r = cols) action_probs →
  Forall (fun r => length r = cols) action_one_hot →
  loss_of actor_forward batch params
  = Ok (reinforce_loss action_probs action_one_hot returns).
Proof.
  intros Hactor Haction Hreward Hlen Hret Hp Ho.
  rewrite (negative_log_probs_run batch params cols action_probs action_one_hot)
    by done.
  rewrite Hreward, mul_columns.
  - cbn -[negative_log_propensities]. unfold sum_all. simpl flat.
    by rewrite concat_singletons.
  - unfold negative_log_propensities. rewrite length_zip_with. lia.
Qed.

(** With returns of shape (B,), B other than 1, every negative log
    propensity is multiplied by every return. *)
Lemma loss_of_vector_returns (batch : Batch) (params : ActorParams)
    (cols : nat) (action_probs action_one_hot : list (list Elem))
    (returns : list Elem) :
  actor_forward params (state batch) = Ok (Tensor2 cols action_probs) →
  action batch = Tensor2 cols action_one_hot →
  reward batch = Tensor1 returns →
  length action_probs = length action_one_hot →
  length action_probs ≠ 1%nat →
  Forall (fun r => length r = cols) action_probs →
  Forall (fun r => length r = cols) action_one_hot →
  loss_of actor_forward batch params
  = Ok (fsum (concat (map (fun nlp => map (fmul nlp) returns)
                          (negative_log_propensities action_probs action_one_hot)))).
Proof.
  intros Hactor Haction Hreward Hlen Hne Hp Ho.
  rewrite (negative_log_probs_run batch params cols action_probs action_one_hot)
    by done.
  rewrite Hreward, mul_column_by_vector; [done|].
  unfold negative_log_propensities. rewrite length_zip_with. lia.
Qed.

(** The two assertions on the first dimensions. *)
Lemma learn_batch_asserts_first_dimension (self : Learner) (batch : Batch) :
  shape0 (action batch) ≠ shape0 (state batch) ∨
  shape0 (reward batch) ≠ shape0 (state batch) →
  learn_batch actor_forward zero_grad backward optimizer_step self batch
  = Raise AssertionError.
Proof.
  intros Hshape. unfold learn_batch.
  destruct (Nat.eqb_spec (shape0 (action batch)) (shape0 (state batch))); [|done].
  destruct (Nat.eqb_spec (shape0 (reward batch)) (shape0 (state batch))); [|done].
  by destruct Hshape.
Qed.

(** Past the assertions, the dictionary holds the loss of the forward pass
    with the parameters the actor had before the step. *)
Lemma learn_batch_run (self : Learner) (batch : Batch) (value : Elem) :
  shape0 (action batch) = shape0 (state batch) →
  shape0 (reward batch) = shape0 (state batch) →
  loss_of actor_forward batch (_actor self) = Ok value →
  ∃ self',
    learn_batch actor_forward zero_grad backward optimizer_step self batch
    = Ok (self', {[ "loss"%string := value ]}) ∧
    loss self' = Some value ∧
    optimizer_steps self' = S (optimizer_steps self).
Proof.
  intros Ha Hr Hloss. unfold learn_batch.
  rewrite (proj2 (Nat.eqb_eq _ _) Ha), (proj2 (Nat.eqb_eq _ _) Hr). simpl.
  rewrite Hloss. simpl.
  destruct (optimizer_step _ _ _) as [opt params']. eauto.
Qed.

End LearnBatch.

(** C5, at a batch of two transitions whose returns 1 and 2 form a tensor of
    shape (2,): both negative log propensities are 1, the elementwise loss is
    1 * 1 + 1 * 2 = 3, and [learn_batch] returns 6 under "loss": the column of
    negative log propensities, of shape (2, 1), is broadcast against the
    returns and the four products are summed. *)
Theorem learn_batch_sums_outer_product :
  learn_batch Samples.sample_actor (fun _ => 0%nat) (fun _ _ g => S g)
    (fun opt p _ => (S opt, p))
    Samples.sample_policy_gradient Samples.sample_return_batch
  = Ok (mkPolicyGradient tt 1%nat 1%nat (Some 6%R) 1%nat,
        {[ "loss"%string := 6%R ]}) ∧
  reinforce_loss [[exp (-1); 1 - exp (-1)]; [exp (-1); 1 - exp (-1)]]%R
    [[1; 0]; [1; 0]]%R [1; 2]%R = 3%R.
Proof.
  assert ((- ln (exp (-1) * 1 + ((1 - exp (-1)) * 0 + 0)))%R = 1%R) as Hnlp.
  { replace (exp (-1) * 1 + ((1 - exp (-1)) * 0 + 0))%R with (exp (-1)) by lra.
    rewrite ln_exp. lra. }
  split.
  - unfold learn_batch, loss_of. simpl. rewrite !Hnlp.
    replace (1 * 1 + (1 * 2 + (1 * 1 + (1 * 2 + 0))))%R with 6%R by lra.
    reflexivity.
  - unfold reinforce_loss. simpl. rewrite !Hnlp. lra.
Qed.

End PolicyGradientSpec.

(** * Further properties *)

(** ** pearl/utils/environments.py *)

Module EnvironmentsMore.
Import Environments.

Section FixedNumberOfSteps.
Import FixedNumberOfStepsEnvironment.
Context {PyObj : Type}.

Lemma steps_keep_configuration {N A : Type} (k : nat)
    (self : FixedNumberOfStepsEnvironment N) (action : A) :
  _action_space (steps (PyObj:=PyObj) k self action) = _action_space self ∧
  number_of_steps (steps (PyObj:=PyObj) k self action) = number_of_steps self.
Proof.
  revert self. induction k as [|k IH]; intros self; simpl; [done|].
  destruct (IH (incr_steps_so_far self)) as [-> ->]. done.
Qed.

Lemma steps_count {N A : Type} (k : nat)
    (self : FixedNumberOfStepsEnvironment N) (action : A) :
  number_of_steps_so_far (steps (PyObj:=PyObj) k self action)
  = number_of_steps_so_far self + Z.of_nat k.
Proof.
  revert self. induction k as [|k IH]; intros self; simpl; [lia|].
  rewrite IH. simpl. lia.
Qed.

(** X1. The step counter is never reset: after [k] steps on a fresh
    environment, [reset] still reports the observation [k] (with the action
    space [True, False]), and the next step reports [k + 1] as observation
    and reward, terminated; the configured [number_of_steps] is as given. *)
Theorem fixed_counter_is_never_reset {N A : Type} (n : N) (action : A) (k : nat) :
  let env := steps (PyObj:=PyObj) k (init n) action in
  number_of_steps_so_far env = Z.of_nat k ∧
  reset env = (Z.of_nat k, mkDiscreteActionSpace [true; false]) ∧
  observation (step (PyObj:=PyObj) env action).2 = Z.of_nat k + 1 ∧
  reward (step (PyObj:=PyObj) env action).2 = Z.of_nat k + 1 ∧
  terminated (step (PyObj:=PyObj) env action).2 = true ∧
  number_of_steps env = n.
Proof.
  intros env.
  pose proof (steps_count k (init n) action) as Hcount.
  destruct (steps_keep_configuration k (init n) action)
    as [Hspace Hconf].
  fold env in Hcount, Hspace, Hconf. simpl in Hcount, Hspace, Hconf.
  split; [exact Hcount|]. split.
  { unfold reset, action_space. by rewrite Hcount, Hspace. }
  simpl. rewrite Hcount. done.
Qed.

End FixedNumberOfSteps.

Section BoxObservations.
Import BoxObservationsEnvironmentBase.
Context {F : Type} (float_of_Z : Z → F).
Context {E Act R I AS : Type} `{!Environment E Act R I AS}.

Lemma one_hot_entries (value num_classes : Z) :
  0 <= value < num_classes →
  one_hot value num_classes
  = Ok (map (fun i => if Z.of_nat i =? value then 1 else 0)
            (seq 0 (Z.to_nat num_classes))).
Proof.
  intros [Hlo Hhi]. unfold one_hot.
  destruct (value <? 0) eqn:E1; [lia|].
  destruct (num_classes =? -1) eqn:E2; [lia|].
  destruct (num_classes <=? 0) eqn:E3; [lia|].
  destruct (num_classes <=? value) eqn:E4; [lia|]. done.
Qed.

Lemma one_hot_out_of_range (value num_classes : Z) :
  num_classes ≠ -1 →
  ¬ 0 <= value < num_classes →
  one_hot value num_classes = Raise RuntimeError.
Proof.
  intros Hn Hout. unfold one_hot.
  destruct (value <? 0) eqn:E1; [done|].
  destruct (num_classes =? -1) eqn:E2; [lia|].
  destruct (num_classes <=? 0) eqn:E3; [done|].
  destruct (num_classes <=? value) eqn:E4; [done|]. lia.
Qed.

(** X2. When the adapter's [step] raises.  An exception of the base
    environment passes through unchanged; the box adapter adds none of its
    own; the one-hot adapter raises a [RuntimeError] exactly for an
    observation outside [0, n), n being the size of the base's observation
    space (other than the wildcard -1). *)
Theorem adapter_step_raises (self : @BoxObservationsEnvironmentBase E) (action : Act) :
  (∀ e, env_step (base_environment self) action = Raise e →
        step float_of_Z self action = Raise e) ∧
  (∀ base ar, env_step (base_environment self) action = Ok (base, ar) →
     match adapter_class self with
     | BoxObservationsFromDiscrete =>
         step float_of_Z self action
         = Ok (mkAdapter BoxObservationsFromDiscrete base,
               set_observation ar [float_of_Z (obs_value (observation ar))])
     | OneHotObservationsFromDiscrete =>
         env_observation_space_n base ≠ -1 →
         (step float_of_Z self action = Raise RuntimeError
          ↔ ¬ 0 <= obs_value (observation ar) < env_observation_space_n base)
     end).
Proof.
  split.
  - intros e He. unfold step. by rewrite He.
  - intros base ar Hstep. unfold step. rewrite Hstep. simpl.
    unfold compute_tensor_observation. simpl.
    destruct (adapter_class self); [done|].
    intros Hn.
    assert (match observation ar with ObsTensor z | ObsInt z => z end
            = obs_value (observation ar)) as -> by (by destruct (observation ar)).
    split.
    + intros Hraise Hin. rewrite (one_hot_entries _ _ Hin) in Hraise. done.
    + intros Hout. by rewrite (one_hot_out_of_range _ _ Hn Hout).
Qed.

(** X3. Every observation the adapter hands out lies in the observation
    space it declares: for an observation of the base inside its discrete
    space of size n, the converted tensor is the float conversion of integers
    that are as many as [low] and [high] of [make_observation_space] (and as
    its [shape] says), each between its [low] and [high] entry. *)
Theorem observation_within_declared_space
    (self : @BoxObservationsEnvironmentBase E) (o : Observation) :
  0 <= obs_value o < env_observation_space_n (base_environment self) →
  ∃ space ints,
    make_observation_space (adapter_class self) (base_environment self) = Ok space ∧
    compute_tensor_observation float_of_Z self o = Ok (map float_of_Z ints) ∧
    shape space = [Z.of_nat (length ints)] ∧
    length (low space) = length ints ∧
    length (high space) = length ints ∧
    ∀ i x lo hi, ints !! i = Some x → low space !! i = Some lo →
                 high space !! i = Some hi → lo <= x <= hi.
Proof.
  intros Hin. unfold make_observation_space, compute_tensor_observation.
  set (n := env_observation_space_n (base_environment self)) in *.
  destruct (adapter_class self).
  - exists (mkBox [0] [n - 1] [1]), [obs_value o]. simpl.
    do 5 (split; [done|]).
    intros [|i] x lo hi Hx Hlo Hhi; simplify_eq/=. lia.
  - assert (match o with ObsTensor z | ObsInt z => z end = obs_value o) as ->
      by (by destruct o).
    rewrite (one_hot_entries _ _ Hin). unfold np_full.
    destruct (n <? 0) eqn:En; [lia|]. simpl.
    eexists _, _. split; [reflexivity|]. split; [reflexivity|]. simpl.
    rewrite !length_replicate, length_map, length_seq.
    split; [f_equal; lia|]. split; [done|]. split; [done|].
    intros i x lo hi Hx Hlo Hhi.
    apply lookup_replicate in Hlo as [-> _]. apply lookup_replicate in Hhi as [-> _].
    rewrite list_lookup_fmap in Hx.
    destruct (seq 0 (Z.to_nat n) !! i) as [j|]; simplify_eq/=.
    destruct (Z.of_nat j =? obs_value o); lia.
Qed.

End BoxObservations.

Lemma adapter_step_raises_witness :
  BoxObservationsEnvironmentBase.step (fun z => z) Samples.broken_adapter tt
  = Raise RuntimeError.
Proof.
  destruct (adapter_step_raises (fun z : Z => z) Samples.broken_adapter tt)
    as [_ Hreturn].
  specialize (Hreturn (Samples.mkCycle 1 0)
    {| observation := ObsInt 1; reward := 1; terminated := false;
       truncated := false; info := (∅ : gmap string Z) |} eq_refl).
  simpl in Hreturn. apply Hreturn; [done|]. lia.
Defined.

Lemma observation_within_declared_space_witness :
  ∃ space,
    BoxObservationsEnvironmentBase.make_observation_space
      BoxObservationsEnvironmentBase.OneHotObservationsFromDiscrete
      (Samples.mkCycle 1 3) = Ok space ∧
    BoxObservationsEnvironmentBase.low space = [0; 0; 0] ∧
    BoxObservationsEnvironmentBase.high space = [1; 1; 1] ∧
    BoxObservationsEnvironmentBase.compute_tensor_observation (fun z => z)
      (Samples.one_hot_adapter 1) (ObsInt 2) = Ok [0; 0; 1].
Proof.
  destruct (observation_within_declared_space (fun z : Z => z)
              (Samples.one_hot_adapter 1) (ObsInt 2))
    as (space & ints & Hspace & Hobs & _).
  - simpl. lia.
  - exists space. split; [exact Hspace|].
    vm_compute in Hspace. injection Hspace as <-.
    split; [done|]. split; [done|]. reflexivity.
Defined.

End EnvironmentsMore.

(** ** neural_networks/common/utils.py: mlp_block *)

Module MlpBlockMore.
Import NN Utils.

Section MlpBlock.
Context {Float : Type} (float_pos : Float → bool).
Context {torch : Constructors} (Dropout_args : Float → result unit).
Variables (use_batch_norm use_layer_norm : bool) (hidden_activation : string)
  (dropout_ratio : Float).

Abbreviation hidden_loop' skip :=
  (hidden_loop float_pos Dropout_args use_batch_norm use_layer_norm
     hidden_activation dropout_ratio skip).
Abbreviation single_layers' :=
  (single_layers float_pos Dropout_args use_batch_norm use_layer_norm
     hidden_activation dropout_ratio).
Abbreviation mlp_block' skip :=
  (mlp_block float_pos Dropout_args use_batch_norm use_layer_norm
     hidden_activation dropout_ratio skip).
Abbreviation layer_accepted' :=
  (layer_accepted float_pos Dropout_args use_batch_norm use_layer_norm
     dropout_ratio).
Abbreviation constructors_accept' :=
  (constructors_accept float_pos Dropout_args use_batch_norm use_layer_norm
     dropout_ratio).
Abbreviation built_layers' :=
  (built_layers float_pos use_batch_norm use_layer_norm dropout_ratio).

(** Without skip connections the loop logs nothing. *)
Lemma hidden_loop_plain (act : Activation) (dims : list Z) (range : list nat) :
  activation_of hidden_activation = Ok act →
  (∀ i, i ∈ range → (i + 1 < length dims)%nat) →
  (∀ i a b, i ∈ range → dims !! i = Some a → dims !! (i + 1)%nat = Some b →
            layer_accepted' a b) →
  ∀ layers log, ∃ new,
    hidden_loop' false dims range layers log = (log, Ok (layers ++ new)) ∧
    length new = length range ∧
    ∀ k i a b, range !! k = Some i → dims !! i = Some a →
      dims !! (i + 1)%nat = Some b →
      new !! k = Some (Sequential (built_layers' act a b)).
Proof.
  intros Hact. induction range as [|i range IH]; intros Hrange Hacc layers log.
  - exists []. simpl. unfold lret. rewrite app_nil_r.
    split; [done|]. split; [done|]. intros k i a b Hk. by rewrite lookup_nil in Hk.
  - assert (i + 1 < length dims)%nat as Hi by (apply Hrange; left).
    destruct (lookup_lt_is_Some_2 dims i) as [a Ha]; [lia|].
    destruct (lookup_lt_is_Some_2 dims (i + 1)) as [b Hb]; [lia|].
    assert (single_layers' a b = Ok (built_layers' act a b)) as Hsl.
    { apply MlpBlockSpec.single_layers_run; [done|].
      apply (Hacc i); [left|done|done]. }
    destruct (IH (fun j Hj => Hrange j (list_elem_of_further _ _ _ Hj))
                (fun j a' b' Hj => Hacc j a' b' (list_elem_of_further _ _ _ Hj))
                (layers ++ [Sequential (built_layers' act a b)]) log)
      as (new & Hrun & Hlen & Hnew).
    exists (Sequential (built_layers' act a b) :: new). split; [|split].
    + simpl. unfold lbind at 1.
      rewrite (MlpBlockSpec.hidden_layer_run float_pos Dropout_args use_batch_norm
                 use_layer_norm hidden_activation dropout_ratio
                 false dims layers i a b _ log Ha Hb Hsl).
      simpl. rewrite app_nil_r. rewrite Hrun. by rewrite <- app_assoc.
    + simpl. by rewrite Hlen.
    + intros [|k] j a' b' Hk Ha' Hb'; simpl in Hk.
      * injection Hk as <-. rewrite Ha in Ha'. rewrite Hb in Hb'.
        injection Ha' as <-. by injection Hb' as <-.
      * by apply (Hnew k j a' b').
Qed.

(** X4. Without skip connections, with activation names of
    [ACTIVATION_MAP] and constructors that accept the arguments of their
    calls, [mlp_block] logs nothing and returns a network of
    len(hidden_dims) + 1 layers: layer [i] is the sequence of
    [Linear(dims[i], dims[i + 1])], the optional layer norm and dropout, the
    hidden activation and the optional batch norm, and the last layer is
    [Linear(dims[-2], dims[-1])], followed by the last activation when one is
    given. *)
Theorem mlp_block_plain_layers
    (input_dim : Z) (hidden_dims : list Z) (output_dim : Z)
    (last_activation : option string) (act : Activation) (log : list LogRecord) :
  ACTIVATION_MAP !! hidden_activation = Some act →
  valid_last_activation last_activation →
  let dims := [input_dim] ++ hidden_dims ++ [output_dim] in
  constructors_accept' dims →
  ∃ layers last_layer,
    mlp_block' false input_dim (Some hidden_dims) output_dim last_activation log
    = (log, Ok (Sequential (layers ++ [Sequential last_layer]))) ∧
    length layers = length hidden_dims ∧
    (∀ i a b, (i < length hidden_dims)%nat →
       dims !! i = Some a → dims !! (i + 1)%nat = Some b →
       layers !! i = Some (Sequential (built_layers' act a b))) ∧
    head last_layer = Some (Linear (List.last hidden_dims input_dim) output_dim) ∧
    length last_layer = match last_activation with
                        | Some _ => 2%nat
                        | None => 1%nat
                        end.
Proof.
  intros Hact Hlast dims Haccept. subst dims.
  assert (activation_of hidden_activation = Ok act) as Hact'
    by (unfold activation_of; by rewrite Hact).
  destruct (MlpBlockSpec.dims_last_two input_dim output_dim hidden_dims)
    as [Hd2 Hd1].
  cbv zeta in Hd2, Hd1.
  set (dims := [input_dim] ++ hidden_dims ++ [output_dim]) in *.
  assert (length dims - 2 = length hidden_dims)%nat as Hlen.
  { subst dims. rewrite !length_app. simpl. lia. }
  destruct (hidden_loop_plain act dims (seq 0 (length dims - 2)) Hact')
    with (layers := @nil (@NNModule Float)) (log := log)
    as (new & Hrun & Hnewlen & Hnew).
  { intros i Hi. apply list_elem_of_In, in_seq in Hi. lia. }
  { intros i a b Hi. apply list_elem_of_In, in_seq in Hi.
    apply (proj1 Haccept). lia. }
  destruct (MlpBlockSpec.last_layer_defined (Float:=Float) last_activation
              (List.last hidden_dims input_dim) output_dim Hlast)
    as (ll & Hll & Hhead & Hlength); [by apply Haccept|].
  exists new, ll. split; [|split; [|split; [|split]]]; [| |
    |exact Hhead|exact Hlength].
  - unfold mlp_block. fold dims. unfold lbind, lift.
    rewrite Hrun, Hd2, Hd1, Hll. reflexivity.
  - by rewrite Hnewlen, length_seq.
  - intros i a b Hi Ha Hb. apply (Hnew i i a b); [|done|done].
    rewrite Hlen. apply lookup_seq. lia.
Qed.

(** An exception of the first iteration is the exception of the call,
    with nothing logged. *)
Lemma first_layer_raises (skip : bool) (input_dim output_dim h : Z)
    (rest : list Z) (last_activation : option string) (log : list LogRecord)
    (e : PyExc) :
  single_layers' input_dim h = Raise e →
  mlp_block' skip input_dim (Some (h :: rest)) output_dim last_activation log
  = (log, Raise e).
Proof.
  intros Hsl. unfold mlp_block. rewrite !length_app. simpl length.
  replace (1 + (S (length rest) + 1) - 2)%nat with (S (length rest)) by lia.
  simpl seq. simpl hidden_loop. unfold lbind at 1 2.
  unfold hidden_layer, lbind, lift, dims_at. simpl lookup.
  replace ((h :: rest ++ [output_dim]) !! 0%nat) with (Some h) by done.
  cbv beta iota. by rewrite Hsl.
Qed.

(** X5. What makes [mlp_block] raise besides a skip-connection mismatch,
    and in which order.  [hidden_dims=None] is a [TypeError].  With a hidden
    layer, the constructors of the first iteration come before the
    activation: what [nn.Linear] raises on the first two dimensions, or
    [nn.Dropout] on the ratio, is raised whatever the activation name is, and
    an unknown [hidden_activation] is a [KeyError] when these constructors
    accept their arguments.  Nothing is logged before any of these.  When
    [hidden_dims] is empty the hidden-layer options are never read.  An
    unknown [last_activation] is a [KeyError] once the hidden layers and the
    last linear layer are built. *)
Theorem mlp_block_errors (skip : bool) (input_dim output_dim : Z)
    (last_activation : option string) (log : list LogRecord) :
  mlp_block' skip input_dim None output_dim last_activation log
  = (log, Raise TypeError) ∧
  (∀ h rest e,
     Linear_args input_dim h = Raise e →
     mlp_block' skip input_dim (Some (h :: rest)) output_dim last_activation log
     = (log, Raise e)) ∧
  (∀ h rest e,
     Linear_args input_dim h = Ok tt →
     (use_layer_norm = true → LayerNorm_args h = Ok tt) →
     float_pos dropout_ratio = true →
     Dropout_args dropout_ratio = Raise e →
     mlp_block' skip input_dim (Some (h :: rest)) output_dim last_activation log
     = (log, Raise e)) ∧
  (∀ h rest,
     ACTIVATION_MAP !! hidden_activation = None →
     Linear_args input_dim h = Ok tt →
     (use_layer_norm = true → LayerNorm_args h = Ok tt) →
     (float_pos dropout_ratio = true → Dropout_args dropout_ratio = Ok tt) →
     mlp_block' skip input_dim (Some (h :: rest)) output_dim last_activation log
     = (log, Raise KeyError)) ∧
  (∀ (bn ln : bool) (name : string) (ratio : Float),
     mlp_block' skip input_dim (Some []) output_dim last_activation log
     = mlp_block float_pos Dropout_args bn ln name ratio skip input_dim (Some [])
         output_dim last_activation log) ∧
  (∀ hidden_dims name,
     is_Some (ACTIVATION_MAP !! hidden_activation) →
     ACTIVATION_MAP !! name = None →
     constructors_accept' ([input_dim] ++ hidden_dims ++ [output_dim]) →
     (mlp_block' skip input_dim (Some hidden_dims) output_dim (Some name) log).2
     = Raise KeyError).
Proof.
  split; [done|]. split; [|split; [|split; [|split; [done|]]]].
  - intros h rest e Hlinear. apply first_layer_raises.
    unfold single_layers, nn_Linear. by rewrite Hlinear.
  - intros h rest e Hlinear Hln Hpos Hdropout. apply first_layer_raises.
    unfold single_layers, nn_Linear, nn_LayerNorm, nn_Dropout.
    rewrite Hlinear, Hpos, Hdropout. cbn [mbind result_bind].
    destruct use_layer_norm; [rewrite Hln by done|]; reflexivity.
  - intros h rest Hnone Hlinear Hln Hdropout. apply first_layer_raises.
    unfold single_layers, nn_Linear, nn_LayerNorm, nn_Dropout, activation_of.
    rewrite Hlinear, Hnone. cbn [mbind result_bind].
    destruct use_layer_norm; [rewrite Hln by done|];
      (destruct (float_pos dropout_ratio); [rewrite Hdropout by done|]);
      reflexivity.
  - intros hidden_dims name [act Hact] Hnone Haccept.
    assert (activation_of hidden_activation = Ok act) as Hact'
      by (unfold activation_of; by rewrite Hact).
    destruct (MlpBlockSpec.dims_last_two input_dim output_dim hidden_dims)
      as [Hd2 Hd1].
    cbv zeta in Hd2, Hd1.
    destruct (MlpBlockSpec.hidden_layers_run float_pos Dropout_args use_batch_norm
                use_layer_norm hidden_activation dropout_ratio skip act
                input_dim output_dim hidden_dims log Hact' Haccept)
      as (new & ws & Hrun & _).
    unfold mlp_block, lbind, lift.
    rewrite Hrun, Hd2, Hd1. unfold nn_Linear, activation_of.
    rewrite (proj2 Haccept _ _ Hd2 Hd1), Hnone. reflexivity.
Qed.

End MlpBlock.

(** The sample constructors accept dimensions that are not negative. *)
Lemma sample_constructors_accept (bn ln : bool) (p : QArith_base.Q)
    (dims : list Z) :
  Forall (fun d => 0 <= d) dims →
  Samples.dropout_args p = Ok tt →
  constructors_accept (torch:=Samples.torch_constructors) Samples.ratio_pos
    Samples.dropout_args bn ln p dims.
Proof.
  intros Hdims Hp.
  assert (∀ i d, dims !! i = Some d → (0 <=? d) = true) as Hd.
  { intros i d Hi. apply Z.leb_le.
    by apply (proj1 (Forall_lookup _ _) Hdims i d). }
  assert (∀ i a b, dims !! i = Some a → dims !! (i + 1)%nat = Some b →
            layer_accepted (torch:=Samples.torch_constructors) Samples.ratio_pos
              Samples.dropout_args bn ln p a b) as Hlayer.
  { intros i a b Ha Hb. unfold layer_accepted. cbn.
    unfold Samples.rejects_negative. cbn.
    rewrite (Hd _ _ Ha), (Hd _ _ Hb). done. }
  split.
  - intros i a b _. apply Hlayer.
  - intros a b. unfold dims_from_end, dims_at.
    destruct (2 <=? length dims)%nat; [|done].
    destruct (1 <=? length dims)%nat; [|done].
    destruct (dims !! (length dims - 2)%nat) as [a'|] eqn:Ha; [|done].
    destruct (dims !! (length dims - 1)%nat) as [b'|] eqn:Hb; [|done].
    intros [= <-] [= <-]. cbn. unfold Samples.rejects_negative. cbn.
    by rewrite (Hd _ _ Ha), (Hd _ _ Hb).
Qed.

(** [mlp_block(3, [4, 5], 2, use_batch_norm=True, dropout_ratio=0.5,
    last_activation="tanh")] has three layers, the second one being
    [Linear(4, 5)], [Dropout(0.5)], [ReLU()], [BatchNorm1d(5)]. *)
Lemma mlp_block_plain_layers_witness :
  ∃ layers,
    (mlp_block (torch:=Samples.torch_constructors) Samples.ratio_pos
       Samples.dropout_args true false "relu" (Samples.ratio 1 2) false
       3 (Some [4; 5]) 2 (Some "tanh"%string) []).2 = Ok (Sequential layers) ∧
    length layers = 3%nat ∧
    layers !! 1%nat
    = Some (Sequential [Linear 4 5; Dropout (Samples.ratio 1 2); Act ReLU;
                        BatchNorm1d 5]).
Proof.
  destruct (mlp_block_plain_layers (torch:=Samples.torch_constructors)
              Samples.ratio_pos Samples.dropout_args true false "relu"
              (Samples.ratio 1 2) 3 [4; 5] 2 (Some "tanh"%string) ReLU [])
    as (layers & last_layer & Hrun & Hlen & Hlayers & _).
  - reflexivity.
  - by eexists.
  - apply sample_constructors_accept; [|reflexivity].
    repeat constructor; lia.
  - eexists. rewrite Hrun. split; [reflexivity|].
    split; [rewrite length_app, Hlen; reflexivity|].
    rewrite lookup_app_l by (rewrite Hlen; simpl; lia).
    rewrite (Hlayers 1%nat 4 5) by (simpl; (lia || reflexivity)). reflexivity.
Defined.

(** An activation name that [ACTIVATION_MAP] lacks, alone, after a dropout
    ratio of 2, after a negative size, and as the last activation. *)
Lemma mlp_block_errors_witness :
  mlp_block (torch:=Samples.torch_constructors) Samples.ratio_pos
    Samples.dropout_args false false "gelu" (Samples.ratio 0 1) false
    3 (Some [4]) 2 None [] = ([], Raise KeyError) ∧
  mlp_block (torch:=Samples.torch_constructors) Samples.ratio_pos
    Samples.dropout_args false false "gelu" (Samples.ratio 2 1) false
    3 (Some [4]) 2 None [] = ([], Raise ValueError) ∧
  mlp_block (torch:=Samples.torch_constructors) Samples.ratio_pos
    Samples.dropout_args false false "gelu" (Samples.ratio 0 1) false
    3 (Some [-4]) 2 None [] = ([], Raise RuntimeError) ∧
  (mlp_block (torch:=Samples.torch_constructors) Samples.ratio_pos
     Samples.dropout_args false false "relu" (Samples.ratio 0 1) false
     3 (Some [4]) 2 (Some "gelu"%string) []).2 = Raise KeyError.
Proof.
  destruct (mlp_block_errors (torch:=Samples.torch_constructors)
              Samples.ratio_pos Samples.dropout_args false false "gelu"
              (Samples.ratio 0 1) false 3 2 None [])
    as (_ & Hlinear & _ & Hhidden & _).
  destruct (mlp_block_errors (torch:=Samples.torch_constructors)
              Samples.ratio_pos Samples.dropout_args false false "gelu"
              (Samples.ratio 2 1) false 3 2 None [])
    as (_ & _ & Hdropout & _).
  destruct (mlp_block_errors (torch:=Samples.torch_constructors)
              Samples.ratio_pos Samples.dropout_args false false "relu"
              (Samples.ratio 0 1) false 3 2 None [])
    as (_ & _ & _ & _ & _ & Hlast).
  split; [|split; [|split]].
  - apply Hhidden; done.
  - apply Hdropout; done.
  - apply Hlinear; done.
  - apply Hlast; [by eexists|done|].
    apply sample_constructors_accept; [|reflexivity].
    repeat constructor; lia.
Defined.

End MlpBlockMore.

(** ** neural_networks/common/utils.py: conv_block *)

Module ConvBlockMore.
Import NN Utils.

Section ConvBlock.
Context {torch : Constructors}.

Lemma conv_group_run (use_batch_norm : bool) (in_channels : Z)
    (spec : Z * Z * Z * Z) :
  group_accepted use_batch_norm in_channels spec →
  conv_group use_batch_norm in_channels spec
  = Ok (built_group use_batch_norm in_channels spec).
Proof.
  destruct spec as [[[out k] st] p]. intros [Hconv Hbn].
  unfold conv_group, built_group. rewrite Hconv. cbn [mbind result_bind].
  destruct (use_batch_norm && (1 <? in_channels)); [rewrite Hbn by done|];
    reflexivity.
Qed.

Lemma conv_loop_groups (use_batch_norm : bool) (specs : list (Z * Z * Z * Z)) :
  ∀ (input_channels_count : Z) (layers : list ConvLayer),
  (∀ j spec, specs !! j = Some spec →
     group_accepted use_batch_norm
       (input_channels_of input_channels_count (specs.*1.*1.*1) j) spec) →
  conv_loop use_batch_norm input_channels_count specs layers
  = Ok (layers ++
        concat (imap (fun j spec =>
                        built_group use_batch_norm
                          (input_channels_of input_channels_count
                             (specs.*1.*1.*1) j)
                          spec) specs)).
Proof.
  induction specs as [|spec specs IH]; intros input_channels_count layers Hacc.
  - simpl. by rewrite app_nil_r.
  - pose proof (Hacc 0%nat spec eq_refl) as Hfirst.
    cbn [input_channels_of] in Hfirst.
    cbn [conv_loop]. rewrite (conv_group_run _ _ _ Hfirst).
    cbn [mbind result_bind]. rewrite IH.
    + rewrite <- app_assoc. cbn [imap concat]. do 4 f_equal.
      apply imap_ext. intros j spec' _. simpl. f_equal. by destruct j.
    + intros j spec' Hj. specialize (Hacc (S j) spec' Hj).
      simpl in Hacc. by destruct j.
Qed.

Lemma zip4_lookup (outs ks ss ps : list Z) (j : nat) (o k st p : Z) :
  outs !! j = Some o → ks !! j = Some k → ss !! j = Some st → ps !! j = Some p →
  zip4 outs ks ss ps !! j = Some (o, k, st, p).
Proof.
  intros Ho Hk Hs Hp. unfold zip4.
  rewrite !lookup_zip_with, Ho, Hk, Hs, Hp. reflexivity.
Qed.

Lemma zip4_lookup_inv (outs ks ss ps : list Z) (j : nat) (o k st p : Z) :
  zip4 outs ks ss ps !! j = Some (o, k, st, p) →
  outs !! j = Some o ∧ ks !! j = Some k ∧ ss !! j = Some st ∧ ps !! j = Some p.
Proof.
  unfold zip4. rewrite !lookup_zip_with.
  destruct (outs !! j), (ks !! j), (ss !! j), (ps !! j); intros; by simplify_eq/=.
Qed.

Lemma zip4_length (outs ks ss ps : list Z) :
  length (zip4 outs ks ss ps)
  = Nat.min (Nat.min (Nat.min (length outs) (length ks)) (length ss)) (length ps).
Proof. unfold zip4. by rewrite !length_zip_with. Qed.

Lemma zip4_outs (outs ks ss ps : list Z) (j : nat) :
  (j < length (zip4 outs ks ss ps))%nat →
  (zip4 outs ks ss ps).*1.*1.*1 !! j = outs !! j.
Proof.
  intros Hj. rewrite !list_lookup_fmap.
  destruct (lookup_lt_is_Some_2 _ _ Hj) as [[[[o k] st] p] Hspec].
  rewrite Hspec. simpl. unfold zip4 in Hspec.
  rewrite !lookup_zip_with in Hspec.
  destruct (outs !! j), (ks !! j), (ss !! j), (ps !! j); by simplify_eq/=.
Qed.

(** The input channels of convolution [j], read off the zipped list or off
    the list of output channels. *)
Lemma input_channels_of_zip4 (input_channels_count : Z)
    (outs ks ss ps : list Z) (j : nat) :
  (j < length (zip4 outs ks ss ps))%nat →
  input_channels_of input_channels_count ((zip4 outs ks ss ps).*1.*1.*1) j
  = input_channels_of input_channels_count outs j.
Proof.
  intros Hj. destruct j as [|j]; [done|]. simpl.
  rewrite zip4_outs by lia. done.
Qed.

(** X6. When the constructors accept the arguments of their calls,
    [conv_block] builds one group of layers per position present in all four
    lists (the shortest list decides): a convolution, a batch norm when
    [use_batch_norm] is set and the convolution has more than one input
    channel, and a ReLU.  The convolutions chain: the first reads
    [input_channels_count] channels, every later one the output channels of
    the one before.  The batch norm of a group is sized by the input channels
    of its convolution. *)
Theorem conv_block_groups (input_channels_count : Z)
    (output_channels_list kernel_sizes strides paddings : list Z)
    (use_batch_norm : bool) :
  (∀ j out k st p,
     output_channels_list !! j = Some out → kernel_sizes !! j = Some k →
     strides !! j = Some st → paddings !! j = Some p →
     group_accepted use_batch_norm
       (input_channels_of input_channels_count output_channels_list j)
       (out, k, st, p)) →
  ∃ groups,
    conv_block input_channels_count output_channels_list kernel_sizes strides
      paddings use_batch_norm = Ok (concat groups) ∧
    length groups
    = Nat.min (Nat.min (Nat.min (length output_channels_list)
                                (length kernel_sizes))
                       (length strides))
              (length paddings) ∧
    ∀ j out k st p,
      output_channels_list !! j = Some out → kernel_sizes !! j = Some k →
      strides !! j = Some st → paddings !! j = Some p →
      let in_channels :=
        match j with
        | O => input_channels_count
        | S j' => default 0 (output_channels_list !! j')
        end in
      groups !! j
      = Some ([Conv2d in_channels out k st p]
              ++ (if use_batch_norm && (1 <? in_channels)
                  then [BatchNorm2d in_channels] else [])
              ++ [ConvReLU]).
Proof.
  intros Hacc.
  set (specs := zip4 output_channels_list kernel_sizes strides paddings).
  exists (imap (fun j spec =>
                  built_group use_batch_norm
                    (input_channels_of input_channels_count (specs.*1.*1.*1) j)
                    spec) specs).
  split; [|split].
  - unfold conv_block. fold specs. rewrite conv_loop_groups; [done|].
    intros j [[[out k] st] p] Hspec.
    unfold specs. rewrite input_channels_of_zip4
      by (apply lookup_lt_Some in Hspec; exact Hspec).
    apply zip4_lookup_inv in Hspec as (Ho & Hk & Hs & Hp). by apply Hacc.
  - rewrite length_imap. apply zip4_length.
  - intros j out k st p Ho Hk Hs Hp in_channels.
    rewrite list_lookup_imap.
    pose proof (zip4_lookup _ _ _ _ j out k st p Ho Hk Hs Hp) as Hspec.
    fold specs in Hspec. rewrite Hspec. simpl.
    unfold specs. rewrite input_channels_of_zip4
      by (apply lookup_lt_Some in Hspec; exact Hspec).
    reflexivity.
Qed.

End ConvBlock.

(** Two convolutions from three input channels, with batch norm. *)
Lemma conv_block_groups_witness :
  conv_block (torch:=Samples.torch_constructors)
    3 [8; 16] [5; 3] [1; 1] [2; 1; 0] true
  = Ok [Conv2d 3 8 5 1 2; BatchNorm2d 3; ConvReLU;
        Conv2d 8 16 3 1 1; BatchNorm2d 8; ConvReLU].
Proof.
  destruct (conv_block_groups (torch:=Samples.torch_constructors)
              3 [8; 16] [5; 3] [1; 1] [2; 1; 0] true)
    as (groups & Hrun & Hlen & Hgroups).
  - intros [|[|j]] out k st p Ho Hk Hs Hp; simplify_eq/=; by split.
  - pose proof (Hgroups 0%nat 8 5 1 2 eq_refl eq_refl eq_refl eq_refl) as H0.
    pose proof (Hgroups 1%nat 16 3 1 1 eq_refl eq_refl eq_refl eq_refl) as H1.
    destruct groups as [|g0 [|g1 [|g2 ?]]]; simplify_eq/=.
    exact Hrun.
Defined.

End ConvBlockMore.

(** ** neural_networks/common/utils.py: target networks *)

Module TargetNetworksMore.
Import Utils.

Section TargetNetworks.
Context {Tensor Scalar : Type}.
Context (scale : Scalar → Tensor → Tensor) (add : Tensor → Tensor → Tensor)
  (one_minus : Scalar → Scalar).

Abbreviation soft_update' := (soft_update scale add one_minus).
Abbreviation soft_update_key' := (soft_update_key scale add one_minus).
Abbreviation update_target_network' := (update_target_network scale add one_minus).
Abbreviation update_target_networks' := (update_target_networks scale add one_minus).

(** A key of the source that the target lacks ends the loop with a
    [KeyError], wherever in the iteration it comes. *)
Lemma soft_update_loop_missing (tau : Scalar)
    (target_sd source_sd : gmap string Tensor) :
  ¬ dom source_sd ⊆ dom target_sd →
  map_fold (soft_update_key' tau) (Ok target_sd) source_sd = Raise KeyError.
Proof.
  revert source_sd.
  apply (map_fold_weak_ind
    (fun r (m : gmap string Tensor) =>
       (dom m ⊆ dom target_sd → ∃ new, r = Ok new ∧ dom new = dom target_sd) ∧
       (¬ dom m ⊆ dom target_sd → r = Raise KeyError))).
  - split; [|set_solver]. intros _. by exists target_sd.
  - intros key sv m r Hfresh [IHin IHout]. rewrite dom_insert.
    destruct (decide (dom m ⊆ dom target_sd)) as [Hm|Hm].
    + destruct (IHin Hm) as (new & -> & Hdom). unfold soft_update_key. simpl.
      destruct (new !! key) as [tv|] eqn:Hkey.
      * assert (key ∈ dom target_sd) by (rewrite <- Hdom; by apply elem_of_dom).
        split; [|set_solver]. intros _. eexists. split; [done|].
        rewrite dom_insert_L, Hdom. set_solver.
      * assert (key ∉ dom target_sd) by (rewrite <- Hdom; by apply not_elem_of_dom).
        split; [set_solver|done].
    + rewrite (IHout Hm). split; [set_solver|done].
Qed.


(** One update changes the state dictionary of its target only. *)
Lemma update_target_network_frame (store store' : gmap nat (gmap string Tensor))
    (target_network source_network : nat) (tau : Scalar) :
  update_target_network' store target_network source_network tau = Ok store' →
  dom store' = dom store ∧
  ∀ other, other ≠ target_network → store' !! other = store !! other.
Proof.
  unfold update_target_network, state_dict, load_state_dict, state_dict.
  destruct (store !! target_network) as [target_sd|] eqn:Ht; [|done].
  destruct (store !! source_network) as [source_sd|]; [|done]. simpl.
  destruct (map_fold _ _ _) as [new|]; [|done]. simpl.
  destruct (decide _); [|done]. intros [= <-]. split.
  - rewrite dom_insert_L. apply elem_of_dom_2 in Ht. set_solver.
  - intros other Hne. by rewrite lookup_insert_ne.
Qed.

Lemma update_loop_raised (e : PyExc) (tau : Scalar) (pairs : list (nat * nat)) :
  foldl (fun acc '(target_network, source_network) =>
           store ← acc;
           update_target_network' store target_network source_network tau)
        (Raise e) pairs = Raise e.
Proof. induction pairs as [|[t s] pairs IH]; simpl; [done|]. exact IH. Qed.

(** X8. Whatever the lists hold, a call of [update_target_networks] that
    returns has changed no network other than the targets that have a
    partner in the other list ([zip] stops at the shorter list), and has
    neither added nor removed a network. *)
Theorem update_target_networks_frame (tau : Scalar) (targets sources : list nat)
    (store store' : gmap nat (gmap string Tensor)) :
  update_target_networks' store targets sources tau = Ok store' →
  dom store' = dom store ∧
  ∀ other, other ∉ take (length sources) targets →
           store' !! other = store !! other.
Proof.
  revert sources store.
  induction targets as [|t targets IH]; intros sources store.
  - intros [= <-]. split; done.
  - destruct sources as [|s sources]; [intros [= <-]; split; done|].
    unfold update_target_networks in *. simpl.
    destruct (update_target_network' store t s tau) as [store1|e] eqn:Hfirst.
    + intros Hrest. destruct (IH sources store1 Hrest) as [Hdom Hframe].
      destruct (update_target_network_frame _ _ _ _ _ Hfirst) as [Hdom1 Hframe1].
      split; [by rewrite Hdom|].
      intros other Hother. apply not_elem_of_cons in Hother as [Hne Hother].
      rewrite Hframe by done. by apply Hframe1.
    + rewrite update_loop_raised. done.
Qed.

End TargetNetworks.


(** Two targets and one source: the second target has no partner and keeps
    its parameters. *)
Lemma update_target_networks_frame_witness :
  ∃ store',
    update_target_networks Z.mul Z.add (fun c => 1 - c)
      Samples.sample_store [0%nat; 1%nat] [1%nat] 3 = Ok store' ∧
    store' !! 1%nat = Samples.sample_store !! 1%nat.
Proof.
  destruct (update_target_networks Z.mul Z.add (fun c => 1 - c)
              Samples.sample_store [0%nat; 1%nat] [1%nat] 3) as [store'|e] eqn:Hrun;
    [|by vm_compute in Hrun].
  exists store'. split; [done|].
  destruct (update_target_networks_frame Z.mul Z.add (fun c => 1 - c) 3
              [0%nat; 1%nat] [1%nat] Samples.sample_store store' Hrun)
    as [_ Hframe].
  apply Hframe. simpl. intros H.
  apply elem_of_cons in H as [H|H]; [discriminate H|]. by apply elem_of_nil in H.
Defined.

End TargetNetworksMore.

(** ** neural_networks/common/utils.py: ensemble_forward *)

Module EnsembleMore.
Import Utils.

Section EnsembleForward.
Context {Elem State : Type}.
Implicit Types (models : list (@Model Elem State)) (features : @Tensor3 Elem).


Lemma chunks_shape {A : Type} (count size : nat) (flat : list A) :
  length flat = (count * size)%nat →
  length (chunks count size flat) = count ∧
  Forall (fun c => length c = size) (chunks count size flat).
Proof.
  revert flat. induction count as [|count IH]; intros flat Hlen; simpl; [done|].
  destruct (IH (drop size flat)) as [IH1 IH2].
  { rewrite length_drop. lia. }
  split; [by rewrite IH1|]. constructor; [|done].
  rewrite length_take. lia.
Qed.

(** X10. With models that yield [k] elements per feature row,
    [ensemble_forward] returns [batch_size] rows of [n * k] entries: the
    result has shape (batch_size, n) only for [k = 1]. *)
Theorem ensemble_forward_shape_for_wide_models models features (k : nat) :
  models ≠ [] →
  structurally_identical models →
  well_shaped features →
  length models = shape1 features →
  (0 < shape0 features)%nat →
  (∀ m, m ∈ models → ∀ st x, length (forward m st x) = (k * length x)%nat) →
  ∃ out,
    ensemble_forward models features = Ok out ∧
    length out = shape0 features ∧
    Forall (fun r => length r = (shape1 features * k)%nat) out.
Proof.
  intros Hne Hsame Hw Hlen Hpos Hwide.
  destruct (head models) as [model0|] eqn:Hhead; [|by destruct models].
  pose proof (EnsembleSpec.stacked_is_loop models features model0 Hhead Hsame Hw Hlen)
    as Hstack.
  set (outs := imap (fun i model => call model (column features i)) models) in *.
  assert (Forall (fun o => length o = (k * shape0 features)%nat) outs) as Hall.
  { apply Forall_lookup. intros i o. unfold outs. rewrite list_lookup_imap.
    destruct (models !! i) as [m|] eqn:Hm; simpl; [|done].
    intros [= <-]. unfold call.
    rewrite (Hwide m (list_elem_of_lookup_2 _ _ _ Hm)). f_equal.
    apply EnsembleSpec.permuted_slice; [done|].
    rewrite <- Hlen. by eapply lookup_lt_Some. }
  destruct (EnsembleSpec.chunks_concat _ outs Hall) as [_ Hflat].
  assert (length outs = shape1 features) as Houts
    by (unfold outs; by rewrite length_imap).
  destruct (chunks_shape (shape1 features * k) (shape0 features) (concat outs))
    as [Hcount Hrows].
  { rewrite Hflat, Houts. lia. }
  exists (transpose (shape0 features)
            (chunks (shape1 features * k) (shape0 features) (concat outs))).
  split; [|split].
  - rewrite (EnsembleSpec.ensemble_forward_head models features model0 Hhead).
    rewrite (EnsembleSpec.vmap_stacks _ _ _ (k * shape0 features)%nat).
    + rewrite Hstack. simpl. unfold view_rows.
      destruct (Nat.eqb_spec (shape0 features) 0) as [?|_]; [lia|].
      rewrite Hflat, Houts.
      replace (shape1 features * (k * shape0 features))%nat
        with (shape1 features * k * shape0 features)%nat by lia.
      rewrite Nat.Div0.mod_mul, Nat.div_mul by lia. reflexivity.
    + rewrite length_map. simpl. exact Hlen.
    + rewrite Hstack. exact Hall.
  - by apply EnsembleSpec.transpose_length.
  - apply Forall_lookup. intros b r Hb.
    assert (b < shape0 features)%nat as Hlt.
    { apply lookup_lt_Some in Hb.
      by rewrite EnsembleSpec.transpose_length in Hb. }
    destruct (EnsembleSpec.transpose_lookup _ _ b Hrows Hlt) as [Hrow Hrowlen].
    rewrite Hrow in Hb. injection Hb as <-. by rewrite Hrowlen.
Qed.

End EnsembleForward.

Lemma two_output_model_wide (offset : Z) (st : Z) (x : list (list Z)) :
  length (forward (Samples.two_output_model offset) st x) = (2 * length x)%nat.
Proof. simpl. induction x as [|r x IH]; simpl; [done|]. rewrite IH. lia. Qed.

(** Three modules with two outputs per row on features of shape (2, 3, 2):
    two rows of six entries. *)
Lemma ensemble_forward_shape_for_wide_models_witness :
  ∃ out,
    ensemble_forward (map Samples.two_output_model [100; 200; 300])
      Samples.sample_features = Ok out ∧
    length out = 2%nat ∧
    Forall (fun r => length r = 6%nat) out.
Proof.
  destruct (ensemble_forward_shape_for_wide_models
              (map Samples.two_output_model [100; 200; 300])
              Samples.sample_features 2)
    as (out & Hrun & Hrows & Hcols).
  - done.
  - intros m0 m Hhead Hm st x.
    apply list_elem_of_fmap in Hm as (o & -> & _). by simplify_eq/=.
  - repeat constructor.
  - reflexivity.
  - simpl. lia.
  - intros m Hm st x. apply list_elem_of_fmap in Hm as (o & -> & _).
    apply two_output_model_wide.
  - exists out. split; [exact Hrun|]. split; [exact Hrows|exact Hcols].
Defined.


End EnsembleMore.

(** ** pearl/neural_networks/value_networks.py *)

Module ValueNetworksMore.
Import NN ValueNetworks Shapes.

(** The last element of a non-empty list does not depend on the default. *)
Lemma last_cons_default (l : list Z) :
  ∀ b d : Z, List.last (b :: l) d = List.last l b.
Proof.
  induction l as [|c l IH]; intros b d; [done|].
  change (List.last (b :: c :: l) d) with (List.last (c :: l) d).
  by rewrite (IH c d), (IH c b).
Qed.

Lemma linear_width_same (a b : Z) : linear_width (a, b) a = Ok b.
Proof. unfold linear_width. cbn [fst snd]. by rewrite Z.eqb_refl. Qed.

Lemma linear_width_other (a b width : Z) :
  width ≠ a → linear_width (a, b) width = Raise RuntimeError.
Proof.
  intros Hw. unfold linear_width. cbn [fst snd].
  by destruct (Z.eqb_spec width a).
Qed.

(** A chain of layers passes the width of its first input size on to its
    last output size. *)
Lemma hiddens_forward_chain (rest : list Z) (a : Z) :
  hiddens_forward linear_width relu_width (zip_with pair (a :: rest) rest) a
  = Ok (List.last rest a).
Proof.
  revert a. induction rest as [|b rest IH]; intros a; [done|].
  change (zip_with pair (a :: b :: rest) (b :: rest))
    with ((a, b) :: zip_with pair (b :: rest) rest).
  cbn [hiddens_forward]. rewrite linear_width_same.
  change (hiddens_forward linear_width relu_width
            (zip_with pair (b :: rest) rest) b = Ok (List.last (b :: rest) a)).
  by rewrite IH, last_cons_default.
Qed.

Section Init.
Context {torch : Constructors}.

Lemma make_linear_accepted (a b : Z) :
  Linear_args a b = Ok tt → make_linear a b = Ok (a, b).
Proof. intros H. unfold make_linear. by rewrite H. Qed.

(** The loop builds one layer per pair of neighbouring hidden dimensions. *)
Lemma init_hiddens_pairs (rest : list Z) :
  ∀ (pre : list Z) (a : Z) (hiddens : list (Z * Z)),
  Forall (fun p => Linear_args p.1 p.2 = Ok tt) (zip (a :: rest) rest) →
  init_hiddens make_linear (pre ++ a :: rest) (seq (length pre) (length rest)) hiddens
  = Ok (hiddens ++ zip (a :: rest) rest).
Proof.
  induction rest as [|b rest IH]; intros pre a hiddens Hacc.
  - simpl. by rewrite app_nil_r.
  - assert ((pre ++ a :: b :: rest) !! length pre = Some a) as H1.
    { rewrite lookup_app_r by lia. by rewrite Nat.sub_diag. }
    assert ((pre ++ a :: b :: rest) !! (length pre + 1)%nat = Some b) as H2.
    { rewrite lookup_app_r by lia.
      by replace (length pre + 1 - length pre)%nat with 1%nat by lia. }
    change (zip (a :: b :: rest) (b :: rest))
      with ((a, b) :: zip (b :: rest) rest) in *.
    apply Forall_cons in Hacc as [Hab Hacc]. cbn [fst snd] in Hab.
    change (seq (length pre) (length (b :: rest)))
      with (length pre :: seq (S (length pre)) (length rest)).
    cbn [init_hiddens]. unfold hidden_dim_at. rewrite H1, H2.
    cbn [mbind result_bind]. rewrite (make_linear_accepted a b Hab).
    cbn [mbind result_bind].
    specialize (IH (pre ++ [a]) b (hiddens ++ [(a, b)]) Hacc).
    rewrite length_app, <- !app_assoc in IH. simpl in IH.
    replace (length pre + 1)%nat with (S (length pre)) in IH by lia.
    exact IH.
Qed.

Lemma init_run (input_dim output_dim first : Z) (rest : list Z) :
  Linear_args input_dim first = Ok tt →
  Forall (fun p => Linear_args p.1 p.2 = Ok tt) (zip (first :: rest) rest) →
  Linear_args (List.last rest first) output_dim = Ok tt →
  init make_linear input_dim (first :: rest) output_dim
  = Ok (mkVanilla (input_dim, first) (zip (first :: rest) rest)
          (List.last rest first, output_dim)).
Proof.
  intros Hfirst Hrest Hlast.
  pose proof (init_hiddens_pairs rest [] first [] Hrest) as Hhiddens.
  change ([] ++ first :: rest) with (first :: rest) in Hhiddens.
  change (length (@nil Z)) with 0%nat in Hhiddens.
  assert ((first :: rest) !! length rest = Some (List.last rest first)) as Hlookup.
  { clear. revert first.
    induction rest as [|b rest IH]; intros first; [done|].
    change ((b :: rest) !! length rest = Some (List.last (b :: rest) first)).
    by rewrite IH, last_cons_default. }
  unfold init.
  replace (length (first :: rest) - 1)%nat with (length rest) by (simpl; lia).
  rewrite Hhiddens. unfold hidden_dim_at. rewrite Hlookup.
  change ((first :: rest) !! 0%nat) with (Some first).
  cbn [mbind result_bind].
  rewrite (make_linear_accepted _ _ Hfirst). cbn [mbind result_bind].
  by rewrite (make_linear_accepted _ _ Hlast).
Qed.

(** X11. [VanillaValueNetwork.__init__] needs at least one hidden
    dimension: an empty [hidden_dims] is an [IndexError], raised before any
    layer is built.  What [nn.Linear] raises on [input_dim] and the first
    hidden dimension is raised by [__init__].  When [nn.Linear] accepts the
    sizes of every call, [__init__] builds one inner layer per pair of
    neighbouring hidden dimensions, and the layers fit one another: by the
    shape rule of [nn.Linear], [forward] maps an input whose last dimension is
    [input_dim] to an output whose last dimension is [output_dim], and raises
    on an input of any other width. *)
Theorem vanilla_network_is_well_dimensioned
    (input_dim output_dim first : Z) (rest : list Z) :
  init make_linear input_dim [] output_dim = Raise IndexError ∧
  (∀ e, Linear_args input_dim first = Raise e →
        init make_linear input_dim (first :: rest) output_dim = Raise e) ∧
  (Linear_args input_dim first = Ok tt →
   Forall (fun p => Linear_args p.1 p.2 = Ok tt) (zip (first :: rest) rest) →
   Linear_args (List.last rest first) output_dim = Ok tt →
   ∃ net,
     init make_linear input_dim (first :: rest) output_dim = Ok net ∧
     length (hiddens net) = length rest ∧
     forward linear_width relu_width net input_dim = Ok output_dim ∧
     ∀ width, width ≠ input_dim →
              forward linear_width relu_width net width = Raise RuntimeError).
Proof.
  split; [done|]. split.
  - intros e He. unfold init, make_linear.
    change (hidden_dim_at (first :: rest) 0) with (Ok first : result Z).
    cbn [mbind result_bind]. by rewrite He.
  - intros Hfirst Hrest Hlast.
    eexists. split; [by apply init_run|].
    split; [|split].
    + cbn [hiddens]. rewrite length_zip_with. cbn [length]. lia.
    + unfold forward. cbn [fc1 fc2 hiddens]. rewrite linear_width_same.
      change ((v ← hiddens_forward linear_width relu_width
                     (zip_with pair (first :: rest) rest) first;
               linear_width (List.last rest first, output_dim) v)
              = Ok output_dim).
      rewrite hiddens_forward_chain.
      apply linear_width_same.
    + intros width Hw. unfold forward. cbn [fc1].
      by rewrite linear_width_other.
Qed.

End Init.

(** [VanillaValueNetwork(30, [10, 10], 1)], as the critics of the test
    suite are built, and a negative first hidden dimension. *)
Lemma vanilla_network_is_well_dimensioned_witness :
  (∃ net,
     init (make_linear (torch:=Samples.torch_constructors)) 30 [10; 10] 1 = Ok net ∧
     hiddens net = [(10, 10)] ∧
     forward linear_width relu_width net 30 = Ok 1) ∧
  init (make_linear (torch:=Samples.torch_constructors)) 3 [-1] 1
  = Raise RuntimeError.
Proof.
  destruct (vanilla_network_is_well_dimensioned (torch:=Samples.torch_constructors)
              30 1 10 [10]) as (_ & _ & Hinit).
  destruct (vanilla_network_is_well_dimensioned (torch:=Samples.torch_constructors)
              3 1 (-1) []) as (_ & Hraise & _).
  split; [|by apply Hraise].
  destruct Hinit as (net & Hrun & _ & Hforward & _);
    [reflexivity|by repeat constructor|reflexivity|].
  exists net. split; [exact Hrun|]. split; [|exact Hforward].
  vm_compute in Hrun. by injection Hrun as <-.
Defined.

End ValueNetworksMore.

(** ** core/contextual_bandits/policy_learners/disjoint_linear_bandit.py *)

Module DisjointLinearBanditMore.
Import Transition DisjointLinearBandit.

Section Restriction.
Context {A : Type}.

Lemma rows_in_range_length (count : nat) (actions : list Z) (rows : list A) :
  length actions = length rows →
  length (rows_in_range count actions rows)
  = length (filter (fun a => 0 ≤ a < Z.of_nat count) actions).
Proof.
  revert rows. induction actions as [|a actions IH]; intros rows Hlen; [done|].
  destruct rows as [|r rows]; [done|]. simpl in Hlen.
  unfold rows_in_range in *. cbn [zip_with].
  destruct (decide (0 ≤ a < Z.of_nat count)) as [Ha|Ha].
  - rewrite !filter_cons_True by done. simpl. f_equal. apply IH. lia.
  - rewrite !filter_cons_False by done. apply IH. lia.
Qed.

(** The rows of action [i] are found among the rows in range. *)
Lemma rows_of_action_in_range (count i : nat) (actions : list Z) (rows : list A) :
  (i < count)%nat →
  length actions = length rows →
  rows_of_action i (filter (fun a => 0 ≤ a < Z.of_nat count) actions)
    (rows_in_range count actions rows)
  = rows_of_action i actions rows.
Proof.
  intros Hi. revert rows.
  induction actions as [|a actions IH]; intros rows Hlen; [done|].
  destruct rows as [|r rows]; [done|]. simpl in Hlen.
  specialize (IH rows). unfold rows_of_action, rows_in_range in *.
  cbn [zip_with].
  destruct (decide (0 ≤ a < Z.of_nat count)) as [Ha|Ha].
  - rewrite (filter_cons_True (fun a => 0 ≤ a < Z.of_nat count) a) by done.
    rewrite (filter_cons_True (fun p => 0 ≤ p.1 < Z.of_nat count) (a, r)) by done.
    rewrite fmap_cons. cbn [snd zip_with].
    destruct (decide (a = Z.of_nat i)) as [Hai|Hai].
    + rewrite !(filter_cons_True (fun p => p.1 = Z.of_nat i)) by done.
      rewrite !fmap_cons. f_equal. apply IH. lia.
    + rewrite !(filter_cons_False (fun p => p.1 = Z.of_nat i)) by done.
      apply IH. lia.
  - rewrite (filter_cons_False (fun a => 0 ≤ a < Z.of_nat count) a) by done.
    rewrite (filter_cons_False (fun p => 0 ≤ p.1 < Z.of_nat count) (a, r)) by done.
    rewrite (filter_cons_False (fun p => p.1 = Z.of_nat i) (a, r))
      by (cbn [fst]; lia).
    apply IH. lia.
Qed.

End Restriction.

Section LearnBatch.
Context {Elem State : Type} (one : Elem).
Context (lr_learn_batch : @Utils.Model Elem State → list (list Elem) → list Elem →
                          list Elem → @Utils.Model Elem State).
Context {SubjectiveState Action ActionSpace PyObj : Type}.

Abbreviation Bandit :=
  (@DisjointLinearBandit Elem State SubjectiveState Action ActionSpace).
Abbreviation Space := (@DiscreteActionSpace Elem SubjectiveState).
Abbreviation Batch := (TransitionBatch (list (list Elem)) (list Elem) (list Z)).

(** An action without transitions is passed over before any tensor of the
    batch is read. *)
Lemma learn_action_skipped (space : Space) (batch : Batch) (i : nat)
    (r : @Utils.Model Elem State) :
  Z.of_nat i ∉ action batch →
  learn_action one lr_learn_batch space batch i r = Ok r.
Proof.
  intros Hout. unfold learn_action, nonzero.
  by rewrite (proj2 (DisjointLinearBanditSpec.nonzero_none_iff i (action batch) 0) Hout).
Qed.

Lemma learn_loop_skipped (space : Space) (batch : Batch)
    (regressions : list (@Utils.Model Elem State)) :
  ∀ start,
  (∀ i, (start ≤ i < start + length regressions)%nat → Z.of_nat i ∉ action batch) →
  learn_loop one lr_learn_batch space batch start regressions = Ok regressions.
Proof.
  induction regressions as [|r rest IH]; intros start Hout; [done|].
  cbn [learn_loop length] in *.
  rewrite learn_action_skipped by (apply Hout; lia).
  cbn [mbind result_bind]. rewrite IH by (intros i Hi; apply Hout; lia).
  reflexivity.
Qed.

(** X12. A batch in which no transition has the action index of a
    regression (an empty batch, for one) changes nothing: [learn_batch]
    returns the empty dictionary and leaves every regression as it was,
    whatever the shapes of the state, reward and weight tensors and whether
    or not the action space can be indexed: no tensor of the batch other
    than the actions is read. *)
Theorem learn_batch_without_matching_action (self : Bandit) (batch : Batch) :
  (∀ i, (i < length (_linear_regressions self))%nat → Z.of_nat i ∉ action batch) →
  learn_batch (PyObj:=PyObj) one lr_learn_batch self batch = Ok (self, ∅).
Proof.
  intros Hout. unfold learn_batch.
  rewrite learn_loop_skipped by (intros i Hi; apply Hout; lia).
  by destruct self.
Qed.

Lemma restrict_batch_rows_agree (count : nat) (batch : Batch) :
  batch_rows_agree batch → batch_rows_agree (restrict_batch count batch).
Proof.
  intros (Hstate & Hreward & Hweight). unfold batch_rows_agree, restrict_batch.
  cbn [state action reward weight].
  rewrite !rows_in_range_length by done. split; [done|]. split; [done|].
  destruct (weight batch) as [w|]; [|done].
  cbn [fmap option_fmap option_map]. by rewrite rows_in_range_length.
Qed.

Lemma updated_regression_restrict (space : Space) (batch : Batch) (count i : nat)
    (r : @Utils.Model Elem State) :
  batch_rows_agree batch →
  (i < count)%nat →
  updated_regression one lr_learn_batch space (restrict_batch count batch) i r
  = updated_regression one lr_learn_batch space batch i r.
Proof.
  intros (Hstate & Hreward & Hweight) Hi. unfold updated_regression.
  destruct (getitem space i) as [action_vector|]; [|done].
  unfold context_of_action, weight_of_action, restrict_batch.
  cbn [state action reward weight].
  rewrite !rows_of_action_in_range by done.
  destruct (decide (Z.of_nat i ∈ filter (fun a => 0 ≤ a < Z.of_nat count)
                                   (action batch))) as [Hin|Hout];
    destruct (decide (Z.of_nat i ∈ action batch)) as [Hin'|Hout'].
  - destruct (weight batch) as [w|]; cbn [fmap option_fmap option_map].
    + by rewrite rows_of_action_in_range.
    + done.
  - by apply list_elem_of_filter in Hin as [_ ?].
  - destruct Hout. apply list_elem_of_filter. split; [lia|done].
  - done.
Qed.

(** X13. Transitions whose action index is that of no regression are
    dropped without a word: on a batch whose tensors have one row per
    transition, [learn_batch] gives the result it gives on the batch
    without these transitions. *)
Theorem learn_batch_ignores_actions_out_of_range (self : Bandit) (batch : Batch) :
  batch_rows_agree batch →
  indexable (_discrete_action_space self) (length (_linear_regressions self)) →
  learn_batch (PyObj:=PyObj) one lr_learn_batch self
    (restrict_batch (length (_linear_regressions self)) batch)
  = learn_batch one lr_learn_batch self batch.
Proof.
  intros Hbatch Hidx. unfold learn_batch.
  rewrite !DisjointLinearBanditSpec.learn_loop_run
    by (done || by apply restrict_batch_rows_agree).
  cbn [mbind result_bind]. do 3 f_equal.
  apply list_eq. intros k. rewrite !list_lookup_imap.
  destruct (_linear_regressions self !! k) as [r|] eqn:Hr; [|done].
  cbn [fmap option_fmap option_map Nat.add]. f_equal.
  apply updated_regression_restrict; [done|].
  by apply lookup_lt_Some in Hr.
Qed.

End LearnBatch.

(** Three regressions and the actions 7 and -1. *)
Lemma learn_batch_without_matching_action_witness :
  learn_batch (PyObj:=unit) 1 Samples.sample_learn Samples.sample_bandit
    (mkBatch [[1; 2]] [7; -1] [] None)
  = Ok (Samples.sample_bandit, ∅).
Proof.
  apply (learn_batch_without_matching_action (PyObj:=unit) 1 Samples.sample_learn
           Samples.sample_bandit (mkBatch [[1; 2]] [7; -1] [] None)).
  intros i Hi Hin. cbn [action] in Hin.
  apply elem_of_cons in Hin as [Hin|Hin]; [simpl in Hi; lia|].
  apply elem_of_cons in Hin as [Hin|Hin]; [lia|].
  by apply elem_of_nil in Hin.
Defined.

(** Three regressions and the actions 0, 7, 2 and -1: the second and the
    fourth transition are dropped. *)
Lemma learn_batch_ignores_actions_out_of_range_witness :
  learn_batch (PyObj:=unit) 1 Samples.sample_learn Samples.sample_bandit
    (mkBatch [[1; 2]; [5; 6]] [0; 2] [10; 30] None)
  = learn_batch 1 Samples.sample_learn Samples.sample_bandit
      (mkBatch [[1; 2]; [3; 4]; [5; 6]; [7; 8]] [0; 7; 2; -1] [10; 20; 30; 40] None).
Proof.
  apply (learn_batch_ignores_actions_out_of_range (PyObj:=unit) 1
           Samples.sample_learn Samples.sample_bandit
           (mkBatch [[1; 2]; [3; 4]; [5; 6]; [7; 8]] [0; 7; 2; -1]
              [10; 20; 30; 40] None)).
  - repeat split.
  - intros [|[|[|i]]] Hi; simpl in *; eauto; lia.
Defined.

End DisjointLinearBanditMore.

(** ** pearl/policy_learners/policy_gradient.py *)

Module PolicyGradientMore.
Import Transition Torch PolicyGradient.

Section LearnBatch.
Context {Elem : Type} `{!FloatOps Elem}.
Context {ActorParams Grads OptState : Type}.
Context (actor_forward : ActorParams → @Tensor Elem → result (@Tensor Elem)).
Context (zero_grad : Grads → Grads)
  (backward : (ActorParams → result Elem) → ActorParams → Grads → Grads)
  (optimizer_step : OptState → ActorParams → Grads → OptState * ActorParams).

Abbreviation Batch :=
  (TransitionBatch (@Tensor Elem) (@Tensor Elem) (@Tensor Elem)).
Abbreviation Learner := (@PolicyGradient Elem ActorParams Grads OptState).

(** The learner after one call of [learn_batch] that computed the loss
    [value]: the gradients are zeroed, accumulated by one backward pass at
    the parameters the actor had, and the optimiser takes one step. *)
Lemma learn_batch_step (self : Learner) (batch : Batch) (value : Elem) :
  shape0 (action batch) = shape0 (state batch) →
  shape0 (reward batch) = shape0 (state batch) →
  loss_of actor_forward batch (_actor self) = Ok value →
  learn_batch actor_forward zero_grad backward optimizer_step self batch
  = Ok ({| _actor :=
             (optimizer_step (_optimizer self) (_actor self)
                (backward (loss_of actor_forward batch) (_actor self)
                   (zero_grad (_grads self)))).2;
           _optimizer :=
             (optimizer_step (_optimizer self) (_actor self)
                (backward (loss_of actor_forward batch) (_actor self)
                   (zero_grad (_grads self)))).1;
           _grads := backward (loss_of actor_forward batch) (_actor self)
                       (zero_grad (_grads self));
           loss := Some value;
           optimizer_steps := S (optimizer_steps self) |},
        {[ "loss"%string := value ]}).
Proof.
  intros Ha Hr Hloss. unfold learn_batch.
  rewrite (proj2 (Nat.eqb_eq _ _) Ha), (proj2 (Nat.eqb_eq _ _) Hr).
  cbn [py_assert mbind result_bind]. rewrite Hloss. cbn [mbind result_bind].
  by destruct (optimizer_step _ _ _) as [opt params'].
Qed.

(** X14. With the returns as a column, a tensor of shape (batch_size, 1),
    [learn_batch] computes the REINFORCE loss: the sum over the batch of
    -log(sum over actions of probability * one-hot action) times the return
    of the transition.  It stores the loss, returns it under "loss", zeroes
    the gradients before the one backward pass, and steps the optimiser
    once. *)
Theorem learn_batch_reinforce_on_column_returns (self : Learner) (batch : Batch)
    (cols : nat) (action_probs action_one_hot : list (list Elem))
    (returns : list Elem) :
  actor_forward (_actor self) (state batch) = Ok (Tensor2 cols action_probs) →
  action batch = Tensor2 cols action_one_hot →
  reward batch = Tensor2 1 (map (fun r => [r]) returns) →
  shape0 (state batch) = length returns →
  length action_probs = length returns →
  length action_one_hot = length returns →
  Forall (fun r => length r = cols) action_probs →
  Forall (fun r => length r = cols) action_one_hot →
  learn_batch actor_forward zero_grad backward optimizer_step self batch
  = Ok ({| _actor :=
             (optimizer_step (_optimizer self) (_actor self)
                (backward (loss_of actor_forward batch) (_actor self)
                   (zero_grad (_grads self)))).2;
           _optimizer :=
             (optimizer_step (_optimizer self) (_actor self)
                (backward (loss_of actor_forward batch) (_actor self)
                   (zero_grad (_grads self)))).1;
           _grads := backward (loss_of actor_forward batch) (_actor self)
                       (zero_grad (_grads self));
           loss := Some (reinforce_loss action_probs action_one_hot returns);
           optimizer_steps := S (optimizer_steps self) |},
        {[ "loss"%string := reinforce_loss action_probs action_one_hot returns ]}).
Proof.
  intros Hactor Haction Hreward Hstate Hp Ho Hpc Hoc.
  apply learn_batch_step.
  - rewrite Haction, Hstate. exact Ho.
  - rewrite Hreward, Hstate. cbn [shape0]. by rewrite length_map.
  - apply (PolicyGradientSpec.loss_of_column_returns actor_forward batch
             (_actor self) cols); (done || lia).
Qed.

(** One transition: the product of a (1, 1) column and a vector of length 1. *)
Lemma loss_of_one_return (batch : Batch) (params : ActorParams) (cols : nat)
    (p a : list Elem) (r : Elem) :
  actor_forward params (state batch) = Ok (Tensor2 cols [p]) →
  action batch = Tensor2 cols [a] →
  reward batch = Tensor1 [r] →
  length p = cols → length a = cols →
  loss_of actor_forward batch params
  = Ok (fsum (concat (map (fun nlp => map (fmul nlp) [r])
                          (negative_log_propensities [p] [a])))).
Proof.
  intros Hactor Haction Hreward Hp Ha.
  rewrite (PolicyGradientSpec.negative_log_probs_run actor_forward batch params
             cols [p] [a]) by (done || by repeat constructor).
  by rewrite Hreward.
Qed.

Lemma length_products (l returns : list Elem) :
  length (concat (map (fun nlp => map (fmul nlp) returns) l))
  = (length l * length returns)%nat.
Proof.
  induction l as [|nlp l IH]; [done|].
  cbn [map concat]. by rewrite length_app, length_map, IH.
Qed.

(** X15. With the returns as a vector, a tensor of shape (batch_size,) as
    the comment in [learn_batch] has it, the column of negative log
    propensities is broadcast against the returns: the loss is the sum of
    the products of the negative log propensity of every transition with
    the return of every transition, batch_size * batch_size products. *)
Theorem learn_batch_pairs_every_return_on_vector_returns (self : Learner)
    (batch : Batch) (cols : nat) (action_probs action_one_hot : list (list Elem))
    (returns : list Elem) :
  actor_forward (_actor self) (state batch) = Ok (Tensor2 cols action_probs) →
  action batch = Tensor2 cols action_one_hot →
  reward batch = Tensor1 returns →
  shape0 (state batch) = length returns →
  length action_probs = length returns →
  length action_one_hot = length returns →
  Forall (fun r => length r = cols) action_probs →
  Forall (fun r => length r = cols) action_one_hot →
  ∃ self',
    learn_batch actor_forward zero_grad backward optimizer_step self batch
    = Ok (self',
          {[ "loss"%string :=
               fsum (concat (map (fun nlp => map (fmul nlp) returns)
                               (negative_log_propensities action_probs
                                  action_one_hot))) ]}) ∧
    loss self'
    = Some (fsum (concat (map (fun nlp => map (fmul nlp) returns)
                            (negative_log_propensities action_probs
                               action_one_hot)))) ∧
    length (concat (map (fun nlp => map (fmul nlp) returns)
                      (negative_log_propensities action_probs action_one_hot)))
    = (length returns * length returns)%nat.
Proof.
  intros Hactor Haction Hreward Hstate Hp Ho Hpc Hoc.
  eexists. split; [|split]; [apply learn_batch_step| |].
  - rewrite Haction, Hstate. exact Ho.
  - by rewrite Hreward, Hstate.
  - destruct (decide (length returns = 1%nat)) as [Hone|Hmore].
    + destruct returns as [|r [|? ?]]; try done.
      destruct action_probs as [|p [|? ?]]; try done.
      destruct action_one_hot as [|a [|? ?]]; try done.
      apply (loss_of_one_return batch (_actor self) cols); try done.
      * by apply Forall_inv in Hpc.
      * by apply Forall_inv in Hoc.
    + apply (PolicyGradientSpec.loss_of_vector_returns actor_forward batch
               (_actor self) cols); (done || lia).
  - reflexivity.
  - rewrite length_products. unfold negative_log_propensities.
    by rewrite length_zip_with, Hp, Ho, Nat.min_id.
Qed.

End LearnBatch.

(** Two transitions with the returns 1 and 2 as a column. *)
Lemma learn_batch_reinforce_on_column_returns_witness :
  learn_batch Samples.sample_actor (fun _ => 0%nat) (fun _ _ g => S g)
    (fun opt p _ => (S opt, p))
    Samples.sample_policy_gradient
    (mkBatch (Tensor2 1 [[0]; [0]]%R) (Tensor2 2 [[1; 0]; [1; 0]]%R)
       (Tensor2 1 [[1]; [2]]%R) None)
  = Ok (mkPolicyGradient tt 1%nat 1%nat
          (Some (reinforce_loss
                   [[exp (-1); 1 - exp (-1)]; [exp (-1); 1 - exp (-1)]]%R
                   [[1; 0]; [1; 0]]%R [1; 2]%R)) 1%nat,
        {[ "loss"%string :=
             reinforce_loss [[exp (-1); 1 - exp (-1)]; [exp (-1); 1 - exp (-1)]]%R
               [[1; 0]; [1; 0]]%R [1; 2]%R ]}).
Proof.
  apply (learn_batch_reinforce_on_column_returns Samples.sample_actor
           (fun _ => 0%nat) (fun _ _ g => S g) (fun opt p _ => (S opt, p))
           Samples.sample_policy_gradient
           (mkBatch (Tensor2 1 [[0]; [0]]%R) (Tensor2 2 [[1; 0]; [1; 0]]%R)
              (Tensor2 1 [[1]; [2]]%R) None)
           2 [[exp (-1); 1 - exp (-1)]; [exp (-1); 1 - exp (-1)]]%R
           [[1; 0]; [1; 0]]%R [1; 2]%R);
    try reflexivity; by repeat constructor.
Defined.

(** Two transitions with the returns 1 and 2 as a vector: four products. *)
Lemma learn_batch_pairs_every_return_on_vector_returns_witness :
  ∃ self',
    learn_batch Samples.sample_actor (fun _ => 0%nat) (fun _ _ g => S g)
      (fun opt p _ => (S opt, p))
      Samples.sample_policy_gradient Samples.sample_return_batch
    = Ok (self',
          {[ "loss"%string :=
               fsum (concat (map (fun nlp => map (fmul nlp) [1; 2]%R)
                               (negative_log_propensities
                                  [[exp (-1); 1 - exp (-1)];
                                   [exp (-1); 1 - exp (-1)]]%R
                                  [[1; 0]; [1; 0]]%R))) ]}).
Proof.
  destruct (learn_batch_pairs_every_return_on_vector_returns Samples.sample_actor
              (fun _ => 0%nat) (fun _ _ g => S g) (fun opt p _ => (S opt, p))
              Samples.sample_policy_gradient Samples.sample_return_batch
              2 [[exp (-1); 1 - exp (-1)]; [exp (-1); 1 - exp (-1)]]%R
              [[1; 0]; [1; 0]]%R [1; 2]%R)
    as (self' & Hrun & _);
    try reflexivity; try (by repeat constructor).
  exists self'. exact Hrun.
Defined.

End PolicyGradientMore.
